(** * Verification of the GNSS RINEX batch downloader (download_rinex.py)

    A shallow embedding of the candidate generator, the availability-window
    resolver, the fetch executor with its retry loop, the unit resolver and
    the batch orchestrator, followed by the properties proved about them.

    Modelling conventions
    - A [datetime.date] is represented by its proleptic Gregorian ordinal
      ([date.toordinal()]); comparison, subtraction and [+ timedelta(n)] are
      then integer operations, and [.year] / [.timetuple().tm_yday] are
      computed from the ordinal with the standard library's algorithm.
    - Python [str] values are Rocq strings; a character stands for the
      code point of the same number, so the strings of the model are the
      Python strings whose code points are below 256. [lower] and [upper]
      are [str.lower] and [str.upper] on ASCII strings, where only the
      letters A-Z and a-z change; the properties that depend on the case of
      a station code assume [isascii]. Paths follow [posixpath] and the
      filesystem distinguishes case.
    - The filesystem is a finite map from paths to nodes; a file is known by
      its size, the only thing the program ever asks about it.
    - The network and the failures of the operating system are an oracle
      ([environment]); every observable action (request, sleep, directory
      creation, write, log line) is appended to a trace, in order.
    - Exceptions are explicit: a computation returns [Ok] or [Raise], and
      [try_except] is Python's [try: ... except Exception].
    - The worker pool is abstracted to the order in which it completes the
      submitted units ([completion]); each unit runs from start to end
      without interleaving with another. *)

From Stdlib Require Import ZArith Lia List Bool Ascii String DecimalString Permutation.
From stdpp Require Import base gmap strings list fin_maps.

Open Scope string_scope.
Open Scope Z_scope.

(* ===================================================================== *)
(** ** Dates (the part of [datetime.date] the program uses)              *)
(* ===================================================================== *)

Module PyDate.

(** A date is its ordinal: day 1 is 0001-01-01. *)
Definition date := Z.

Definition MINYEAR : Z := 1.
Definition MAXYEAR : Z := 9999.
Definition _MAXORDINAL : Z := 3652059.

Definition valid_date (d : date) : Prop := 1 <= d <= _MAXORDINAL.

Definition _is_leap (y : Z) : bool :=
  (y mod 4 =? 0) && (negb (y mod 100 =? 0) || (y mod 400 =? 0)).

Definition _days_before_year (year : Z) : Z :=
  let y := year - 1 in y * 365 + y / 4 - y / 100 + y / 400.

Definition _days_in_month (year month : Z) : Z :=
  if (month =? 2) && _is_leap year then 29
  else nth (Z.to_nat month) [0; 31; 28; 31; 30; 31; 30; 31; 31; 30; 31; 30; 31] 0.

Definition _days_before_month (year month : Z) : Z :=
  nth (Z.to_nat month) [0; 0; 31; 59; 90; 120; 151; 181; 212; 243; 273; 304; 334] 0
  + (if (2 <? month) && _is_leap year then 1 else 0).

Definition _ymd2ord (year month day : Z) : Z :=
  _days_before_year year + _days_before_month year month + day.

(** [date(year, month, day)]; [None] stands for the ValueError raised on
    fields out of range. *)
Definition mkdate (year month day : Z) : option date :=
  if (MINYEAR <=? year) && (year <=? MAXYEAR)
     && (1 <=? month) && (month <=? 12)
     && (1 <=? day) && (day <=? _days_in_month year month)
  then Some (_ymd2ord year month day) else None.

Definition _DI400Y : Z := 146097.
Definition _DI100Y : Z := 36524.
Definition _DI4Y : Z := 1461.

(** [d.year]: the year component of [_ord2ymd]. *)
Definition year (d : date) : Z :=
  let n := d - 1 in
  let n400 := n / _DI400Y in
  let n := n mod _DI400Y in
  let n100 := n / _DI100Y in
  let n := n mod _DI100Y in
  let n4 := n / _DI4Y in
  let n := n mod _DI4Y in
  let n1 := n / 365 in
  let y := n400 * 400 + 1 + n100 * 100 + n4 * 4 + n1 in
  if (n1 =? 4) || (n100 =? 4) then y - 1 else y.

(** [d.timetuple().tm_yday]: days since January 1st of [d.year], plus one. *)
Definition tm_yday (d : date) : Z := d - _days_before_year (year d).

(** [(b - a).days] and [a + timedelta(n)]. *)
Definition days_between (a b : date) : Z := b - a.
Definition add_days (a : date) (n : Z) : date := a + n.

End PyDate.

(* ===================================================================== *)
(** ** Strings, number formatting and POSIX paths                        *)
(* ===================================================================== *)

Module PyStr.

Definition map_chars (f : ascii -> ascii) : string -> string :=
  fix go (s : string) : string :=
    match s with
    | EmptyString => EmptyString
    | String c r => String (f c) (go r)
    end.

Definition lower_char (c : ascii) : ascii :=
  let n := N_of_ascii c in
  if ((65 <=? n) && (n <=? 90))%N then ascii_of_N (n + 32) else c.

Definition upper_char (c : ascii) : ascii :=
  let n := N_of_ascii c in
  if ((97 <=? n) && (n <=? 122))%N then ascii_of_N (n - 32) else c.

(** [s.lower()] and [s.upper()] for an ASCII string [s]: the letters A-Z
    and a-z change case, every other character stays. *)
Definition lower : string -> string := map_chars lower_char.
Definition upper : string -> string := map_chars upper_char.

(** ["0" * n + s]. *)
Fixpoint zeros (n : nat) (s : string) : string :=
  match n with
  | O => s
  | S k => String "0" (zeros k s)
  end.

(** [str(n)] for an int. *)
Definition str_of_int (n : Z) : string := NilZero.string_of_int (Z.to_int n).

(** [format(n, "0{width}d")]: sign-aware zero padding to a minimum width. *)
Definition fmt_0d (width : nat) (n : Z) : string :=
  if n <? 0 then
    let ds := NilZero.string_of_int (Z.to_int (- n)) in
    String "-" (zeros (width - 1 - String.length ds) ds)
  else
    let ds := NilZero.string_of_int (Z.to_int n) in
    zeros (width - String.length ds) ds.

Definition is_sep (c : ascii) : bool := Ascii.eqb c "/".

Definition startswith_sep (s : string) : bool :=
  match s with
  | String c _ => is_sep c
  | EmptyString => false
  end.

Fixpoint endswith_sep (s : string) : bool :=
  match s with
  | EmptyString => false
  | String c EmptyString => is_sep c
  | String _ r => endswith_sep r
  end.

(** [posixpath.join(path, b)] for one more component. *)
Definition join2 (path b : string) : string :=
  if startswith_sep b then b
  else if String.eqb path "" || endswith_sep path then path +:+ b
  else path +:+ "/" +:+ b.

(** [os.path.join(a, *p)]. *)
Definition path_join (a : string) (p : list string) : string :=
  fold_left join2 p a.

Fixpoint contains_sep (s : string) : bool :=
  match s with
  | EmptyString => false
  | String c r => is_sep c || contains_sep r
  end.

(** [p[:p.rfind("/") + 1]]. *)
Fixpoint upto_last_sep (p : string) : string :=
  match p with
  | EmptyString => EmptyString
  | String c r =>
      if contains_sep r then String c (upto_last_sep r)
      else if is_sep c then String c EmptyString
      else EmptyString
  end.

Fixpoint all_sep (s : string) : bool :=
  match s with
  | EmptyString => true
  | String c r => is_sep c && all_sep r
  end.

(** [s.rstrip("/")]. *)
Fixpoint rstrip_sep (s : string) : string :=
  match s with
  | EmptyString => EmptyString
  | String c r =>
      let r' := rstrip_sep r in
      if is_sep c && String.eqb r' "" then EmptyString else String c r'
  end.

(** [os.path.dirname(p)]. *)
Definition dirname (p : string) : string :=
  let head := upto_last_sep p in
  if negb (String.eqb head "") && negb (all_sep head) then rstrip_sep head
  else head.

End PyStr.

Import PyDate PyStr.

(* ===================================================================== *)
(** ** Configuration                                                     *)
(* ===================================================================== *)

Definition MAX_WORKERS_DEFAULT : Z := 5.
Definition MAX_RETRIES : Z := 3.
Definition RETRY_BACKOFF_SEC : Z := 5.
Definition ARCHIVE_URL : string :=
  "https://gage-data.earthscope.org/archive/gnss/rinex/obs/".

(** [range(a, b)]. *)
Definition py_range (a b : Z) : list Z :=
  map (fun i => a + Z.of_nat i) (seq 0 (Z.to_nat (b - a))).

(* ===================================================================== *)
(** ** Candidate generator                                               *)
(* ===================================================================== *)

(** One turn of the duplicate-removal loop: [seen] is the set, [unique] the
    list built so far. *)
Definition dedup_step (acc : gset string * list string) (p : string)
  : gset string * list string :=
  if decide (p ∈ acc.1) then acc else ({[p]} ∪ acc.1, (acc.2 ++ [p])%list).

Definition generate_candidate_filenames (station : string) (current_date : date)
  : list string :=
  let st_low := lower station in
  let st_up := upper station in
  let year := PyDate.year current_date in
  let doy := tm_yday current_date in
  let yy := year mod 100 in
  let patterns :=
    [ st_low +:+ fmt_0d 3 doy +:+ "00." +:+ fmt_0d 2 yy +:+ "d.Z";
      st_up +:+ fmt_0d 3 doy +:+ "00." +:+ fmt_0d 2 yy +:+ "d.Z" ] in
  (fold_left dedup_step patterns (∅, [])).2.

Definition generate_rinex_url_and_path
    (station : string) (current_date : date) (rinex_root : string)
  : list (string * string) :=
  let year := PyDate.year current_date in
  let doy := tm_yday current_date in
  let base_dir := path_join rinex_root [str_of_int year; fmt_0d 3 doy] in
  map (fun fname =>
         (ARCHIVE_URL +:+ str_of_int year +:+ "/" +:+ fmt_0d 3 doy +:+ "/" +:+ fname,
          path_join base_dir [fname]))
      (generate_candidate_filenames station current_date).

(* ===================================================================== *)
(** ** The world: filesystem, trace, environment                         *)
(* ===================================================================== *)

Inductive node : Type :=
| Dir
| File (size : N).

Inductive exn : Type :=
| TransportError            (* raised by requests.get or while streaming *)
| HTTPError (status : Z)    (* raised by the code on a 5xx status *)
| OSError                   (* a failing filesystem call *)
| IndexError
| ValueError
| RuntimeError.

Inductive level : Type := DEBUG | INFO | WARNING | ERROR.

(** The log lines of the program, by call site. *)
Inductive log_msg : Type :=
| CreatedDirectory (dirpath : string)
| FailedToCreateDirectory (dirpath : string)
| Downloaded (url : string)
| FileNotFound404 (url : string)
| UnexpectedStatus (status : Z) (url : string)
| AttemptFailed (attempt : Z) (url : string) (e : exn)
| RetryingAfter (secs : Z)
| AllAttemptsFailed (n : Z) (url : string)
| DryRunWouldTry (url : string)
| AlreadyExists (local_path : string)
| AllVariantsFailed (station : string) (d : date)
| SkippingStation (station : string)
| StartingDownload (n_stations : Z) (total : Z) (out_root : string) (workers : Z)
| FailedUnit (station : string) (d : date)
| ExceptionForUnit (station : string) (d : date) (e : exn)
| DownloadComplete (n_success n_fail : Z).

Inductive event : Type :=
| EvFetch (url : string) (bearer : string)   (* one requests.get *)
| EvSleep (secs : Z)                         (* time.sleep *)
| EvMkdir (dirpath : string)                 (* os.makedirs succeeded *)
| EvOpenWrite (path : string)                (* open(path, "wb") succeeded *)
| EvWrite (path : string) (bytes : N)        (* bytes written to the file *)
| EvLog (lvl : level) (msg : log_msg).

Record world : Type := World {
  fs : gmap string node;
  trace : list event
}.

(** What the outside does to one fetch attempt: the HTTP status ([None]: the
    request itself raises), the size of the body, and which local calls
    fail. [stream_fails = Some k]: the chunk loop raises after [k] bytes
    have reached the file. *)
Record attempt_env : Type := AttemptEnv {
  http_status : option Z;
  body_size : N;
  mkdir_fails : bool;
  open_fails : bool;
  stream_fails : option N
}.

Definition task : Type := string * date.

(** The environment of a run. [net url attempt] answers the [attempt]-th
    request for [url] inside one call of [download_file]; [getsize_fails]
    tells where [os.path.getsize] raises; [token_var] is the value of the
    EARTHSCOPE_TOKEN variable; [completion] is the order in which the worker
    pool runs the submitted units to completion. *)
Record environment : Type := Environment {
  net : string -> Z -> attempt_env;
  getsize_fails : string -> bool;
  token_var : option string;
  completion : list task -> list task
}.

(* ===================================================================== *)
(** ** A state-and-exception monad over the world                        *)
(* ===================================================================== *)

Inductive result (A : Type) : Type :=
| Ok (a : A)
| Raise (e : exn).
Arguments Ok {A} a.
Arguments Raise {A} e.

Definition M (A : Type) : Type := world -> result A * world.

Definition ret {A} (a : A) : M A := fun w => (Ok a, w).

Definition bind {A B} (m : M A) (k : A -> M B) : M B :=
  fun w => match m w with
           | (Ok a, w') => k a w'
           | (Raise e, w') => (Raise e, w')
           end.

Definition raise {A} (e : exn) : M A := fun w => (Raise e, w).

(** [try: m except Exception as e: h e]. *)
Definition try_except {A} (m : M A) (h : exn -> M A) : M A :=
  fun w => match m w with
           | (Ok a, w') => (Ok a, w')
           | (Raise e, w') => h e w'
           end.

Definition emit (e : event) : M unit :=
  fun w => (Ok tt, World (fs w) (trace w ++ [e])).

Definition log (lvl : level) (msg : log_msg) : M unit := emit (EvLog lvl msg).

Definition get_fs : M (gmap string node) := fun w => (Ok (fs w), w).

Definition modify_fs (g : gmap string node -> gmap string node) : M unit :=
  fun w => (Ok tt, World (g (fs w)) (trace w)).

Declare Scope monad_scope.
Delimit Scope monad_scope with monad.
Notation "x <- m ;; k" := (bind m (fun x => k))
  (at level 100, m at next level, right associativity) : monad_scope.
Notation "m ;;; k" := (bind m (fun _ => k))
  (at level 100, right associativity) : monad_scope.
Open Scope monad_scope.

(** [for x in l: body x]. *)
Fixpoint for_each {A} (l : list A) (body : A -> M unit) : M unit :=
  match l with
  | [] => ret tt
  | x :: r => body x ;;; for_each r body
  end.

(* ===================================================================== *)
(** ** Fetch executor                                                    *)
(* ===================================================================== *)

(** The effect of a successful [os.makedirs(dirpath, exist_ok=True)] on the
    map: [dirpath] and its ancestors become directories where nothing was
    recorded. *)
Fixpoint makedirs_fs (fuel : nat) (dirpath : string) (f : gmap string node)
  : gmap string node :=
  match fuel with
  | O => f
  | S k =>
      if String.eqb dirpath "" then f
      else
        let f' := match f !! dirpath with
                  | None => <[dirpath := Dir]> f
                  | Some _ => f
                  end in
        makedirs_fs k (dirname dirpath) f'
  end.

Definition makedirs (e : attempt_env) (dirpath : string) : M unit :=
  if mkdir_fails e || String.eqb dirpath "" then raise OSError
  else
    modify_fs (makedirs_fs (S (String.length dirpath)) dirpath) ;;;
    emit (EvMkdir dirpath).

Definition ensure_directory (e : attempt_env) (path : string) : M unit :=
  let dirpath := dirname path in
  f <- get_fs ;;
  match f !! dirpath with
  | Some _ => ret tt                       (* os.path.exists(dirpath) *)
  | None =>
      try_except
        (makedirs e dirpath ;;; log DEBUG (CreatedDirectory dirpath))
        (fun ex => log ERROR (FailedToCreateDirectory dirpath) ;;; raise ex)
  end.

(** [open(local_path, "wb")]: creates or truncates the file. *)
Definition open_wb (e : attempt_env) (path : string) : M unit :=
  f <- get_fs ;;
  match f !! path, f !! dirname path with
  | Some Dir, _ => raise OSError
  | _, Some Dir =>
      if open_fails e then raise OSError
      else modify_fs (insert path (File 0%N)) ;;; emit (EvOpenWrite path)
  | _, _ => raise OSError
  end.

(** The chunk loop: every non-empty chunk is written. *)
Definition stream_body (e : attempt_env) (path : string) : M unit :=
  match stream_fails e with
  | Some k =>
      let written := N.min k (body_size e) in
      modify_fs (insert path (File written)) ;;;
      emit (EvWrite path written) ;;;
      raise TransportError
  | None =>
      modify_fs (insert path (File (body_size e))) ;;;
      emit (EvWrite path (body_size e))
  end.

(** The body of the [try] in [download_file], for one attempt. *)
Definition attempt_once (env : environment) (url local_path token : string)
    (attempt : Z) : M bool :=
  let e := net env url attempt in
  emit (EvFetch url token) ;;;
  match http_status e with
  | None => raise TransportError
  | Some status =>
      if status =? 200 then
        ensure_directory e local_path ;;;
        open_wb e local_path ;;;
        stream_body e local_path ;;;
        log INFO (Downloaded url) ;;;
        ret true
      else if status =? 404 then
        log DEBUG (FileNotFound404 url) ;;;
        ret false
      else
        log WARNING (UnexpectedStatus status url) ;;;
        if (500 <=? status) && (status <? 600) then raise (HTTPError status)
        else ret false
  end.

(** What a Python function hands back when it may fall off its end. *)
Inductive py_ret : Type :=
| PyBool (b : bool)
| PyNone.

Definition truthy (r : py_ret) : bool :=
  match r with
  | PyBool b => b
  | PyNone => false
  end.

(** The [for attempt in range(1, max_retries + 1)] loop, over the attempts
    that remain. *)
Fixpoint download_attempts (env : environment) (url local_path token : string)
    (max_retries : Z) (attempts : list Z) : M py_ret :=
  match attempts with
  | [] => ret PyNone
  | attempt :: rest =>
      try_except
        (b <- attempt_once env url local_path token attempt ;; ret (PyBool b))
        (fun ex =>
           log WARNING (AttemptFailed attempt url ex) ;;;
           if attempt <? max_retries then
             log INFO (RetryingAfter RETRY_BACKOFF_SEC) ;;;
             emit (EvSleep RETRY_BACKOFF_SEC) ;;;
             download_attempts env url local_path token max_retries rest
           else
             log ERROR (AllAttemptsFailed MAX_RETRIES url) ;;;
             ret (PyBool false))
  end.

Definition download_file (env : environment) (url local_path token : string)
    (max_retries : Z) : M py_ret :=
  download_attempts env url local_path token max_retries
    (py_range 1 (max_retries + 1)).

(* ===================================================================== *)
(** ** Unit resolver                                                     *)
(* ===================================================================== *)

(** [os.path.isfile(p) and os.path.getsize(p) > 0]. *)
Definition local_ready (env : environment) (path : string) : M bool :=
  f <- get_fs ;;
  match f !! path with
  | Some (File size) =>
      if getsize_fails env path then raise OSError else ret (0 <? size)%N
  | _ => ret false
  end.

(** The candidate loop of a normal run: [Some p] when it returns from
    inside the loop, [None] when the loop runs to its end. *)
Fixpoint try_candidates (env : environment) (token : string)
    (candidates : list (string * string)) : M (option string) :=
  match candidates with
  | [] => ret None
  | (url, local_path) :: rest =>
      ready <- local_ready env local_path ;;
      if ready then
        log DEBUG (AlreadyExists local_path) ;;;
        ret (Some local_path)
      else
        success <- download_file env url local_path token MAX_RETRIES ;;
        if truthy success then ret (Some local_path)
        else try_candidates env token rest
  end.

(** [candidates[0][1]]. *)
Definition first_local_path (candidates : list (string * string)) : M string :=
  match candidates with
  | [] => raise IndexError
  | c :: _ => ret c.2
  end.

Definition download_for_date_station (env : environment) (station : string)
    (current_date : date) (token rinex_root : string) (dry_run : bool)
  : M (string * bool) :=
  let candidates := generate_rinex_url_and_path station current_date rinex_root in
  if dry_run then
    for_each candidates (fun c => log INFO (DryRunWouldTry c.1)) ;;;
    p <- first_local_path candidates ;;
    ret (p, true)
  else
    r <- try_candidates env token candidates ;;
    match r with
    | Some p => ret (p, true)
    | None =>
        log DEBUG (AllVariantsFailed station current_date) ;;;
        p <- first_local_path candidates ;;
        ret (p, false)
    end.

(* ===================================================================== *)
(** ** Availability windows and the batch orchestrator                   *)
(* ===================================================================== *)

Definition get_bearer_token (env : environment) : M string :=
  match token_var env with
  | Some token => if String.eqb token "" then raise RuntimeError else ret token
  | None => raise RuntimeError
  end.

(** The window arithmetic at the head of the station loop. A [date] object
    is always true in a condition, so [if st_start and ...] tests that the
    bound is present. *)
Definition effective_range (start_date end_date : date)
    (period : option date * option date) : date * date :=
  let eff_start := start_date in
  let eff_start :=
    match period.1 with
    | Some st_start => if st_start >? eff_start then st_start else eff_start
    | None => eff_start
    end in
  let eff_end := end_date in
  let eff_end :=
    match period.2 with
    | Some st_stop => if st_stop <? eff_end then st_stop else eff_end
    | None => eff_end
    end in
  (eff_start, eff_end).

Definition daterange (start_date end_date : date) : list date :=
  map (fun n => add_days start_date n)
      (py_range 0 (days_between start_date end_date + 1)).

(** The units one station adds to [tasks], and whether it is skipped. *)
Definition station_units (st : string) (start_date end_date : date)
    (station_periods : gmap string (option date * option date)) : option (list task) :=
  let eff := effective_range start_date end_date
               (default (None, None) (station_periods !! st)) in
  if eff.2 <? eff.1 then None
  else Some (map (fun single_date => (st, single_date)) (daterange eff.1 eff.2)).

(** The station loop that fills [tasks]. *)
Fixpoint build_tasks (stations : list string) (start_date end_date : date)
    (station_periods : gmap string (option date * option date))
    (tasks : list task) : M (list task) :=
  match stations with
  | [] => ret tasks
  | st :: rest =>
      match station_units st start_date end_date station_periods with
      | None =>
          log INFO (SkippingStation st) ;;;
          build_tasks rest start_date end_date station_periods tasks
      | Some units =>
          build_tasks rest start_date end_date station_periods (tasks ++ units)%list
      end
  end.

Definition result_row : Type := string * date * option string * bool.

(** The [as_completed] loop. The pool is abstracted to an order of
    completion: each unit runs to its end, in that order. *)
Fixpoint collect_results (env : environment) (token out_root : string)
    (dry_run : bool) (order : list task) (results : list result_row)
  : M (list result_row) :=
  match order with
  | [] => ret results
  | (st, dt) :: rest =>
      row <- try_except
               (r <- download_for_date_station env st dt token out_root dry_run ;;
                (if r.2 then ret tt else log DEBUG (FailedUnit st dt)) ;;;
                ret (st, dt, Some r.1, r.2))
               (fun e =>
                  log ERROR (ExceptionForUnit st dt e) ;;;
                  ret (st, dt, None, false)) ;;
      collect_results env token out_root dry_run rest (results ++ [row])%list
  end.

Definition n_success_of (results : list result_row) : Z :=
  Z.of_nat (length (List.filter (fun r : result_row => r.2) results)).

Definition download_rinex_batch (env : environment) (stations : list string)
    (start_date end_date : date) (out_root : string)
    (station_periods : gmap string (option date * option date))
    (max_workers : Z) (dry_run : bool) : M (list result_row) :=
  token <- get_bearer_token env ;;
  tasks <- build_tasks stations start_date end_date station_periods [] ;;
  let total := Z.of_nat (length tasks) in
  log INFO (StartingDownload (Z.of_nat (length stations)) total out_root max_workers) ;;;
  (if max_workers <=? 0 then raise ValueError else ret tt) ;;;
  results <- collect_results env token out_root dry_run (completion env tasks) [] ;;
  let n_success := n_success_of results in
  let n_fail := total - n_success in
  log INFO (DownloadComplete n_success n_fail) ;;;
  ret results.

(* ===================================================================== *)
(** ** Observations on traces                                            *)
(* ===================================================================== *)

Definition is_fetch (e : event) : bool :=
  match e with EvFetch _ _ => true | _ => false end.

Definition is_fs_write (e : event) : bool :=
  match e with EvMkdir _ | EvOpenWrite _ | EvWrite _ _ => true | _ => false end.

Definition is_dry_run_report (e : event) : bool :=
  match e with EvLog INFO (DryRunWouldTry _) => true | _ => false end.

Definition count_events (p : event -> bool) (t : list event) : nat :=
  length (List.filter p t).

Definition fetched_urls (t : list event) : list string :=
  flat_map (fun e => match e with EvFetch url _ => [url] | _ => [] end) t.

Definition empty_world : world := World ∅ [].

(** The date [y-m-d] (ordinal 0, which is no date, when the fields are
    out of range). *)
Definition ymd (y m d : Z) : date := default 0 (mkdate y m d).

(* ===================================================================== *)
(** ** Vocabulary of the specification                                   *)
(* ===================================================================== *)

(** A relation between worlds that every step of a computation keeps. *)
Definition steps (R : world -> world -> Prop) {A} (m : M A) : Prop :=
  forall w, R w (m w).2.

(** The trace grows by events that satisfy [P]. *)
Definition trace_grows (P : list event -> Prop) (w w' : world) : Prop :=
  exists t, trace w' = (trace w ++ t)%list /\ P t.

Definition plain_component (s : string) : bool :=
  negb (String.eqb s "") && negb (startswith_sep s) && negb (endswith_sep s)
  && negb (contains_sep s).

(** The part of the output root that precedes the year directory. *)
Definition root_prefix (rinex_root : string) : string :=
  if String.eqb rinex_root "" || endswith_sep rinex_root then rinex_root
  else rinex_root +:+ "/".

(** The world after some more events. *)
Definition events_after (w : world) (t : list event) : world :=
  World (fs w) (trace w ++ t).

(** The delays and the requests of a trace, in order. *)
Definition sleeps (t : list event) : list Z :=
  flat_map (fun e => match e with EvSleep s => [s] | _ => [] end) t.

(** Files other than [p] keep their recorded size. *)
Definition keeps_other_files (p : string) (w w' : world) : Prop :=
  forall q n, q <> p -> fs w !! q = Some (File n) -> fs w' !! q = Some (File n).

(** No event of [t] is a request or a delay. *)
Definition quiet (t : list event) : Prop := fetched_urls t = [] /\ sleeps t = [].

(** The answers the specification calls transient: the request raises, or
    the status is a 5xx. *)
Definition transient_failure (e : attempt_env) : Prop :=
  match http_status e with
  | None => True
  | Some status => 500 <= status < 600
  end.

(** The environment in which no request ever gets an answer. *)
Definition unreachable_env : environment :=
  Environment (fun _ _ => AttemptEnv None 0 false false None)
              (fun _ => false) (Some "tok") (fun l => l).

(** The log line that follows a status other than 200. *)
Definition status_log (status : Z) (url : string) : event :=
  if status =? 404 then EvLog DEBUG (FileNotFound404 url)
  else EvLog WARNING (UnexpectedStatus status url).

(** An environment that answers 404 to every request. *)
Definition not_found_env : environment :=
  Environment (fun _ _ => AttemptEnv (Some 404) 0 false false None)
              (fun _ => false) (Some "tok") (fun l => l).

(** An environment whose server answers 200 while the disk refuses every
    directory creation. *)
Definition readonly_disk_env : environment :=
  Environment (fun _ _ => AttemptEnv (Some 200) 10 true false None)
              (fun _ => false) (Some "tok") (fun l => l).

(** The report a dry run prints for one candidate. *)
Definition dry_run_report (c : string * string) : event :=
  EvLog INFO (DryRunWouldTry c.1).

(** The units the station loop schedules and the skip lines it logs. *)
Definition scheduled_units (stations : list string) (start_date end_date : date)
    (station_periods : gmap string (option date * option date)) : list task :=
  flat_map (fun st => default [] (station_units st start_date end_date station_periods))
           stations.

Definition skip_lines (stations : list string) (start_date end_date : date)
    (station_periods : gmap string (option date * option date)) : list event :=
  flat_map (fun st =>
              match station_units st start_date end_date station_periods with
              | None => [EvLog INFO (SkippingStation st)]
              | Some _ => []
              end) stations.

Definition row_task (r : result_row) : task := (r.1.1.1, r.1.1.2).

(** The row the [as_completed] loop records for one unit, and the world it
    leaves. *)
Definition unit_row (env : environment) (token out_root : string) (dry_run : bool)
    (u : task) (w : world) : result_row * world :=
  match download_for_date_station env u.1 u.2 token out_root dry_run w with
  | (Ok (p, true), w1) => ((u.1, u.2, Some p, true), w1)
  | (Ok (p, false), w1) =>
      ((u.1, u.2, Some p, false), events_after w1 [EvLog DEBUG (FailedUnit u.1 u.2)])
  | (Raise e, w1) =>
      ((u.1, u.2, None, false), events_after w1 [EvLog ERROR (ExceptionForUnit u.1 u.2 e)])
  end.

Definition is_log (e : event) : bool :=
  match e with EvLog _ _ => true | _ => false end.

Definition dry_reports (out_root : string) (u : task) : list event :=
  map dry_run_report (generate_rinex_url_and_path u.1 u.2 out_root).

Definition n_failed_of (results : list result_row) : Z :=
  Z.of_nat (length (List.filter (fun r : result_row => negb r.2) results)).

(** An environment in which the size of one local file cannot be read, and
    a disk that holds that file. *)
Definition unreadable_env : environment :=
  Environment (fun _ _ => AttemptEnv (Some 404) 0 false false None)
              (fun p => String.eqb p "out/2021/152/y15200.21d.Z")
              (Some "tok") (fun l => l).

Definition unreadable_world : world :=
  World {[ "out/2021/152/y15200.21d.Z" := File 10%N ]} [].

(** All requests of [t] go to [url]. *)
Definition fetches_only (url : string) (t : list event) : Prop :=
  Forall (fun x => x = url) (fetched_urls t).

(** Files that hold data are never touched again. *)
Definition keeps_nonempty_files (w w' : world) : Prop :=
  forall r n, (0 < n)%N -> fs w !! r = Some (File n) -> fs w' !! r = Some (File n).

(** An archive that answers every request with 200 and an empty body. *)
Definition empty_body_env : environment :=
  Environment (fun _ _ => AttemptEnv (Some 200) 0 false false None)
              (fun _ => false) (Some "tok") (fun l => l).

(** An archive that stores the file of 2021-06-01 under the uppercase name
    only: the lowercase URL answers 404, every other URL 200 with a body
    of ten bytes. *)
Definition uppercase_only_env : environment :=
  Environment
    (fun url _ =>
       if String.eqb url (ARCHIVE_URL +:+ "2021/152/y15200.21d.Z")
       then AttemptEnv (Some 404) 0 false false None
       else AttemptEnv (Some 200) 10 false false None)
    (fun _ => false) (Some "tok") (fun l => l).

(* ===================================================================== *)
(** ** Vocabulary for the further properties                             *)
(* ===================================================================== *)

(** An answer that lets a download go through: status 200 and the
    operating system refusing none of the local calls (directory creation,
    opening the file, writing the body). *)
Definition clean_download (e : attempt_env) : Prop :=
  http_status e = Some 200 /\ mkdir_fails e = false /\ open_fails e = false
  /\ stream_fails e = None.

(** The directories above a path, nearest first: [dirname path],
    [dirname (dirname path)] and so on, up to the root or the empty
    string. *)
Fixpoint ancestors_upto (fuel : nat) (path : string) : list string :=
  match fuel with
  | O => []
  | S k =>
      let d := dirname path in
      if String.eqb d "" || String.eqb d path then []
      else d :: ancestors_upto k d
  end.

Definition ancestors (path : string) : list string :=
  ancestors_upto (String.length path) path.

(** A path at which [open(path, "wb")] can succeed after
    [ensure_directory], provided the operating system refuses nothing: the
    path is not a directory, it has a proper parent, and no directory above
    it is a regular file (each one is a directory or does not exist yet, so
    [os.makedirs] finds nothing in its way). *)
Definition writable (f : gmap string node) (path : string) : Prop :=
  f !! path <> Some Dir
  /\ dirname path <> path /\ dirname path <> ""
  /\ forall a, a ∈ ancestors path -> f !! a = None \/ f !! a = Some Dir.

(** No entry of the filesystem is removed or replaced, except the file at
    [p]. *)
Definition only_writes (p : string) (w w' : world) : Prop :=
  forall q x, q <> p -> fs w !! q = Some x -> fs w' !! q = Some x.

(** A server that answers 503 to the first request for a URL and 200 with
    a body of ten bytes from the second on. *)
Definition flaky_env : environment :=
  Environment
    (fun _ attempt =>
       if attempt =? 1 then AttemptEnv (Some 503) 0 false false None
       else AttemptEnv (Some 200) 10 false false None)
    (fun _ => false) (Some "tok") (fun l => l).

(** Every request of [t] carries the bearer token [tok]. *)
Definition all_bearer (tok : string) (t : list event) : Prop :=
  Forall (fun e => match e with EvFetch _ b => b = tok | _ => True end) t.



(* ===================================================================== *)
(** ** Station list file, session periods and the main program           *)
(* ===================================================================== *)

(** What a path holds for [load_station_list]: nothing that
    [os.path.isfile] accepts; a file that [open] refuses ([OSError]) or
    whose bytes do not decode ([UnicodeDecodeError], a [ValueError]), so
    that reading it raises; or a text file, given by the lines that
    iterating over it yields. *)
Inductive file_content : Type :=
| NotAFile
| Unreadable (e : exn)
| TextLines (lines : list string).

(** What the program reads from its host besides the network: the content
    of a file, and two library parsers kept abstract, [int(s)] and
    [datetime.fromisoformat(s).date()], which answer [None] where Python
    raises. The metadata query (an HTTP request decoded into a pandas
    table) is not modelled: the main program is followed from the table the
    query returned, a list of rows whose identifiers are strings. *)
Record host : Type := Host {
  file_lines : string -> file_content;
  py_int : string -> option Z;
  fromisoformat_date : string -> option date
}.

(** The characters for which [str.isspace] holds, among the code points
    below 256: tab to carriage return, the four separators 28 to 31, the
    space, NEL (133) and the no-break space (160). *)
Definition is_space (c : ascii) : bool :=
  let n := N_of_ascii c in
  (((9 <=? n) && (n <=? 13)) || ((28 <=? n) && (n <=? 32))
   || (n =? 133) || (n =? 160))%N.

(** [s.lstrip(chars)] and [s.rstrip(chars)], the characters given as a
    predicate. *)
Fixpoint lstrip_chars (p : ascii -> bool) (s : string) : string :=
  match s with
  | EmptyString => EmptyString
  | String c r => if p c then lstrip_chars p r else s
  end.

Fixpoint rstrip_chars (p : ascii -> bool) (s : string) : string :=
  match s with
  | EmptyString => EmptyString
  | String c r =>
      let r' := rstrip_chars p r in
      if p c && String.eqb r' "" then EmptyString else String c r'
  end.

(** [s.strip()]. *)
Definition strip (s : string) : string :=
  rstrip_chars is_space (lstrip_chars is_space s).

(** Why the program ends with [sys.exit(1)]: the error line it logs. *)
Inductive fatal : Type :=
| InvalidDateFormat
| EndBeforeStart
| NoStationsInBoundingBox
| StationsFileNotFound (file_path : string)
| NoStationIdsInFile
| NoValidStations.

(** A step of the main program: it goes on with a value, exits through
    [sys.exit], or is left by an exception that nothing catches. *)
Inductive exit_or (A : Type) : Type :=
| Proceed (a : A)
| SysExit (code : Z) (why : fatal)
| Uncaught (e : exn).
Arguments Proceed {A} a.
Arguments SysExit {A} code why.
Arguments Uncaught {A} e.

Definition load_station_list (h : host) (file_path : string)
  : exit_or (list string) :=
  match file_lines h file_path with
  | NotAFile => SysExit 1 (StationsFileNotFound file_path)
  | Unreadable e => Uncaught e
  | TextLines lines =>
      let stations :=
        map strip
            (List.filter (fun line => negb (String.eqb (strip line) "")) lines) in
      match stations with
      | [] => SysExit 1 NoStationIdsInFile
      | _ => Proceed stations
      end
  end.

(** A cell of the metadata table: a [str], or anything else (a missing
    column, [None], NaN, a number). *)
Inductive cell : Type :=
| CellStr (s : string)
| CellOther.

Record meta_row : Type := MetaRow {
  row_id : string;
  session_start_time : cell;
  session_stop_time : cell
}.

(** One bound of a session period: parsed when the cell is a string that
    [fromisoformat] accepts once its trailing ["Z"]s are removed, [None]
    otherwise (the bare [except]). *)
Definition parse_bound (h : host) (c : cell) : option date :=
  match c with
  | CellStr s => fromisoformat_date h (rstrip_chars (Ascii.eqb "Z") s)
  | CellOther => None
  end.

(** A Python [dict] with string keys, as the list of its items in
    insertion order; [dict_set] is [d[k] = v]. *)
Fixpoint dict_set {V : Type} (d : list (string * V)) (k : string) (v : V)
  : list (string * V) :=
  match d with
  | [] => [(k, v)]
  | (k', v') :: r =>
      if String.eqb k' k then (k', v) :: r else (k', v') :: dict_set r k v
  end.

(** [d.get(k)]. *)
Fixpoint dict_get {V : Type} (d : list (string * V)) (k : string) : option V :=
  match d with
  | [] => None
  | (k', v') :: r => if String.eqb k' k then Some v' else dict_get r k
  end.

(** [k in d] and [list(d.keys())]. *)
Definition dict_mem {V : Type} (d : list (string * V)) (k : string) : bool :=
  existsb (String.eqb k) (map fst d).

Definition dict_keys {V : Type} (d : list (string * V)) : list string := map fst d.

Definition parse_session_periods (h : host) (df_metadata : list meta_row)
  : list (string * (option date * option date)) :=
  fold_left
    (fun station_periods row =>
       dict_set station_periods (row_id row)
                (parse_bound h (session_start_time row),
                 parse_bound h (session_stop_time row)))
    df_metadata [].

(** The dictionary as the map the orchestrator looks stations up in. *)
Definition periods_map (d : list (string * (option date * option date)))
  : gmap string (option date * option date) :=
  list_to_map d.

(** [s.split("-")]. *)
Fixpoint split_dash (s : string) : list string :=
  match s with
  | EmptyString => [EmptyString]
  | String c r =>
      if Ascii.eqb c "-" then EmptyString :: split_dash r
      else match split_dash r with
           | p :: ps => String c p :: ps
           | [] => [String c EmptyString]
           end
  end.

(** [y, m, d = map(int, s.split("-")); date(y, m, d)], [None] when any step
    raises. *)
Definition parse_ymd (h : host) (s : string) : option date :=
  match split_dash s with
  | [a; b; c] =>
      match py_int h a, py_int h b, py_int h c with
      | Some y, Some m, Some d => mkdate y m d
      | _, _, _ => None
      end
  | _ => None
  end.

(** The command-line arguments the main program uses after the metadata
    query. *)
Record cli_args : Type := CliArgs {
  arg_start_date : string;
  arg_end_date : string;
  arg_stations_file : option string;
  arg_out_root : string;
  arg_workers : Z;
  arg_dry_run : bool
}.

(** What the main program hands to [download_rinex_batch], with the
    stations it warns about. *)
Record batch_call : Type := BatchCall {
  call_stations : list string;
  call_start : date;
  call_end : date;
  call_periods : list (string * (option date * option date));
  call_missing : list string
}.

(** The main program from the parsing of the dates to the call of the
    batch; [df_meta] is the table the metadata query returned. *)
Definition main_plan (h : host) (args : cli_args) (df_meta : list meta_row)
  : exit_or batch_call :=
  match parse_ymd h (arg_start_date args), parse_ymd h (arg_end_date args) with
  | Some start_dt, Some end_dt =>
      if end_dt <? start_dt then SysExit 1 EndBeforeStart
      else
        match df_meta with
        | [] => SysExit 1 NoStationsInBoundingBox
        | _ =>
            let station_periods := parse_session_periods h df_meta in
            match arg_stations_file args with
            | Some file_path =>
                if String.eqb file_path "" then
                  Proceed (BatchCall (dict_keys station_periods) start_dt end_dt
                                     station_periods [])
                else
                  match load_station_list h file_path with
                  | SysExit code why => SysExit code why
                  | Uncaught e => Uncaught e
                  | Proceed stations_requested =>
                      let stations :=
                        List.filter (dict_mem station_periods) stations_requested in
                      let missing :=
                        List.filter (fun st => negb (dict_mem station_periods st))
                                    stations_requested in
                      match stations with
                      | [] => SysExit 1 NoValidStations
                      | _ => Proceed (BatchCall stations start_dt end_dt
                                                station_periods missing)
                      end
                  end
            | None =>
                Proceed (BatchCall (dict_keys station_periods) start_dt end_dt
                                   station_periods [])
            end
        end
  | _, _ => SysExit 1 InvalidDateFormat
  end.

Definition main (h : host) (env : environment) (args : cli_args)
    (df_meta : list meta_row) (w : world)
  : exit_or (result (list result_row) * world) :=
  match main_plan h args df_meta with
  | SysExit code why => SysExit code why
  | Uncaught e => Uncaught e
  | Proceed call =>
      Proceed (download_rinex_batch env (call_stations call) (call_start call)
                 (call_end call) (arg_out_root args)
                 (periods_map (call_periods call))
                 (arg_workers args) (arg_dry_run args) w)
  end.

(** A host with one station file and toy parsers, for examples. *)
Definition demo_host : host :=
  Host (fun path =>
          if String.eqb path "stations.txt"
          then TextLines [" p123 "; ""; "zz99"; "P456"] else NotAFile)
       (fun s =>
          if String.eqb s "2021" then Some 2021
          else if String.eqb s "06" then Some 6
          else if String.eqb s "01" then Some 1
          else if String.eqb s "02" then Some 2
          else None)
       (fun s => if String.eqb s "2020-01-01T00:00:00" then mkdate 2020 1 1 else None).

(** Shapes of the ends of a string, for the strip functions. *)
Definition starts_with (p : ascii -> bool) (s : string) : bool :=
  match s with
  | EmptyString => false
  | String c _ => p c
  end.

Fixpoint ends_with (p : ascii -> bool) (s : string) : bool :=
  match s with
  | EmptyString => false
  | String c EmptyString => p c
  | String _ r => ends_with p r
  end.

Fixpoint all_chars (p : ascii -> bool) (s : string) : bool :=
  match s with
  | EmptyString => true
  | String c r => p c && all_chars p r
  end.

(** A line that [load_station_list] keeps: not made of whitespace only. *)
Definition nonblank (line : string) : bool := negb (all_chars is_space line).

(** The bounds [parse_session_periods] stores for one row. *)
Definition row_period (h : host) (row : meta_row) : option date * option date :=
  (parse_bound h (session_start_time row), parse_bound h (session_stop_time row)).

(** ["-".join(parts)], and the strings without a ["-"]. *)
Fixpoint join_dash (parts : list string) : string :=
  match parts with
  | [] => EmptyString
  | [a] => a
  | a :: rest => a +:+ "-" +:+ join_dash rest
  end.

Definition no_dash (s : string) : bool :=
  all_chars (fun c => negb (Ascii.eqb c "-")) s.

(** Whether the main program takes its stations from a file: the truth
    value of [args.stations_file]. *)
Definition stations_file_given (args : cli_args) : option string :=
  match arg_stations_file args with
  | Some file_path => if String.eqb file_path "" then None else Some file_path
  | None => None
  end.

(** A run of the main program, for examples: two days, a stations file of
    three identifiers, a metadata table of two stations. *)
Definition demo_args : cli_args :=
  CliArgs "2021-06-01" "2021-06-02" (Some "stations.txt") "out" MAX_WORKERS_DEFAULT true.

Definition demo_meta : list meta_row :=
  [MetaRow "p123" (CellStr "2020-01-01T00:00:00Z") CellOther;
   MetaRow "P456" CellOther CellOther].

(** [row] is the last row of station [st] in the table. *)
Definition last_row_of (df_metadata : list meta_row) (st : string) (row : meta_row)
  : Prop :=
  exists pre post,
    df_metadata = (pre ++ row :: post)%list
    /\ row_id row = st /\ st ∉ map row_id post.

(** The stations file, when one is given, lists [st]. *)
Definition requested (h : host) (args : cli_args) (st : string) : Prop :=
  match stations_file_given args with
  | None => True
  | Some file_path =>
      exists stations_requested,
        load_station_list h file_path = Proceed stations_requested
        /\ st ∈ stations_requested
  end.

(** A server that answers 503 to the first request for a URL and 404 from
    the second on. *)
Definition busy_then_missing_env : environment :=
  Environment
    (fun _ attempt =>
       if attempt =? 1 then AttemptEnv (Some 503) 0 false false None
       else AttemptEnv (Some 404) 0 false false None)
    (fun _ => false) (Some "tok") (fun l => l).

(** [s.isascii()]: every code point of [s] is below 128. On such strings
    [str.lower] and [str.upper] are the case mappings of the letters A-Z and
    a-z that [lower] and [upper] implement; on other strings Python's
    functions follow the Unicode tables, so the properties that depend on
    the case of a station code are stated for ASCII codes. *)
Definition isascii (s : string) : bool :=
  all_chars (fun c => (N_of_ascii c <? 128)%N) s.

(** The two naming variants in the specification's words, written without
    the case functions of the embedding: every letter of one alphabet is
    replaced by the letter at the same place in the other, as
    [s.translate(str.maketrans(src, dst))] does. *)
Definition ascii_lowercase : string := "abcdefghijklmnopqrstuvwxyz".
Definition ascii_uppercase : string := "ABCDEFGHIJKLMNOPQRSTUVWXYZ".

Fixpoint translate_char (src dst : string) (c : ascii) : ascii :=
  match src, dst with
  | String a src', String b dst' =>
      if Ascii.eqb c a then b else translate_char src' dst' c
  | _, _ => c
  end.

Definition lowercase_variant (s : string) : string :=
  map_chars (translate_char ascii_uppercase ascii_lowercase) s.

Definition uppercase_variant (s : string) : string :=
  map_chars (translate_char ascii_lowercase ascii_uppercase) s.

(** The no-break space, and a host for examples of the station file: a
    file with a line made of a no-break space only and a station padded
    with one, a file that cannot be decoded, and nothing elsewhere. *)
Definition nbsp : string := String (ascii_of_nat 160) EmptyString.

Definition stations_host : host :=
  Host (fun path =>
          if String.eqb path "stations.txt"
          then TextLines [nbsp; nbsp +:+ "p123" +:+ nbsp; "  "]
          else if String.eqb path "binary.dat" then Unreadable ValueError
          else NotAFile)
       (fun _ => None) (fun _ => None).

(* ===================================================================== *)
(** ** Facts about dates                                                 *)
(* ===================================================================== *)

Lemma year_decompose (d : date) :
  valid_date d ->
  1 <= PyDate.year d <= 9999
  /\ 1 <= d - _days_before_year (PyDate.year d) <= 366.
Proof.
  unfold valid_date, _MAXORDINAL, PyDate.year, _days_before_year,
    _DI400Y, _DI100Y, _DI4Y.
  intros Hd.
  set (n0 := d - 1).
  set (n400 := n0 / 146097). set (r1 := n0 mod 146097).
  set (n100 := r1 / 36524). set (r2 := r1 mod 36524).
  set (n4 := r2 / 1461). set (r3 := r2 mod 1461).
  set (n1 := r3 / 365).
  assert (H1 : n0 = 146097 * n400 + r1 /\ 0 <= r1 < 146097)
    by (split; [apply Z.div_mod; lia | apply Z.mod_pos_bound; lia]).
  assert (H2 : r1 = 36524 * n100 + r2 /\ 0 <= r2 < 36524)
    by (split; [apply Z.div_mod; lia | apply Z.mod_pos_bound; lia]).
  assert (H3 : r2 = 1461 * n4 + r3 /\ 0 <= r3 < 1461)
    by (split; [apply Z.div_mod; lia | apply Z.mod_pos_bound; lia]).
  assert (H4 : r3 = 365 * n1 + r3 mod 365 /\ 0 <= r3 mod 365 < 365)
    by (split; [apply Z.div_mod; lia | apply Z.mod_pos_bound; lia]).
  assert (Hn0 : n0 = d - 1) by reflexivity.
  clearbody n0 n400 r1 n100 r2 n4 r3 n1.
  destruct ((n1 =? 4) || (n100 =? 4)) eqn:E.
  - apply orb_true_iff in E. 
    replace (n400 * 400 + 1 + n100 * 100 + n4 * 4 + n1 - 1 - 1)
      with (400 * n400 + 100 * n100 + 4 * n4 + n1 - 1) by lia.
    generalize (Z.div_mod (400 * n400 + 100 * n100 + 4 * n4 + n1 - 1) 4 ltac:(lia)).
    generalize (Z.mod_pos_bound (400 * n400 + 100 * n100 + 4 * n4 + n1 - 1) 4 ltac:(lia)).
    generalize (Z.div_mod (400 * n400 + 100 * n100 + 4 * n4 + n1 - 1) 100 ltac:(lia)).
    generalize (Z.mod_pos_bound (400 * n400 + 100 * n100 + 4 * n4 + n1 - 1) 100 ltac:(lia)).
    generalize (Z.div_mod (400 * n400 + 100 * n100 + 4 * n4 + n1 - 1) 400 ltac:(lia)).
    generalize (Z.mod_pos_bound (400 * n400 + 100 * n100 + 4 * n4 + n1 - 1) 400 ltac:(lia)).
    destruct E as [E|E]; apply Z.eqb_eq in E; lia.
  - apply orb_false_iff in E. destruct E as [E1 E2].
    apply Z.eqb_neq in E1, E2.
    replace (n400 * 400 + 1 + n100 * 100 + n4 * 4 + n1 - 1)
      with (400 * n400 + 100 * n100 + 4 * n4 + n1) by lia.
    generalize (Z.div_mod (400 * n400 + 100 * n100 + 4 * n4 + n1) 4 ltac:(lia)).
    generalize (Z.mod_pos_bound (400 * n400 + 100 * n100 + 4 * n4 + n1) 4 ltac:(lia)).
    generalize (Z.div_mod (400 * n400 + 100 * n100 + 4 * n4 + n1) 100 ltac:(lia)).
    generalize (Z.mod_pos_bound (400 * n400 + 100 * n100 + 4 * n4 + n1) 100 ltac:(lia)).
    generalize (Z.div_mod (400 * n400 + 100 * n100 + 4 * n4 + n1) 400 ltac:(lia)).
    generalize (Z.mod_pos_bound (400 * n400 + 100 * n100 + 4 * n4 + n1) 400 ltac:(lia)).
    lia.
Qed.

Lemma year_range (d : date) : valid_date d -> 1 <= PyDate.year d <= 9999.
Proof. intros H. apply (year_decompose d H). Qed.

Lemma tm_yday_range (d : date) : valid_date d -> 1 <= tm_yday d <= 366.
Proof. intros H. apply (year_decompose d H). Qed.

(* ===================================================================== *)
(** ** Facts about strings, formatting and paths                         *)
(* ===================================================================== *)

Lemma in_py_range (a b n : Z) : a <= n < b -> In n (py_range a b).
Proof.
  intros H. unfold py_range. apply in_map_iff.
  exists (Z.to_nat (n - a)). split; [lia | apply in_seq; lia].
Qed.

(** Checking a decidable property on every integer of a range. *)
Lemma range_check (P : Z -> bool) (a b : Z) :
  forallb P (py_range a b) = true -> forall n, a <= n < b -> P n = true.
Proof.
  intros H n Hn. rewrite forallb_forall in H. apply H, in_py_range, Hn.
Qed.

Lemma fmt_0d3_shape (n : Z) :
  0 <= n < 1000 ->
  String.length (fmt_0d 3 n) = 3%nat /\ plain_component (fmt_0d 3 n) = true.
Proof.
  intros Hn.
  pose proof (range_check
    (fun n => Nat.eqb (String.length (fmt_0d 3 n)) 3 && plain_component (fmt_0d 3 n))
    0 1000 ltac:(vm_compute; reflexivity) n Hn) as H.
  apply andb_true_iff in H as [H1 H2]. apply Nat.eqb_eq in H1. auto.
Qed.

Lemma str_of_year_shape (y : Z) :
  1 <= y < 10000 -> plain_component (str_of_int y) = true.
Proof.
  intros Hy.
  exact (range_check (fun y => plain_component (str_of_int y))
           1 10000 ltac:(vm_compute; reflexivity) y Hy).
Qed.

Lemma append_cons (c : ascii) (a b : string) :
  String c a +:+ b = String c (a +:+ b).
Proof. reflexivity. Qed.

Lemma append_assoc (a b c : string) : (a +:+ b) +:+ c = a +:+ (b +:+ c).
Proof.
  induction a as [|x a IH]; [reflexivity |].
  rewrite !append_cons. f_equal. exact IH.
Qed.

Lemma append_inj_r (a x y : string) : a +:+ x = a +:+ y -> x = y.
Proof.
  induction a as [|c a IH]; intros H; [exact H |].
  rewrite !append_cons in H. injection H as H. auto.
Qed.

Lemma append_empty (a b : string) : a +:+ b = "" -> a = "" /\ b = "".
Proof. destruct a; [auto | rewrite append_cons; discriminate]. Qed.

Lemma startswith_sep_append (a b : string) :
  startswith_sep (a +:+ b) =
  if String.eqb a "" then startswith_sep b else startswith_sep a.
Proof. destruct a; reflexivity. Qed.

Lemma endswith_sep_append (a b : string) :
  b <> "" -> endswith_sep (a +:+ b) = endswith_sep b.
Proof.
  intros Hb. induction a as [|c a IH]; [reflexivity |].
  rewrite append_cons. simpl.
  destruct (a +:+ b) eqn:E; [| exact IH].
  apply append_empty in E. tauto.
Qed.

Lemma lower_char_not_sep (c : ascii) : is_sep (lower_char c) = is_sep c.
Proof.
  destruct c as [[] [] [] [] [] [] [] []]; vm_compute; reflexivity.
Qed.

Lemma upper_char_not_sep (c : ascii) : is_sep (upper_char c) = is_sep c.
Proof.
  destruct c as [[] [] [] [] [] [] [] []]; vm_compute; reflexivity.
Qed.

Lemma startswith_sep_lower (s : string) : startswith_sep (lower s) = startswith_sep s.
Proof. destruct s; simpl; [reflexivity | apply lower_char_not_sep]. Qed.

Lemma startswith_sep_upper (s : string) : startswith_sep (upper s) = startswith_sep s.
Proof. destruct s; simpl; [reflexivity | apply upper_char_not_sep]. Qed.

Lemma plain_component_spec (s : string) :
  plain_component s = true ->
  s <> "" /\ startswith_sep s = false /\ endswith_sep s = false.
Proof.
  unfold plain_component. rewrite !andb_true_iff, !negb_true_iff.
  intros [[[H1 H2] H3] _]. apply String.eqb_neq in H1. auto.
Qed.

Lemma join2_plain (a b : string) :
  startswith_sep b = false -> a <> "" -> endswith_sep a = false ->
  join2 a b = a +:+ "/" +:+ b.
Proof.
  intros Hb Ha He. unfold join2. rewrite Hb, He.
  apply String.eqb_neq in Ha. rewrite Ha. reflexivity.
Qed.

Lemma base_dir_shape (root yr doy : string) :
  plain_component yr = true -> plain_component doy = true ->
  let base_dir := path_join root [yr; doy] in
  base_dir = root_prefix root +:+ yr +:+ "/" +:+ doy
  /\ base_dir <> "" /\ endswith_sep base_dir = false.
Proof.
  intros Hy Hd.
  apply plain_component_spec in Hy as (Hy0 & Hy1 & Hy2).
  apply plain_component_spec in Hd as (Hd0 & Hd1 & Hd2).
  assert (E1 : join2 root yr = root_prefix root +:+ yr).
  { unfold join2, root_prefix. rewrite Hy1.
    destruct (String.eqb root "" || endswith_sep root); [reflexivity |].
    now rewrite append_assoc. }
  assert (E2 : path_join root [yr; doy] = root_prefix root +:+ yr +:+ "/" +:+ doy).
  { unfold path_join. simpl. rewrite E1. rewrite join2_plain; trivial.
    - now rewrite append_assoc.
    - intros E. apply append_empty in E. tauto.
    - now rewrite endswith_sep_append. }
  cbv zeta. rewrite E2. split; [reflexivity |]. split.
  - intros E. apply append_empty in E as [_ E]. apply append_empty in E. tauto.
  - rewrite endswith_sep_append.
    + rewrite endswith_sep_append; [| discriminate].
      now rewrite (endswith_sep_append "/" doy).
    + intros E. apply append_empty in E as [_ E]. discriminate.
Qed.

Lemma dedup_two (a b : string) :
  (fold_left dedup_step [a; b] (∅, [])).2 = if decide (a = b) then [a] else [a; b].
Proof.
  simpl. unfold dedup_step at 2. simpl.
  destruct (decide (a ∈ (∅ : gset string))) as [Hin | _];
    [now apply not_elem_of_empty in Hin |].
  unfold dedup_step. simpl.
  destruct (decide (b ∈ ({[a]} ∪ ∅ : gset string))) as [Hin | Hout];
    destruct (decide (a = b)) as [-> | Hne]; simpl; try reflexivity.
  - apply elem_of_union in Hin as [Hin | Hin].
    + apply elem_of_singleton in Hin. congruence.
    + now apply not_elem_of_empty in Hin.
  - exfalso. apply Hout, elem_of_union. left. now apply elem_of_singleton.
Qed.

Lemma lower_char_translate (c : ascii) :
  lower_char c = translate_char ascii_uppercase ascii_lowercase c.
Proof. destruct c as [[] [] [] [] [] [] [] []]; vm_compute; reflexivity. Qed.

Lemma upper_char_translate (c : ascii) :
  upper_char c = translate_char ascii_lowercase ascii_uppercase c.
Proof. destruct c as [[] [] [] [] [] [] [] []]; vm_compute; reflexivity. Qed.

Lemma lower_variant (s : string) : lower s = lowercase_variant s.
Proof.
  induction s as [| c s IH]; [reflexivity |].
  change (lower (String c s)) with (String (lower_char c) (lower s)).
  rewrite IH, lower_char_translate. reflexivity.
Qed.

Lemma upper_variant (s : string) : upper s = uppercase_variant s.
Proof.
  induction s as [| c s IH]; [reflexivity |].
  change (upper (String c s)) with (String (upper_char c) (upper s)).
  rewrite IH, upper_char_translate. reflexivity.
Qed.

(** C5. For a valid date and an ASCII station identifier that is not an
    absolute path, the candidate generator (a function of station, date and
    output root, hence deterministic) returns the lowercase-name candidate
    followed by the uppercase-name candidate, collapsed to one when the two
    file names coincide. The two names are given letter by letter: in the
    first every letter A-Z of the identifier is replaced by the same letter
    a-z, in the second every letter a-z by the same letter A-Z, and nothing
    else changes. The list is non-empty and free of duplicates (as pairs,
    as URLs and as local paths); every URL is the archive prefix followed by
    year, three-character zero-padded day of year and file name, and every
    local path is the output root followed by the same three components. *)
Theorem generate_rinex_url_and_path_spec
    (station : string) (d : date) (rinex_root : string) :
  valid_date d ->
  isascii station = true ->
  startswith_sep station = false ->
  let yr := str_of_int (PyDate.year d) in
  let doy := fmt_0d 3 (tm_yday d) in
  let name := fun code : string =>
    code +:+ doy +:+ "00." +:+ fmt_0d 2 (PyDate.year d mod 100) +:+ "d.Z" in
  let cand := fun code : string =>
    (ARCHIVE_URL +:+ yr +:+ "/" +:+ doy +:+ "/" +:+ name code,
     root_prefix rinex_root +:+ yr +:+ "/" +:+ doy +:+ "/" +:+ name code) in
  let lo := lowercase_variant station in
  let up := uppercase_variant station in
  let candidates := generate_rinex_url_and_path station d rinex_root in
  candidates =
    (if decide (name lo = name up) then [cand lo] else [cand lo; cand up])
  /\ candidates <> []
  /\ cand lo ∈ candidates
  /\ cand up ∈ candidates
  /\ NoDup candidates
  /\ NoDup (map fst candidates)
  /\ NoDup (map snd candidates)
  /\ String.length doy = 3%nat
  /\ 1 <= tm_yday d <= 366.
Proof.
  intros Hd _ Hst yr doy name cand lo up candidates.
  subst lo up. rewrite <- (lower_variant station), <- (upper_variant station).
  pose proof (year_range d Hd) as Hy.
  pose proof (tm_yday_range d Hd) as Hdoy.
  destruct (fmt_0d3_shape (tm_yday d) ltac:(lia)) as [Hlen Hplain].
  fold doy in Hlen, Hplain.
  pose proof (str_of_year_shape (PyDate.year d) ltac:(lia)) as Hyplain.
  fold yr in Hyplain.
  destruct (base_dir_shape rinex_root yr doy Hyplain Hplain) as (Hbase & Hne & Hend).
  cbv zeta in Hbase, Hne, Hend.
  apply plain_component_spec in Hplain as (Hdoy0 & Hdoy1 & _).
  assert (Hname : forall code, startswith_sep code = false ->
                    startswith_sep (name code) = false).
  { intros code Hc. unfold name. rewrite startswith_sep_append.
    destruct (String.eqb code ""); [| exact Hc].
    rewrite startswith_sep_append.
    apply String.eqb_neq in Hdoy0. now rewrite Hdoy0. }
  assert (Hpath : forall code, startswith_sep code = false ->
            path_join (path_join rinex_root [yr; doy]) [name code] = (cand code).2).
  { intros code Hc.
    change (path_join (path_join rinex_root [yr; doy]) [name code])
      with (join2 (path_join rinex_root [yr; doy]) (name code)).
    rewrite join2_plain; auto. rewrite Hbase. simpl.
    now rewrite !append_assoc. }
  assert (Hcands : candidates =
            if decide (name (lower station) = name (upper station))
            then [cand (lower station)]
            else [cand (lower station); cand (upper station)]).
  { unfold candidates, generate_rinex_url_and_path, generate_candidate_filenames.
    cbv zeta. fold yr doy. rewrite dedup_two.
    fold (name (lower station)) (name (upper station)).
    destruct (decide (name (lower station) = name (upper station))); cbn [map];
      rewrite ?Hpath by (rewrite ?startswith_sep_lower, ?startswith_sep_upper; exact Hst);
      reflexivity. }
  assert (Hinj1 : forall a b, (cand a).1 = (cand b).1 -> name a = name b).
  { intros a b E. simpl in E. do 5 apply append_inj_r in E. exact E. }
  assert (Hinj2 : forall a b, (cand a).2 = (cand b).2 -> name a = name b).
  { intros a b E. simpl in E. do 5 apply append_inj_r in E. exact E. }
  assert (Hpair : forall (A : Type) (x y : A), x <> y -> NoDup [x; y]).
  { intros A x y Hxy. apply NoDup_cons. split; [| apply NoDup_singleton].
    now rewrite list_elem_of_singleton. }
  split; [exact Hcands |].
  rewrite Hcands.
  destruct (decide (name (lower station) = name (upper station))) as [E | NE].
  - assert (Ec : cand (upper station) = cand (lower station))
      by (unfold cand; rewrite E; reflexivity).
    rewrite Ec. cbn [map].
    repeat split; try lia; try exact Hlen; try discriminate;
      try apply NoDup_singleton; apply list_elem_of_singleton; reflexivity.
  - cbn [map].
    repeat split; try lia; try exact Hlen; try discriminate.
    + apply elem_of_cons. now left.
    + apply elem_of_cons. right. now apply list_elem_of_singleton.
    + apply Hpair. intros E. apply NE, Hinj1. now rewrite E.
    + apply Hpair. intros E. apply NE, Hinj1, E.
    + apply Hpair. intros E. apply NE, Hinj2, E.
Qed.

Lemma generate_rinex_url_and_path_spec_witness :
  generate_rinex_url_and_path "p123" (ymd 2021 6 1) "/data"
  = [(ARCHIVE_URL +:+ "2021/152/p12315200.21d.Z", "/data/2021/152/p12315200.21d.Z");
     (ARCHIVE_URL +:+ "2021/152/P12315200.21d.Z", "/data/2021/152/P12315200.21d.Z")]
  /\ NoDup (generate_rinex_url_and_path "p123" (ymd 2021 6 1) "/data").
Proof.
  destruct (generate_rinex_url_and_path_spec "p123" (ymd 2021 6 1) "/data")
    as (E & _ & _ & _ & Hnd & _).
  - vm_compute. split; discriminate.
  - reflexivity.
  - reflexivity.
  - split; [| exact Hnd]. etransitivity; [exact E |]. vm_compute. reflexivity.
Defined.

(* ===================================================================== *)
(** ** Reasoning about runs                                              *)
(* ===================================================================== *)

Lemma events_after_nil (w : world) : events_after w [] = w.
Proof. destruct w. unfold events_after. simpl. now rewrite app_nil_r. Qed.

Lemma events_after_app (w : world) (t1 t2 : list event) :
  events_after (events_after w t1) t2 = events_after w (t1 ++ t2).
Proof. unfold events_after. simpl. now rewrite app_assoc. Qed.

Lemma sleeps_app (t1 t2 : list event) : sleeps (t1 ++ t2) = (sleeps t1 ++ sleeps t2)%list.
Proof. apply flat_map_app. Qed.

Lemma fetched_urls_app (t1 t2 : list event) :
  fetched_urls (t1 ++ t2) = (fetched_urls t1 ++ fetched_urls t2)%list.
Proof. apply flat_map_app. Qed.

Lemma py_range_cons (a b : Z) : a < b -> py_range a b = a :: py_range (a + 1) b.
Proof.
  intros H. unfold py_range.
  replace (Z.to_nat (b - a)) with (S (Z.to_nat (b - (a + 1)))) by lia.
  simpl. f_equal; [lia |].
  rewrite <- seq_shift, map_map. apply map_ext. intros i. lia.
Qed.

Lemma py_range_length (a b : Z) : length (py_range a b) = Z.to_nat (b - a).
Proof. unfold py_range. now rewrite length_map, length_seq. Qed.

(** One turn of the retry loop, by the outcome of its attempt. *)
Lemma download_attempts_cons env url local_path token max_retries attempt rest w :
  download_attempts env url local_path token max_retries (attempt :: rest) w =
  match attempt_once env url local_path token attempt w with
  | (Ok b, w') => (Ok (PyBool b), w')
  | (Raise ex, w') =>
      if attempt <? max_retries then
        download_attempts env url local_path token max_retries rest
          (events_after w' [EvLog WARNING (AttemptFailed attempt url ex);
                            EvLog INFO (RetryingAfter RETRY_BACKOFF_SEC);
                            EvSleep RETRY_BACKOFF_SEC])
      else
        (Ok (PyBool false),
         events_after w' [EvLog WARNING (AttemptFailed attempt url ex);
                          EvLog ERROR (AllAttemptsFailed MAX_RETRIES url)])
  end.
Proof.
  cbn [download_attempts]. unfold try_except at 1. unfold bind at 1.
  destruct (attempt_once env url local_path token attempt w) as [[b | ex] w'].
  - reflexivity.
  - unfold bind at 1. unfold log at 1, emit at 1.
    destruct (attempt <? max_retries).
    + unfold bind, log, emit, events_after. cbn [fs trace].
      rewrite <- !app_assoc. reflexivity.
    + unfold bind, log, emit, ret, events_after. cbn [fs trace].
      rewrite <- !app_assoc. reflexivity.
Qed.


(** *** Relations kept by every step of a computation *)

Section Steps.
Variable R : world -> world -> Prop.
Hypothesis R_refl : forall w, R w w.
Hypothesis R_trans : forall a b c, R a b -> R b c -> R a c.

Lemma steps_ret {A} (a : A) : steps R (ret a).
Proof. intros w. apply R_refl. Qed.

Lemma steps_raise {A} (e : exn) : steps R (@raise A e).
Proof. intros w. apply R_refl. Qed.

Lemma steps_get_fs : steps R get_fs.
Proof. intros w. apply R_refl. Qed.

Lemma steps_bind {A B} (m : M A) (k : A -> M B) :
  steps R m -> (forall a, steps R (k a)) -> steps R (bind m k).
Proof.
  intros Hm Hk w. unfold bind. specialize (Hm w).
  destruct (m w) as [[a | e] w']; simpl in *; [| exact Hm].
  eapply R_trans; [exact Hm | apply Hk].
Qed.

Lemma steps_try_except {A} (m : M A) (h : exn -> M A) :
  steps R m -> (forall e, steps R (h e)) -> steps R (try_except m h).
Proof.
  intros Hm Hh w. unfold try_except. specialize (Hm w).
  destruct (m w) as [[a | e] w']; simpl in *; [exact Hm |].
  eapply R_trans; [exact Hm | apply Hh].
Qed.

End Steps.

Section TraceGrows.
Variable P : list event -> Prop.
Hypothesis P_nil : P [].
Hypothesis P_app : forall t1 t2, P t1 -> P t2 -> P (t1 ++ t2).

Lemma trace_grows_refl w : trace_grows P w w.
Proof. exists []. split; [now rewrite app_nil_r | exact P_nil]. Qed.

Lemma trace_grows_trans a b c :
  trace_grows P a b -> trace_grows P b c -> trace_grows P a c.
Proof.
  intros (t1 & E1 & H1) (t2 & E2 & H2). exists (t1 ++ t2)%list.
  split; [now rewrite E2, E1, app_assoc | now apply P_app].
Qed.

Lemma trace_grows_emit (e : event) : P [e] -> steps (trace_grows P) (emit e).
Proof. intros He w. exists [e]. split; [reflexivity | exact He]. Qed.

Lemma trace_grows_modify_fs g : steps (trace_grows P) (modify_fs g).
Proof. intros w. exists []. split; [simpl; now rewrite app_nil_r | exact P_nil]. Qed.
End TraceGrows.

Lemma keeps_other_files_refl p w : keeps_other_files p w w.
Proof. intros q n _ H. exact H. Qed.

Lemma keeps_other_files_trans p a b c :
  keeps_other_files p a b -> keeps_other_files p b c -> keeps_other_files p a c.
Proof. intros H1 H2 q n Hq H. apply H2, H1; assumption. Qed.

Lemma keeps_other_files_emit p e : steps (keeps_other_files p) (emit e).
Proof. intros w q n _ H. exact H. Qed.

Lemma makedirs_fs_keeps fuel dirpath (f : gmap string node) q x :
  f !! q = Some x -> makedirs_fs fuel dirpath f !! q = Some x.
Proof.
  revert dirpath f. induction fuel as [| k IH]; intros dirpath f H; simpl; [exact H |].
  destruct (String.eqb dirpath ""); [exact H |].
  apply IH. destruct (f !! dirpath) eqn:E; [exact H |].
  rewrite lookup_insert_ne; [exact H | congruence].
Qed.

Lemma quiet_nil : quiet [].
Proof. split; reflexivity. Qed.

Lemma quiet_app t1 t2 : quiet t1 -> quiet t2 -> quiet (t1 ++ t2).
Proof.
  intros [F1 S1] [F2 S2]. split.
  - now rewrite fetched_urls_app, F1, F2.
  - now rewrite sleeps_app, S1, S2.
Qed.

Ltac steps_with Hrefl Htrans base :=
  unfold log;
  repeat first
    [ base
    | apply (steps_ret _ Hrefl)
    | apply (steps_raise _ Hrefl)
    | apply (steps_get_fs _ Hrefl)
    | apply (steps_bind _ Htrans); [| intros ?]
    | apply (steps_try_except _ Htrans); [| intros ?]
    | match goal with
      | |- steps _ (match ?x with _ => _ end) => destruct x
      | |- steps _ (if ?x then _ else _) => destruct x
      end ].

Ltac quiet_base :=
  first [ apply (trace_grows_emit quiet); split; reflexivity
        | apply (trace_grows_modify_fs quiet quiet_nil) ].

Ltac quiet_steps :=
  steps_with (trace_grows_refl quiet quiet_nil)
             (trace_grows_trans quiet quiet_app) quiet_base.

(** Every attempt sends exactly one request, first, and never sleeps. *)
Lemma attempt_once_trace env url local_path token attempt w :
  exists t,
    trace (attempt_once env url local_path token attempt w).2
    = (trace w ++ EvFetch url token :: t)%list
    /\ quiet t.
Proof.
  unfold attempt_once. unfold bind at 1. unfold emit at 1.
  match goal with
  | |- context [?m (World (fs w) (trace w ++ [EvFetch url token]))] =>
      assert (H : steps (trace_grows quiet) m)
  end.
  { unfold ensure_directory, makedirs, open_wb, stream_body. quiet_steps. }
  destruct (H (World (fs w) (trace w ++ [EvFetch url token]))) as (t & E & Q).
  exists t. split; [| exact Q]. rewrite E. simpl. now rewrite <- app_assoc.
Qed.

Ltac keeps_base p :=
  first [ apply (keeps_other_files_emit p)
        | intros ? ? ? ? ?; unfold modify_fs; cbn [snd fs];
          first [ now apply makedirs_fs_keeps
                | rewrite lookup_insert_ne; congruence ] ].

Ltac keeps_steps p :=
  steps_with (keeps_other_files_refl p) (keeps_other_files_trans p) ltac:(keeps_base p).

(** An attempt only ever writes the file it is downloading. *)
Lemma attempt_once_keeps env url local_path token attempt :
  steps (keeps_other_files local_path)
        (attempt_once env url local_path token attempt).
Proof.
  unfold attempt_once, ensure_directory, makedirs, open_wb, stream_body.
  keeps_steps local_path.
Qed.

(** *** Single attempts, by what the environment answers *)

Lemma attempt_once_no_response env url local_path token attempt w :
  http_status (net env url attempt) = None ->
  attempt_once env url local_path token attempt w
  = (Raise TransportError, events_after w [EvFetch url token]).
Proof. intros H. unfold attempt_once. rewrite H. reflexivity. Qed.

Lemma attempt_once_status env url local_path token attempt w status :
  http_status (net env url attempt) = Some status ->
  status <> 200 ->
  attempt_once env url local_path token attempt w
  = if status =? 404 then
      (Ok false, events_after w [EvFetch url token; EvLog DEBUG (FileNotFound404 url)])
    else if (500 <=? status) && (status <? 600) then
      (Raise (HTTPError status),
       events_after w [EvFetch url token; EvLog WARNING (UnexpectedStatus status url)])
    else
      (Ok false,
       events_after w [EvFetch url token; EvLog WARNING (UnexpectedStatus status url)]).
Proof.
  intros H Hne. unfold attempt_once. rewrite H.
  apply Z.eqb_neq in Hne. rewrite Hne.
  destruct (status =? 404); [| destruct ((500 <=? status) && (status <? 600))];
    unfold bind, emit, log, ret, raise, events_after; simpl;
    rewrite <- app_assoc; reflexivity.
Qed.

Lemma attempt_once_transient env url local_path token attempt w :
  transient_failure (net env url attempt) ->
  exists ex t,
    attempt_once env url local_path token attempt w = (Raise ex, events_after w t).
Proof.
  unfold transient_failure. intros H.
  destruct (http_status (net env url attempt)) as [status |] eqn:E.
  - rewrite (attempt_once_status _ _ _ _ _ _ status E) by lia.
    replace (status =? 404) with false by (symmetry; apply Z.eqb_neq; lia).
    replace ((500 <=? status) && (status <? 600)) with true
      by (symmetry; apply andb_true_iff; split; [apply Z.leb_le | apply Z.ltb_lt]; lia).
    eauto.
  - rewrite attempt_once_no_response by exact E. eauto.
Qed.

(** *** The retry loop when every attempt raises *)

Lemma download_attempts_all_raise env url local_path token max_retries
    (Inv : gmap string node -> Prop) :
  (forall w k, Inv (fs w) -> 1 <= k <= max_retries ->
     exists ex w', attempt_once env url local_path token k w = (Raise ex, w')
                   /\ Inv (fs w')) ->
  forall (n : nat) (a : Z) (w : world),
    Z.of_nat n = max_retries + 1 - a -> 1 <= a <= max_retries -> Inv (fs w) ->
    exists w' t,
      download_attempts env url local_path token max_retries
        (py_range a (max_retries + 1)) w = (Ok (PyBool false), w')
      /\ Inv (fs w')
      /\ trace w' = (trace w ++ t)%list
      /\ fetched_urls t = repeat url n
      /\ sleeps t = repeat RETRY_BACKOFF_SEC (n - 1).
Proof.
  intros Hstep n. induction n as [| n IH]; intros a w Hn Ha Hinv; [lia |].
  rewrite py_range_cons by lia. rewrite download_attempts_cons.
  destruct (Hstep w a Hinv Ha) as (ex & w1 & E1 & Hinv1).
  destruct (attempt_once_trace env url local_path token a w) as (t1 & Et1 & Q1 & Q2).
  rewrite E1 in Et1 |- *. simpl in Et1.
  destruct (a <? max_retries) eqn:Elt.
  - apply Z.ltb_lt in Elt.
    destruct (IH (a + 1)
                (events_after w1 [EvLog WARNING (AttemptFailed a url ex);
                                  EvLog INFO (RetryingAfter RETRY_BACKOFF_SEC);
                                  EvSleep RETRY_BACKOFF_SEC]))
      as (w' & t2 & E2 & Hinv2 & Et2 & F2 & S2); [lia | lia | exact Hinv1 |].
    exists w', (EvFetch url token :: t1
                ++ [EvLog WARNING (AttemptFailed a url ex);
                    EvLog INFO (RetryingAfter RETRY_BACKOFF_SEC);
                    EvSleep RETRY_BACKOFF_SEC] ++ t2)%list.
    split; [exact E2 |]. split; [exact Hinv2 |]. split; [| split].
    + rewrite Et2. simpl. rewrite Et1. rewrite <- !app_assoc. reflexivity.
    + change (fetched_urls (EvFetch url token :: ?l)) with (url :: fetched_urls l).
      rewrite !fetched_urls_app, Q1, F2. reflexivity.
    + change (sleeps (EvFetch url token :: ?l)) with (sleeps l).
      rewrite !sleeps_app, Q2, S2. simpl.
      destruct n as [| n']; [lia |]. simpl. now rewrite Nat.sub_0_r.
  - apply Z.ltb_ge in Elt. assert (n = 0%nat) by lia. subst n.
    eexists _, (EvFetch url token :: t1
                ++ [EvLog WARNING (AttemptFailed a url ex);
                    EvLog ERROR (AllAttemptsFailed MAX_RETRIES url)])%list.
    split; [reflexivity |]. split; [exact Hinv1 |]. split; [| split].
    + simpl. rewrite Et1. rewrite <- !app_assoc. reflexivity.
    + change (fetched_urls (EvFetch url token :: ?l)) with (url :: fetched_urls l).
      rewrite fetched_urls_app, Q1. reflexivity.
    + change (sleeps (EvFetch url token :: ?l)) with (sleeps l).
      rewrite sleeps_app, Q2. reflexivity.
Qed.

(** *** Local failures after a 200 response *)

Lemma attempt_once_mkdir_failure env url local_path token attempt w :
  http_status (net env url attempt) = Some 200 ->
  fs w !! dirname local_path = None ->
  mkdir_fails (net env url attempt) = true ->
  attempt_once env url local_path token attempt w
  = (Raise OSError,
     events_after w [EvFetch url token;
                     EvLog ERROR (FailedToCreateDirectory (dirname local_path))]).
Proof.
  intros Hs Hd Hm. unfold attempt_once, ensure_directory, makedirs.
  rewrite Hs, Hm. simpl.
  unfold bind, try_except, emit, log, get_fs, raise, events_after. simpl.
  rewrite Hd. simpl. rewrite <- app_assoc. reflexivity.
Qed.

Lemma attempt_once_write_failure env url local_path token attempt w :
  http_status (net env url attempt) = Some 200 ->
  open_fails (net env url attempt) = true
  \/ is_Some (stream_fails (net env url attempt)) ->
  exists ex w', attempt_once env url local_path token attempt w = (Raise ex, w').
Proof.
  intros Hs Hw. unfold attempt_once. rewrite Hs. simpl.
  unfold bind at 1. unfold emit at 1.
  set (w0 := World (fs w) (trace w ++ [EvFetch url token])).
  unfold bind at 1.
  destruct (ensure_directory (net env url attempt) local_path w0) as [[[] | ex] w1];
    [| eauto].
  unfold bind at 1.
  destruct (open_wb (net env url attempt) local_path w1) as [[[] | ex] w2] eqn:Eo;
    [| eauto].
  destruct Hw as [Hopen | [k Hk]].
  - exfalso. revert Eo. unfold open_wb, bind, get_fs, raise. rewrite Hopen.
    destruct (fs w1 !! local_path) as [[] |];
      destruct (fs w1 !! dirname local_path) as [[] |]; discriminate.
  - unfold bind at 1. unfold stream_body. rewrite Hk.
    unfold bind, modify_fs, emit, raise. simpl. eauto.
Qed.

Lemma world_eta (w w' : world) (t : list event) :
  fs w' = fs w -> trace w' = (trace w ++ t)%list -> w' = events_after w t.
Proof. destruct w'. unfold events_after. simpl. intros -> ->. reflexivity. Qed.

Lemma download_file_all_raise env url local_path token max_retries
    (Inv : gmap string node -> Prop) (w : world) :
  1 <= max_retries ->
  (forall w k, Inv (fs w) -> 1 <= k <= max_retries ->
     exists ex w', attempt_once env url local_path token k w = (Raise ex, w')
                   /\ Inv (fs w')) ->
  Inv (fs w) ->
  exists w' t,
    download_file env url local_path token max_retries w = (Ok (PyBool false), w')
    /\ Inv (fs w')
    /\ trace w' = (trace w ++ t)%list
    /\ fetched_urls t = repeat url (Z.to_nat max_retries)
    /\ sleeps t = repeat RETRY_BACKOFF_SEC (Z.to_nat max_retries - 1).
Proof.
  intros Hm Hstep Hinv. unfold download_file.
  apply (download_attempts_all_raise env url local_path token max_retries Inv Hstep
           (Z.to_nat max_retries) 1 w); [lia | lia | exact Hinv].
Qed.

(** C2 (as stated) fails: with the default of three attempts and every
    attempt failing in transport, the executor sleeps twice, not three
    times. *)
Lemma download_file_delays_counterexample :
  ~ (forall env url local_path token max_retries w,
       1 <= max_retries ->
       (forall k, 1 <= k <= max_retries -> transient_failure (net env url k)) ->
       exists w' t,
         download_file env url local_path token max_retries w
         = (Ok (PyBool false), w')
         /\ trace w' = (trace w ++ t)%list
         /\ length (fetched_urls t) = Z.to_nat max_retries
         /\ length (sleeps t) = Z.to_nat max_retries).
Proof.
  intros H.
  destruct (H unreachable_env "u" "out/f" "tok" MAX_RETRIES empty_world)
    as (w' & t & E & Et & _ & Hs).
  - unfold MAX_RETRIES. lia.
  - intros k _. exact I.
  - vm_compute in E. injection E as <-. simpl in Et. subst t.
    vm_compute in Hs. discriminate.
Qed.

(** The attempts before attempt [k], all failing transiently with [k] not
    beyond [max_retries]: each one sends one request and is followed by one
    delay, the filesystem is not touched, and the loop arrives at attempt
    [k]. *)
Lemma download_attempts_reach env url local_path token max_retries k :
  1 <= k <= max_retries ->
  (forall j, 1 <= j < k -> transient_failure (net env url j)) ->
  forall (n : nat) (a : Z) (w : world),
    Z.of_nat n = k - a -> 1 <= a ->
    exists t,
      fetched_urls t = repeat url n
      /\ sleeps t = repeat RETRY_BACKOFF_SEC n
      /\ download_attempts env url local_path token max_retries
           (py_range a (max_retries + 1)) w
         = download_attempts env url local_path token max_retries
             (py_range k (max_retries + 1)) (events_after w t).
Proof.
  intros Hk Htr n. induction n as [| n IH]; intros a w Hn Ha.
  - assert (a = k) by lia. subst a. exists []. rewrite events_after_nil. auto.
  - rewrite py_range_cons by lia. rewrite download_attempts_cons.
    destruct (attempt_once_transient env url local_path token a w (Htr a ltac:(lia)))
      as (ex & t0 & E).
    destruct (attempt_once_trace env url local_path token a w) as (t1 & Et & Q1 & Q2).
    rewrite E in Et |- *. cbn [snd events_after trace] in Et.
    apply app_inv_head in Et. subst t0.
    replace (a <? max_retries) with true by (symmetry; apply Z.ltb_lt; lia).
    rewrite events_after_app.
    destruct (IH (a + 1)
                (events_after w
                   ((EvFetch url token :: t1)
                    ++ [EvLog WARNING (AttemptFailed a url ex);
                        EvLog INFO (RetryingAfter RETRY_BACKOFF_SEC);
                        EvSleep RETRY_BACKOFF_SEC])))
      as (t2 & F2 & S2 & E2); [lia | lia |].
    exists (((EvFetch url token :: t1)
             ++ [EvLog WARNING (AttemptFailed a url ex);
                 EvLog INFO (RetryingAfter RETRY_BACKOFF_SEC);
                 EvSleep RETRY_BACKOFF_SEC]) ++ t2)%list.
    split; [| split].
    + rewrite !fetched_urls_app, F2.
      change (fetched_urls (EvFetch url token :: t1)) with (url :: fetched_urls t1).
      rewrite Q1. reflexivity.
    + rewrite !sleeps_app, S2.
      change (sleeps (EvFetch url token :: t1)) with (sleeps t1).
      rewrite Q2. reflexivity.
    + rewrite E2, events_after_app. reflexivity.
Qed.

(** C2 (amended). When every attempt for a candidate fails transiently (the
    request raises or the status is 5xx) and [max_retries >= 1],
    [download_file] sends exactly [max_retries] requests, sleeps exactly
    [max_retries - 1] times, each time for [RETRY_BACKOFF_SEC] seconds (there
    is no delay after the last attempt), leaves the filesystem as it was and
    returns [False]. A non-transient outcome is never retried: when the
    attempts before attempt [k <= max_retries] fail transiently, the loop
    reaches attempt [k] after [k - 1] requests and [k - 1] delays with the
    filesystem untouched, and if that attempt returns an outcome (success,
    404, another status that is not 5xx) rather than raising,
    [download_file] returns that outcome at once: [k] requests and [k - 1]
    delays in all. In any state of the loop, an attempt that returns is
    followed by no other attempt and no delay. *)
Theorem download_file_retry_bound env url local_path token max_retries w :
  (1 <= max_retries ->
   (forall k, 1 <= k <= max_retries -> transient_failure (net env url k)) ->
   exists t,
     download_file env url local_path token max_retries w
     = (Ok (PyBool false), events_after w t)
     /\ fetched_urls t = repeat url (Z.to_nat max_retries)
     /\ sleeps t = repeat RETRY_BACKOFF_SEC (Z.to_nat max_retries - 1))
  /\ (forall k,
        1 <= k <= max_retries ->
        (forall j, 1 <= j < k -> transient_failure (net env url j)) ->
        exists t,
          fetched_urls t = repeat url (Z.to_nat k - 1)
          /\ sleeps t = repeat RETRY_BACKOFF_SEC (Z.to_nat k - 1)
          /\ forall b w1,
               attempt_once env url local_path token k (events_after w t) = (Ok b, w1) ->
               exists t',
                 download_file env url local_path token max_retries w
                 = (Ok (PyBool b), w1)
                 /\ trace w1 = (trace w ++ t')%list
                 /\ fetched_urls t' = repeat url (Z.to_nat k)
                 /\ sleeps t' = repeat RETRY_BACKOFF_SEC (Z.to_nat k - 1))
  /\ (forall k rest w0 b w1,
        attempt_once env url local_path token k w0 = (Ok b, w1) ->
        download_attempts env url local_path token max_retries (k :: rest) w0
        = (Ok (PyBool b), w1)).
Proof.
  split; [| split].
  - intros Hm Htr.
    destruct (download_file_all_raise env url local_path token max_retries
                (fun f => f = fs w) w Hm) as (w' & t & E & Hfs & Et & F & S).
    + intros w0 k Hw0 Hk.
      destruct (attempt_once_transient env url local_path token k w0 (Htr k Hk))
        as (ex & t0 & E0).
      exists ex, (events_after w0 t0). split; [exact E0 | exact Hw0].
    + reflexivity.
    + exists t. rewrite E. rewrite (world_eta w w' t Hfs Et). auto.
  - intros k Hk Htr.
    destruct (download_attempts_reach env url local_path token max_retries k Hk Htr
                (Z.to_nat k - 1) 1 w ltac:(lia) ltac:(lia)) as (t & F & Hsl & E).
    exists t. split; [exact F |]. split; [exact Hsl |].
    intros b w1 Eat.
    destruct (attempt_once_trace env url local_path token k (events_after w t))
      as (t1 & Et1 & Q1 & Q2).
    rewrite Eat in Et1. cbn [snd events_after trace] in Et1.
    exists (t ++ EvFetch url token :: t1)%list. split; [| split; [| split]].
    + unfold download_file. rewrite E.
      rewrite py_range_cons by lia. rewrite download_attempts_cons, Eat. reflexivity.
    + rewrite Et1. now rewrite <- app_assoc.
    + rewrite fetched_urls_app, F.
      change (fetched_urls (EvFetch url token :: t1)) with (url :: fetched_urls t1).
      rewrite Q1, <- repeat_cons.
      transitivity (repeat url (S (Z.to_nat k - 1))); [reflexivity | f_equal; lia].
    + rewrite sleeps_app, Hsl.
      change (sleeps (EvFetch url token :: t1)) with (sleeps t1).
      rewrite Q2. apply app_nil_r.
  - intros k rest w0 b w1 E. rewrite download_attempts_cons, E. reflexivity.
Qed.

Lemma download_file_retry_bound_witness :
  (exists t,
     download_file unreachable_env "u" "out/f" "tok" MAX_RETRIES empty_world
     = (Ok (PyBool false), events_after empty_world t)
     /\ fetched_urls t = ["u"; "u"; "u"]
     /\ sleeps t = [5; 5])
  /\ (exists w1 t',
        download_file busy_then_missing_env "u" "out/f" "tok" MAX_RETRIES empty_world
        = (Ok (PyBool false), w1)
        /\ trace w1 = (trace empty_world ++ t')%list
        /\ fetched_urls t' = ["u"; "u"]
        /\ sleeps t' = [5]).
Proof.
  split.
  - apply (download_file_retry_bound unreachable_env "u" "out/f" "tok" MAX_RETRIES
             empty_world).
    + unfold MAX_RETRIES. lia.
    + intros k _. exact I.
  - destruct (download_file_retry_bound busy_then_missing_env "u" "out/f" "tok"
                MAX_RETRIES empty_world) as (_ & Hreach & _).
    destruct (Hreach 2) as (t & _ & _ & Hret).
    + unfold MAX_RETRIES. lia.
    + intros j Hj. assert (j = 1) by lia. subst j.
      unfold transient_failure. simpl. lia.
    + destruct (Hret false
                  (events_after (events_after empty_world t)
                     [EvFetch "u" "tok"; EvLog DEBUG (FileNotFound404 "u")]))
        as (t' & E & Et & F & S).
      * apply (attempt_once_status busy_then_missing_env "u" "out/f" "tok" 2
                 (events_after empty_world t) 404); [reflexivity | discriminate].
      * eexists _, t'. split; [exact E |]. split; [exact Et |].
        split; [exact F | exact S].
Defined.

Lemma try_candidates_cons env token url local_path rest w :
  try_candidates env token ((url, local_path) :: rest) w =
  match local_ready env local_path w with
  | (Ok true, w1) => (Ok (Some local_path), events_after w1 [EvLog DEBUG (AlreadyExists local_path)])
  | (Ok false, w1) =>
      match download_file env url local_path token MAX_RETRIES w1 with
      | (Ok success, w2) =>
          if truthy success then (Ok (Some local_path), w2)
          else try_candidates env token rest w2
      | (Raise ex, w2) => (Raise ex, w2)
      end
  | (Raise ex, w1) => (Raise ex, w1)
  end.
Proof.
  cbn [try_candidates]. unfold bind at 1.
  destruct (local_ready env local_path w) as [[[] | ex] w1]; try reflexivity.
  unfold bind at 1.
  destruct (download_file env url local_path token MAX_RETRIES w1) as [[s | ex] w2];
    [destruct (truthy s) |]; reflexivity.
Qed.

(** C6. An attempt answered with 404, or with any other status that is
    neither 200 nor 5xx (so every 4xx), makes the retry loop return [False]
    at once: one request, one log line, no delay, no further attempt. The
    unit resolver then goes on with the next candidate. *)
Theorem download_file_client_status_not_retried
    env url local_path token max_retries status attempt later rest w :
  http_status (net env url attempt) = Some status ->
  status <> 200 ->
  ~ (500 <= status < 600) ->
  let w' := events_after w [EvFetch url token; status_log status url] in
  download_attempts env url local_path token max_retries (attempt :: later) w
  = (Ok (PyBool false), w')
  /\ (attempt = 1 ->
      download_file env url local_path token MAX_RETRIES w = (Ok (PyBool false), w')
      /\ (local_ready env local_path w = (Ok false, w) ->
          try_candidates env token ((url, local_path) :: rest) w
          = try_candidates env token rest w')).
Proof.
  intros Hs H200 H5xx w'.
  assert (E : forall m l,
             download_attempts env url local_path token m (attempt :: l) w
             = (Ok (PyBool false), w')).
  { intros m l. rewrite download_attempts_cons.
    rewrite (attempt_once_status _ _ _ _ _ _ status Hs H200).
    unfold w', status_log. destruct (status =? 404); [reflexivity |].
    replace ((500 <=? status) && (status <? 600)) with false; [reflexivity |].
    symmetry. apply andb_false_iff.
    destruct (Z.leb_spec 500 status); [right; apply Z.ltb_ge; lia | now left]. }
  split; [apply E |]. intros ->.
  assert (E1 : download_file env url local_path token MAX_RETRIES w
               = (Ok (PyBool false), w')).
  { unfold download_file. rewrite py_range_cons by (unfold MAX_RETRIES; lia). apply E. }
  split; [exact E1 |]. intros Hready.
  rewrite try_candidates_cons, Hready, E1. reflexivity.
Qed.

Lemma download_file_client_status_not_retried_witness :
  download_file not_found_env "u" "out/f" "tok" MAX_RETRIES empty_world
  = (Ok (PyBool false),
     events_after empty_world [EvFetch "u" "tok"; EvLog DEBUG (FileNotFound404 "u")]).
Proof.
  apply (download_file_client_status_not_retried not_found_env "u" "out/f" "tok"
           MAX_RETRIES 404 1 [2; 3] [] empty_world).
  - reflexivity.
  - lia.
  - lia.
  - reflexivity.
Defined.

(** C10. A local filesystem error after a 200 response is handled by the
    same [except] clause as a transport error: when directory creation
    fails at every attempt, or opening or writing the file fails at every
    attempt, [download_file] sends [max_retries] requests, sleeps
    [max_retries - 1] times for [RETRY_BACKOFF_SEC] seconds and returns
    [False], exactly as it does for a server that keeps failing. *)
Theorem download_file_local_error_retried env url local_path token max_retries w :
  1 <= max_retries ->
  (forall k, 1 <= k <= max_retries -> http_status (net env url k) = Some 200) ->
  (fs w !! dirname local_path = None
   /\ forall k, 1 <= k <= max_retries -> mkdir_fails (net env url k) = true)
  \/ (forall k, 1 <= k <= max_retries ->
        open_fails (net env url k) = true \/ is_Some (stream_fails (net env url k))) ->
  exists w' t,
    download_file env url local_path token max_retries w = (Ok (PyBool false), w')
    /\ trace w' = (trace w ++ t)%list
    /\ fetched_urls t = repeat url (Z.to_nat max_retries)
    /\ sleeps t = repeat RETRY_BACKOFF_SEC (Z.to_nat max_retries - 1).
Proof.
  intros Hm H200 [[Hdir Hmk] | Hwr].
  - destruct (download_file_all_raise env url local_path token max_retries
                (fun f => f !! dirname local_path = None) w Hm)
      as (w' & t & E & _ & Et & F & S).
    + intros w0 k Hw0 Hk. eexists _, _. split.
      * apply attempt_once_mkdir_failure; auto.
      * exact Hw0.
    + exact Hdir.
    + exists w', t. auto.
  - destruct (download_file_all_raise env url local_path token max_retries
                (fun _ => True) w Hm)
      as (w' & t & E & _ & Et & F & S).
    + intros w0 k _ Hk.
      destruct (attempt_once_write_failure env url local_path token k w0
                  (H200 k Hk) (Hwr k Hk)) as (ex & w1 & E1).
      exists ex, w1. auto.
    + exact I.
    + exists w', t. auto.
Qed.

Lemma download_file_local_error_retried_witness :
  exists w' t,
    download_file readonly_disk_env "u" "out/f" "tok" MAX_RETRIES empty_world
    = (Ok (PyBool false), w')
    /\ trace w' = (trace empty_world ++ t)%list
    /\ fetched_urls t = ["u"; "u"; "u"]
    /\ sleeps t = [5; 5].
Proof.
  apply (download_file_local_error_retried readonly_disk_env "u" "out/f" "tok"
           MAX_RETRIES empty_world).
  - unfold MAX_RETRIES. lia.
  - intros k _. reflexivity.
  - left. split; [reflexivity | intros k _; reflexivity].
Defined.

(** *** The unit resolver *)

Lemma candidates_nonempty station d rinex_root :
  exists c rest, generate_rinex_url_and_path station d rinex_root = c :: rest.
Proof.
  unfold generate_rinex_url_and_path, generate_candidate_filenames. cbv zeta.
  rewrite dedup_two.
  match goal with |- context [decide ?P] => destruct (decide P) end;
    cbn [map]; eauto.
Qed.

Lemma for_each_dry_run_report (l : list (string * string)) (w : world) :
  for_each l (fun c => log INFO (DryRunWouldTry c.1)) w
  = (Ok tt, events_after w (map dry_run_report l)).
Proof.
  revert w. induction l as [| c l IH]; intros w.
  - simpl. unfold ret. now rewrite events_after_nil.
  - cbn [for_each map]. unfold bind at 1. unfold log at 1, emit at 1.
    rewrite IH. unfold events_after. cbn [fs trace].
    rewrite <- app_assoc. reflexivity.
Qed.

Lemma download_for_date_station_dry_run env station d token rinex_root w :
  exists c rest,
    generate_rinex_url_and_path station d rinex_root = c :: rest
    /\ download_for_date_station env station d token rinex_root true w
       = (Ok (c.2, true),
          events_after w (map dry_run_report
                            (generate_rinex_url_and_path station d rinex_root))).
Proof.
  destruct (candidates_nonempty station d rinex_root) as (c & rest & E).
  exists c, rest. split; [exact E |].
  unfold download_for_date_station. unfold bind at 1.
  rewrite for_each_dry_run_report. rewrite E. reflexivity.
Qed.

Lemma download_for_date_station_normal env station d token rinex_root w :
  download_for_date_station env station d token rinex_root false w =
  match try_candidates env token (generate_rinex_url_and_path station d rinex_root) w with
  | (Ok (Some p), w1) => (Ok (p, true), w1)
  | (Ok None, w1) =>
      match generate_rinex_url_and_path station d rinex_root with
      | c :: _ => (Ok (c.2, false), events_after w1 [EvLog DEBUG (AllVariantsFailed station d)])
      | [] => (Raise IndexError, events_after w1 [EvLog DEBUG (AllVariantsFailed station d)])
      end
  | (Raise ex, w1) => (Raise ex, w1)
  end.
Proof.
  unfold download_for_date_station. unfold bind at 1.
  destruct (try_candidates env token _ w) as [[[p |] | ex] w1]; try reflexivity.
  destruct (generate_rinex_url_and_path station d rinex_root); reflexivity.
Qed.

(** C7. In a normal run, a unit that reports [success = False] reports it
    with the local path of its first candidate; and whenever the candidate
    loop runs to its end without a success, the unit returns exactly that
    pair. *)
Theorem download_for_date_station_exhausted env station d token rinex_root w :
  exists c rest,
    generate_rinex_url_and_path station d rinex_root = c :: rest
    /\ (forall p w',
          download_for_date_station env station d token rinex_root false w
          = (Ok (p, false), w') ->
          p = c.2)
    /\ (forall w1,
          try_candidates env token (c :: rest) w = (Ok None, w1) ->
          download_for_date_station env station d token rinex_root false w
          = (Ok (c.2, false),
             events_after w1 [EvLog DEBUG (AllVariantsFailed station d)])).
Proof.
  destruct (candidates_nonempty station d rinex_root) as (c & rest & E).
  exists c, rest. split; [exact E |].
  rewrite download_for_date_station_normal, E. split.
  - intros p w'.
    destruct (try_candidates env token (c :: rest) w) as [[[p0 |] | ex] w1];
      intros H; inversion H; reflexivity.
  - intros w1 ->. reflexivity.
Qed.

Lemma download_for_date_station_exhausted_witness :
  download_for_date_station not_found_env "Y" 737942 "tok" "out" false empty_world
  = (Ok ("out/2021/152/y15200.21d.Z", false),
     events_after empty_world
       [EvFetch (ARCHIVE_URL +:+ "2021/152/y15200.21d.Z") "tok";
        EvLog DEBUG (FileNotFound404 (ARCHIVE_URL +:+ "2021/152/y15200.21d.Z"));
        EvFetch (ARCHIVE_URL +:+ "2021/152/Y15200.21d.Z") "tok";
        EvLog DEBUG (FileNotFound404 (ARCHIVE_URL +:+ "2021/152/Y15200.21d.Z"));
        EvLog DEBUG (AllVariantsFailed "Y" 737942)]).
Proof.
  destruct (download_for_date_station_exhausted not_found_env "Y" 737942 "tok" "out"
              empty_world) as (c & rest & E & _ & H).
  vm_compute in E. injection E as <- <-.
  apply (H (events_after empty_world
       [EvFetch (ARCHIVE_URL +:+ "2021/152/y15200.21d.Z") "tok";
        EvLog DEBUG (FileNotFound404 (ARCHIVE_URL +:+ "2021/152/y15200.21d.Z"));
        EvFetch (ARCHIVE_URL +:+ "2021/152/Y15200.21d.Z") "tok";
        EvLog DEBUG (FileNotFound404 (ARCHIVE_URL +:+ "2021/152/Y15200.21d.Z"))])).
  vm_compute. reflexivity.
Defined.

(** *** The orchestrator *)

Lemma build_tasks_spec stations start_date end_date station_periods tasks w :
  build_tasks stations start_date end_date station_periods tasks w
  = (Ok (tasks ++ scheduled_units stations start_date end_date station_periods)%list,
     events_after w (skip_lines stations start_date end_date station_periods)).
Proof.
  revert tasks w. induction stations as [| st rest IH]; intros tasks w.
  - simpl. unfold ret. now rewrite app_nil_r, events_after_nil.
  - cbn [build_tasks scheduled_units skip_lines flat_map].
    fold (scheduled_units rest start_date end_date station_periods).
    fold (skip_lines rest start_date end_date station_periods).
    destruct (station_units st start_date end_date station_periods) as [units |].
    + rewrite IH. simpl. now rewrite <- app_assoc.
    + unfold bind at 1. unfold log at 1, emit at 1. rewrite IH.
      unfold events_after. cbn [fs trace default]. now rewrite <- app_assoc.
Qed.

Lemma collect_results_cons env token out_root dry_run u rest results w :
  collect_results env token out_root dry_run (u :: rest) results w
  = collect_results env token out_root dry_run rest
      (results ++ [(unit_row env token out_root dry_run u w).1])%list
      (unit_row env token out_root dry_run u w).2.
Proof.
  destruct u as [st dt]. cbn [collect_results]. unfold bind at 1.
  unfold try_except, unit_row. cbn [fst snd]. unfold bind at 1.
  destruct (download_for_date_station env st dt token out_root dry_run w)
    as [[[p []] | e] w1]; reflexivity.
Qed.

Lemma row_task_unit_row env token out_root dry_run u w :
  row_task (unit_row env token out_root dry_run u w).1 = u.
Proof.
  unfold unit_row, row_task. destruct u as [st dt].
  destruct (download_for_date_station _ _ _ _ _ _ _) as [[[p []] | e] w1]; reflexivity.
Qed.

(** The loop never raises and records one row per unit, in order. *)
Lemma collect_results_total env token out_root dry_run order results w :
  exists rows w',
    collect_results env token out_root dry_run order results w
    = (Ok (results ++ rows)%list, w')
    /\ map row_task rows = order.
Proof.
  revert results w. induction order as [| u rest IH]; intros results w.
  - exists [], w. simpl. unfold ret. now rewrite app_nil_r.
  - rewrite collect_results_cons.
    destruct (IH (results ++ [(unit_row env token out_root dry_run u w).1])%list
                 (unit_row env token out_root dry_run u w).2)
      as (rows & w' & E & Hmap).
    exists ((unit_row env token out_root dry_run u w).1 :: rows), w'. split.
    + rewrite E. now rewrite <- app_assoc.
    + cbn [map]. now rewrite row_task_unit_row, Hmap.
Qed.

Lemma download_rinex_batch_unfold env stations start_date end_date out_root
    station_periods max_workers dry_run w token :
  token_var env = Some token -> token <> "" -> 0 < max_workers ->
  let tasks := scheduled_units stations start_date end_date station_periods in
  let w1 := events_after w
              (skip_lines stations start_date end_date station_periods
               ++ [EvLog INFO (StartingDownload (Z.of_nat (length stations))
                                 (Z.of_nat (length tasks)) out_root max_workers)]) in
  exists results w2,
    collect_results env token out_root dry_run (completion env tasks) [] w1
    = (Ok results, w2)
    /\ map row_task results = completion env tasks
    /\ download_rinex_batch env stations start_date end_date out_root
         station_periods max_workers dry_run w
       = (Ok results,
          events_after w2
            [EvLog INFO (DownloadComplete (n_success_of results)
                           (Z.of_nat (length tasks) - n_success_of results))]).
Proof.
  intros Htok Hne Hw tasks w1.
  destruct (collect_results_total env token out_root dry_run (completion env tasks) [] w1)
    as (rows & w2 & E & Hmap).
  exists rows, w2. split; [exact E |]. split; [exact Hmap |].
  unfold download_rinex_batch, get_bearer_token. rewrite Htok.
  apply String.eqb_neq in Hne. rewrite Hne.
  unfold bind at 1. unfold ret at 1. unfold bind at 1.
  rewrite build_tasks_spec. cbn [app].
  fold tasks. unfold bind at 1. unfold log at 1, emit at 1.
  unfold bind at 1.
  replace (max_workers <=? 0) with false by (symmetry; apply Z.leb_gt; lia).
  unfold ret at 1. unfold bind at 1.
  match goal with
  | |- context [collect_results _ _ _ _ _ _ ?x] =>
      replace x with w1
        by (unfold w1, events_after; cbn [fs trace]; now rewrite app_assoc)
  end.
  rewrite E. reflexivity.
Qed.

(** *** Date ranges and station windows *)

Lemma py_range_seqZ (a b : Z) : py_range a b = seqZ a (b - a).
Proof.
  unfold py_range, seqZ. change (@map nat Z) with (@fmap list _ nat Z).
  apply list_fmap_ext. intros _ i _. lia.
Qed.

Lemma daterange_seqZ (a b : date) : daterange a b = seqZ a (b - a + 1).
Proof.
  unfold daterange, add_days, days_between. rewrite py_range_seqZ.
  replace (b - a + 1 - 0) with (b - a + 1) by lia.
  unfold seqZ. change (@map Z Z) with (@fmap list _ Z Z).
  rewrite <- list_fmap_compose. apply list_fmap_ext. intros _ i _. simpl. lia.
Qed.

Lemma daterange_elem (a b d : date) : d ∈ daterange a b <-> a <= d <= b.
Proof. rewrite daterange_seqZ, elem_of_seqZ. lia. Qed.

Lemma daterange_NoDup (a b : date) : NoDup (daterange a b).
Proof. rewrite daterange_seqZ. apply NoDup_seqZ. Qed.

Lemma daterange_length (a b : date) : length (daterange a b) = Z.to_nat (b - a + 1).
Proof. unfold daterange. rewrite length_map, py_range_length. f_equal. unfold days_between. lia. Qed.

Lemma effective_range_max_min (start_date end_date : date)
    (period : option date * option date) :
  effective_range start_date end_date period
  = (Z.max start_date (default start_date period.1),
     Z.min end_date (default end_date period.2)).
Proof.
  unfold effective_range. destruct period as [[s |] [e |]]; simpl; f_equal;
    repeat match goal with
           | |- context [?x >? ?y] => destruct (Z.gtb_spec x y)
           | |- context [?x <? ?y] => destruct (Z.ltb_spec x y)
           end; lia.
Qed.

#[local] Instance pair_with_inj {A B} (a : A) : Inj (=) (=) (fun b : B => (a, b)).
Proof. intros x y H. now inversion H. Qed.

Lemma station_units_spec st start_date end_date station_periods :
  let eff := effective_range start_date end_date
               (default (None, None) (station_periods !! st)) in
  if eff.2 <? eff.1 then
    station_units st start_date end_date station_periods = None
  else
    exists units,
      station_units st start_date end_date station_periods = Some units
      /\ length units = Z.to_nat (eff.2 - eff.1 + 1)
      /\ NoDup units
      /\ forall u, u ∈ units <-> u.1 = st /\ eff.1 <= u.2 <= eff.2.
Proof.
  intros eff. unfold station_units. fold eff.
  destruct (eff.2 <? eff.1); [reflexivity |].
  eexists. split; [reflexivity |]. split; [| split].
  - now rewrite length_map, daterange_length.
  - change (@map date task) with (@fmap list _ date task).
    apply (NoDup_fmap_2 _), daterange_NoDup.
  - intros [s d]. change (@map date task) with (@fmap list _ date task).
    rewrite list_elem_of_fmap. simpl. split.
    + intros (x & E & Hx). inversion E; subst. split; [reflexivity |].
      now apply daterange_elem.
    + intros [-> Hd]. exists d. split; [reflexivity |]. now apply daterange_elem.
Qed.

(** C1. The effective range of a station is
    [max(start, window start or start), min(end, window end or end)], a
    missing bound standing for the requested one; the station is skipped
    exactly when the effective start is after the effective end, and a
    skipped station logs one skip line, adds no unit to the schedule and so
    has no row (hence no failure) among the results of the batch. *)
Theorem effective_range_and_skip st start_date end_date station_periods :
  let period := default (None, None) (station_periods !! st) in
  let eff := effective_range start_date end_date period in
  (forall p : option date * option date,
     effective_range start_date end_date p
     = (Z.max start_date (default start_date p.1),
        Z.min end_date (default end_date p.2)))
  /\ (station_units st start_date end_date station_periods = None <-> eff.1 > eff.2)
  /\ (eff.1 > eff.2 ->
      (forall rest tasks w,
         build_tasks (st :: rest) start_date end_date station_periods tasks w
         = build_tasks rest start_date end_date station_periods tasks
             (events_after w [EvLog INFO (SkippingStation st)]))
      /\ (forall stations d,
            (st, d) ∉ scheduled_units stations start_date end_date station_periods)
      /\ (forall env stations out_root max_workers dry_run w token results w',
            token_var env = Some token -> token <> "" -> 0 < max_workers ->
            Permutation
              (completion env
                 (scheduled_units stations start_date end_date station_periods))
              (scheduled_units stations start_date end_date station_periods) ->
            download_rinex_batch env stations start_date end_date out_root
              station_periods max_workers dry_run w = (Ok results, w') ->
            forall r, r ∈ results -> r.1.1.1 <> st)).
Proof.
  intros period eff.
  pose proof (station_units_spec st start_date end_date station_periods) as Hspec.
  cbv zeta in Hspec. fold period in Hspec. fold eff in Hspec.
  split; [apply effective_range_max_min |]. split.
  - destruct (Z.ltb_spec eff.2 eff.1) as [Hlt | Hge].
    + split; [lia | intros _; exact Hspec].
    + destruct Hspec as (units & E & _). rewrite E. split; [discriminate | lia].
  - intros Hgt.
    assert (Hnone : station_units st start_date end_date station_periods = None).
    { destruct (Z.ltb_spec eff.2 eff.1); [exact Hspec | lia]. }
    assert (Hno : forall stations d,
               (st, d) ∉ scheduled_units stations start_date end_date station_periods).
    { intros stations d Hin. unfold scheduled_units in Hin.
      apply list_elem_of_In, in_flat_map in Hin as (s & _ & Hin).
      pose proof (station_units_spec s start_date end_date station_periods) as Hs.
      cbv zeta in Hs.
      match type of Hs with (if ?c then _ else _) => destruct c end.
      - rewrite Hs in Hin. destruct Hin.
      - destruct Hs as (units & E & _ & _ & Hu). rewrite E in Hin. simpl in Hin.
        apply list_elem_of_In, Hu in Hin as [Hst _]. simpl in Hst. subst s.
        congruence. }
    split; [| split].
    + intros rest tasks w. cbn [build_tasks]. rewrite Hnone. reflexivity.
    + exact Hno.
    + intros env stations out_root max_workers dry_run w token results w'
        Htok Hne Hw Hperm Hrun r Hr Hst.
      destruct (download_rinex_batch_unfold env stations start_date end_date out_root
                  station_periods max_workers dry_run w token Htok Hne Hw)
        as (results0 & w2 & _ & Hmap & E).
      rewrite E in Hrun. injection Hrun as <- _.
      apply (Hno stations r.1.1.2).
      apply list_elem_of_In, (Permutation_in _ Hperm). rewrite <- Hmap.
      apply in_map_iff. exists r. split.
      * unfold row_task. now rewrite <- Hst.
      * now apply list_elem_of_In.
Qed.

Lemma effective_range_and_skip_witness :
  build_tasks ["X"] (ymd 2021 6 1) (ymd 2021 6 2)
    {[ "X" := (Some (ymd 2020 1 1), Some (ymd 2020 1 3)) ]} [] empty_world
  = build_tasks [] (ymd 2021 6 1) (ymd 2021 6 2)
      {[ "X" := (Some (ymd 2020 1 1), Some (ymd 2020 1 3)) ]} []
      (events_after empty_world [EvLog INFO (SkippingStation "X")]).
Proof.
  apply (effective_range_and_skip "X" (ymd 2021 6 1) (ymd 2021 6 2)
           {[ "X" := (Some (ymd 2020 1 1), Some (ymd 2020 1 3)) ]}).
  vm_compute. reflexivity.
Defined.

Lemma scheduled_units_elem stations start_date end_date station_periods (u : task) :
  u ∈ scheduled_units stations start_date end_date station_periods
  <-> u.1 ∈ stations
      /\ let eff := effective_range start_date end_date
                      (default (None, None) (station_periods !! u.1)) in
         eff.1 <= u.2 <= eff.2.
Proof.
  destruct u as [s d]. cbn [fst snd].
  unfold scheduled_units. rewrite list_elem_of_In, in_flat_map. split.
  - intros (st & Hst & Hu).
    pose proof (station_units_spec st start_date end_date station_periods) as Hs.
    cbv zeta in Hs.
    match type of Hs with (if ?c then _ else _) => destruct c end.
    + rewrite Hs in Hu. destruct Hu.
    + destruct Hs as (units & E & _ & _ & Hunits). rewrite E in Hu. simpl in Hu.
      apply list_elem_of_In, Hunits in Hu as [Heq Hrange]. simpl in Heq, Hrange.
      subst s. split; [now apply list_elem_of_In | exact Hrange].
  - intros [Hst Hrange]. exists s. split; [now apply list_elem_of_In |].
    pose proof (station_units_spec s start_date end_date station_periods) as Hs.
    cbv zeta in Hs, Hrange.
    match type of Hs with (if ?c then _ else _) => destruct c eqn:E end.
    + apply Z.ltb_lt in E. lia.
    + destruct Hs as (units & -> & _ & _ & Hunits). simpl.
      apply list_elem_of_In, Hunits. split; [reflexivity | exact Hrange].
Qed.

Lemma scheduled_units_NoDup stations start_date end_date station_periods :
  NoDup stations ->
  NoDup (scheduled_units stations start_date end_date station_periods).
Proof.
  induction 1 as [| st rest Hnotin Hnodup IH].
  - constructor.
  - change (scheduled_units (st :: rest) start_date end_date station_periods)
      with (default [] (station_units st start_date end_date station_periods)
            ++ scheduled_units rest start_date end_date station_periods)%list.
    apply NoDup_app. split; [| split; [| exact IH]].
    + pose proof (station_units_spec st start_date end_date station_periods) as Hs.
      cbv zeta in Hs.
      match type of Hs with (if ?c then _ else _) => destruct c end.
      * rewrite Hs. constructor.
      * destruct Hs as (units & -> & _ & Hnd & _). exact Hnd.
    + intros [s d] Hu Hrest.
      apply scheduled_units_elem in Hrest as [Hin _]. simpl in Hin.
      pose proof (station_units_spec st start_date end_date station_periods) as Hs.
      cbv zeta in Hs.
      match type of Hs with (if ?c then _ else _) => destruct c end.
      * rewrite Hs in Hu. simpl in Hu. now apply elem_of_nil in Hu.
      * destruct Hs as (units & E & _ & _ & Hunits). rewrite E in Hu. simpl in Hu.
        apply Hunits in Hu as [Hst _]. simpl in Hst. subst s. contradiction.
Qed.

(** C4. A station that is not skipped gets exactly one unit per day of its
    effective range, both ends included: as many units as days, no unit
    twice, and a unit for a date exactly when the date lies in the range.
    Over a list of distinct stations the whole schedule holds each
    (station, day) at most once, and holds it exactly when the day lies in
    the station's effective range. A station with window
    2020-01-01..2020-01-03 under the request 2019-12-01..2025-01-01 gets
    the 3 units of its window; a station without window data under the
    request 2021-06-01..2021-06-02 gets 2 units. *)
Theorem one_unit_per_day :
  (forall st start_date end_date station_periods,
     let eff := effective_range start_date end_date
                  (default (None, None) (station_periods !! st)) in
     eff.1 <= eff.2 ->
     exists units,
       station_units st start_date end_date station_periods = Some units
       /\ length units = Z.to_nat (eff.2 - eff.1 + 1)
       /\ NoDup units
       /\ forall u, u ∈ units <-> u.1 = st /\ eff.1 <= u.2 <= eff.2)
  /\ (forall stations start_date end_date station_periods w,
        exists w',
          build_tasks stations start_date end_date station_periods [] w
          = (Ok (scheduled_units stations start_date end_date station_periods), w')
          /\ (NoDup stations ->
              NoDup (scheduled_units stations start_date end_date station_periods))
          /\ forall u : task,
               u ∈ scheduled_units stations start_date end_date station_periods
               <-> u.1 ∈ stations
                   /\ let eff := effective_range start_date end_date
                                   (default (None, None) (station_periods !! u.1)) in
                      eff.1 <= u.2 <= eff.2)
  /\ build_tasks ["X"] (ymd 2019 12 1) (ymd 2025 1 1)
       {[ "X" := (Some (ymd 2020 1 1), Some (ymd 2020 1 3)) ]} [] empty_world
     = (Ok [("X", ymd 2020 1 1); ("X", ymd 2020 1 2); ("X", ymd 2020 1 3)],
        empty_world)
  /\ build_tasks ["Y"] (ymd 2021 6 1) (ymd 2021 6 2) ∅ [] empty_world
     = (Ok [("Y", ymd 2021 6 1); ("Y", ymd 2021 6 2)], empty_world).
Proof.
  split; [| split; [| split; vm_compute; reflexivity]].
  - intros st start_date end_date station_periods eff Hle.
    pose proof (station_units_spec st start_date end_date station_periods) as Hspec.
    cbv zeta in Hspec. fold eff in Hspec.
    destruct (Z.ltb_spec eff.2 eff.1); [lia | exact Hspec].
  - intros stations start_date end_date station_periods w.
    eexists. split; [| split].
    + rewrite build_tasks_spec. reflexivity.
    + apply scheduled_units_NoDup.
    + apply scheduled_units_elem.
Qed.

Lemma one_unit_per_day_witness :
  exists units,
    station_units "Y" (ymd 2021 6 1) (ymd 2021 6 2) ∅ = Some units
    /\ length units = 2%nat.
Proof.
  destruct (proj1 one_unit_per_day "Y" (ymd 2021 6 1) (ymd 2021 6 2) ∅)
    as (units & E & Hlen & _).
  - vm_compute. discriminate.
  - exists units. split; [exact E | exact Hlen].
Defined.

(** *** Counting events *)

Lemma count_events_app p t1 t2 :
  count_events p (t1 ++ t2) = (count_events p t1 + count_events p t2)%nat.
Proof. unfold count_events. now rewrite List.filter_app, length_app. Qed.

Lemma count_events_none p t :
  Forall (fun e => p e = false) t -> count_events p t = 0%nat.
Proof.
  unfold count_events. induction 1 as [| e t He _ IH]; simpl; [reflexivity |].
  now rewrite He.
Qed.

Lemma count_events_all p t :
  Forall (fun e => p e = true) t -> count_events p t = length t.
Proof.
  unfold count_events. induction 1 as [| e t He _ IH]; simpl; [reflexivity |].
  rewrite He. simpl. now rewrite IH.
Qed.

Lemma skip_lines_logs stations start_date end_date station_periods :
  Forall (fun e => is_log e = true /\ is_dry_run_report e = false)
         (skip_lines stations start_date end_date station_periods).
Proof.
  unfold skip_lines. induction stations as [| st rest IH]; simpl; [constructor |].
  destruct (station_units st start_date end_date station_periods); simpl; [exact IH |].
  constructor; [split; reflexivity | exact IH].
Qed.

(** *** Dry runs *)

Lemma dry_reports_all out_root (order : list task) :
  Forall (fun e => is_log e = true /\ is_dry_run_report e = true)
         (flat_map (dry_reports out_root) order).
Proof.
  induction order as [| u rest IH]; simpl; [constructor |].
  apply Forall_app. split; [| exact IH].
  unfold dry_reports. apply Forall_forall. intros e He.
  apply list_elem_of_In, in_map_iff in He as (c & <- & _). split; reflexivity.
Qed.

Lemma unit_row_dry_run env token out_root u w :
  exists p,
    unit_row env token out_root true u w
    = ((u.1, u.2, Some p, true), events_after w (dry_reports out_root u)).
Proof.
  unfold unit_row.
  destruct (download_for_date_station_dry_run env u.1 u.2 token out_root w)
    as (c & rest & _ & E).
  rewrite E. exists c.2. reflexivity.
Qed.

Lemma collect_results_dry_run env token out_root order results w :
  exists rows,
    collect_results env token out_root true order results w
    = (Ok (results ++ rows)%list,
       events_after w (flat_map (dry_reports out_root) order))
    /\ Forall (fun r : result_row => r.2 = true) rows.
Proof.
  revert results w. induction order as [| u rest IH]; intros results w.
  - exists []. simpl. unfold ret. rewrite app_nil_r, events_after_nil. auto.
  - rewrite collect_results_cons.
    destruct (unit_row_dry_run env token out_root u w) as (p & E). rewrite E.
    cbn [fst snd].
    destruct (IH (results ++ [(u.1, u.2, Some p, true)])%list
                 (events_after w (dry_reports out_root u))) as (rows & E2 & Hall).
    exists ((u.1, u.2, Some p, true) :: rows). split.
    + etransitivity; [apply E2 |].
      rewrite events_after_app, <- app_assoc. reflexivity.
    + constructor; [reflexivity | exact Hall].
Qed.

Lemma log_not_effect (e : event) :
  is_log e = true -> is_fetch e = false /\ is_fs_write e = false.
Proof. destruct e; simpl; intros H; try discriminate; auto. Qed.

Lemma dry_reports_length out_root (order : list task) :
  length (flat_map (dry_reports out_root) order)
  = length (flat_map (fun u : task => generate_rinex_url_and_path u.1 u.2 out_root) order).
Proof.
  induction order as [| u rest IH]; simpl; [reflexivity |].
  rewrite !length_app, IH. unfold dry_reports. now rewrite length_map.
Qed.

Lemma download_rinex_batch_dry_run env stations start_date end_date out_root
    station_periods max_workers w token :
  token_var env = Some token -> token <> "" -> 0 < max_workers ->
  let tasks := scheduled_units stations start_date end_date station_periods in
  Permutation (completion env tasks) tasks ->
  exists results t,
    download_rinex_batch env stations start_date end_date out_root
      station_periods max_workers true w = (Ok results, events_after w t)
    /\ Forall (fun r : result_row => r.2 = true) results
    /\ count_events is_dry_run_report t
       = length (flat_map (fun u : task => generate_rinex_url_and_path u.1 u.2 out_root)
                          tasks)
    /\ count_events is_fetch t = 0%nat
    /\ count_events is_fs_write t = 0%nat.
Proof.
  intros Htok Hne Hw tasks Hperm.
  destruct (download_rinex_batch_unfold env stations start_date end_date out_root
              station_periods max_workers true w token Htok Hne Hw)
    as (results & w2 & Ecol & _ & Ebatch).
  fold tasks in Ecol, Ebatch.
  match type of Ecol with
  | collect_results _ _ _ _ ?o ?r ?w1 = _ =>
      destruct (collect_results_dry_run env token out_root o r w1) as (rows & E & Hall)
  end.
  rewrite E in Ecol. injection Ecol as <- <-. cbn [app] in *.
  set (skips := skip_lines stations start_date end_date station_periods) in *.
  set (reports := flat_map (dry_reports out_root) (completion env tasks)) in *.
  eexists rows, (skips ++ [_] ++ reports ++ [_])%list.
  split; [| split; [exact Hall |]].
  - rewrite Ebatch. rewrite !events_after_app. rewrite <- !app_assoc. reflexivity.
  - pose proof (skip_lines_logs stations start_date end_date station_periods) as Hs.
    fold skips in Hs.
    pose proof (dry_reports_all out_root (completion env tasks)) as Hr.
    fold reports in Hr.
    rewrite !count_events_app.
    rewrite (count_events_none is_dry_run_report skips)
      by (eapply Forall_impl; [exact Hs |]; simpl; tauto).
    rewrite (count_events_all is_dry_run_report reports)
      by (eapply Forall_impl; [exact Hr |]; simpl; tauto).
    rewrite (count_events_none is_fetch skips)
      by (eapply Forall_impl; [exact Hs |]; intros e [He _]; now apply log_not_effect).
    rewrite (count_events_none is_fetch reports)
      by (eapply Forall_impl; [exact Hr |]; intros e [He _]; now apply log_not_effect).
    rewrite (count_events_none is_fs_write skips)
      by (eapply Forall_impl; [exact Hs |]; intros e [He _]; now apply log_not_effect).
    rewrite (count_events_none is_fs_write reports)
      by (eapply Forall_impl; [exact Hr |]; intros e [He _]; now apply log_not_effect).
    unfold reports. rewrite dry_reports_length.
    rewrite (Permutation_length (Permutation_flat_map _ Hperm)).
    unfold count_events. simpl. repeat split; lia.
Qed.

(** C8. In dry-run mode the unit resolver logs one "would try" line per
    candidate, in order, does nothing else (no request, no directory, no
    file: the world changes by these log lines only) and returns the first
    candidate's path with success; a dry-run batch prints as many reports
    as its units have candidates, sends no request and writes nothing; over
    one station with two naming variants and two dates that is 4 reports. *)
Theorem dry_run_reports_only :
  (forall env station d token rinex_root w,
     exists c rest,
       generate_rinex_url_and_path station d rinex_root = c :: rest
       /\ download_for_date_station env station d token rinex_root true w
          = (Ok (c.2, true),
             events_after w
               (map dry_run_report
                    (generate_rinex_url_and_path station d rinex_root))))
  /\ (forall env token w,
        token_var env = Some token -> token <> "" ->
        (forall l, Permutation (completion env l) l) ->
        exists results t,
          download_rinex_batch env ["X"] (ymd 2021 6 1) (ymd 2021 6 2) "out" ∅
            MAX_WORKERS_DEFAULT true w = (Ok results, events_after w t)
          /\ Forall (fun r : result_row => r.2 = true) results
          /\ count_events is_dry_run_report t = 4%nat
          /\ count_events is_fetch t = 0%nat
          /\ count_events is_fs_write t = 0%nat).
Proof.
  split; [apply download_for_date_station_dry_run |].
  intros env token w Htok Hne Hperm.
  assert (Hworkers : 0 < MAX_WORKERS_DEFAULT) by (unfold MAX_WORKERS_DEFAULT; lia).
  destruct (download_rinex_batch_dry_run env ["X"] (ymd 2021 6 1) (ymd 2021 6 2)
              "out" ∅ MAX_WORKERS_DEFAULT w token Htok Hne Hworkers (Hperm _))
    as (results & t & E & Hall & Hrep & Hf & Hw).
  exists results, t.
  split; [exact E |]. split; [exact Hall |]. split; [| split; assumption].
  rewrite Hrep. vm_compute. reflexivity.
Qed.

Lemma dry_run_reports_only_witness :
  exists results t,
    download_rinex_batch unreachable_env ["X"] (ymd 2021 6 1) (ymd 2021 6 2) "out" ∅
      MAX_WORKERS_DEFAULT true empty_world = (Ok results, events_after empty_world t)
    /\ Forall (fun r : result_row => r.2 = true) results
    /\ count_events is_dry_run_report t = 4%nat
    /\ count_events is_fetch t = 0%nat
    /\ count_events is_fs_write t = 0%nat.
Proof.
  apply (proj2 dry_run_reports_only unreachable_env "tok" empty_world).
  - reflexivity.
  - discriminate.
  - intros l. apply Permutation_refl.
Defined.

(** *** Failures inside the batch *)

Lemma success_failure_partition (results : list result_row) :
  n_success_of results + n_failed_of results = Z.of_nat (length results).
Proof.
  unfold n_success_of, n_failed_of.
  induction results as [| r rest IH]; simpl; [reflexivity |].
  destruct r.2; simpl; lia.
Qed.

(** C9. An exception raised while a unit is resolved is caught in the
    collection loop: the unit gets the row (station, date, None, False),
    one error line is logged and the loop goes on with the remaining units;
    the loop itself never raises and records exactly one row per scheduled
    unit; and in the final summary the number of successes plus the number
    of failures is the number of scheduled units, the failures reported
    being exactly the rows whose flag is false. *)
Theorem batch_isolates_unit_failures :
  (forall env token out_root dry_run (u : task) rest results w e w1,
     download_for_date_station env u.1 u.2 token out_root dry_run w = (Raise e, w1) ->
     collect_results env token out_root dry_run (u :: rest) results w
     = collect_results env token out_root dry_run rest
         (results ++ [(u.1, u.2, None, false)])%list
         (events_after w1 [EvLog ERROR (ExceptionForUnit u.1 u.2 e)]))
  /\ (forall env token out_root dry_run order results w,
        exists rows w',
          collect_results env token out_root dry_run order results w
          = (Ok (results ++ rows)%list, w')
          /\ map row_task rows = order)
  /\ (forall env stations start_date end_date out_root station_periods
             max_workers dry_run w token,
        token_var env = Some token -> token <> "" -> 0 < max_workers ->
        let tasks := scheduled_units stations start_date end_date station_periods in
        Permutation (completion env tasks) tasks ->
        exists results w2 n_success n_fail,
          download_rinex_batch env stations start_date end_date out_root
            station_periods max_workers dry_run w
          = (Ok results,
             events_after w2 [EvLog INFO (DownloadComplete n_success n_fail)])
          /\ Permutation (map row_task results) tasks
          /\ n_success = n_success_of results
          /\ n_fail = n_failed_of results
          /\ n_success + n_fail = Z.of_nat (length tasks)).
Proof.
  split; [| split].
  - intros env token out_root dry_run u rest results w e w1 E.
    rewrite collect_results_cons. unfold unit_row. rewrite E. reflexivity.
  - intros. apply collect_results_total.
  - intros env stations start_date end_date out_root station_periods
      max_workers dry_run w token Htok Hne Hw tasks Hperm.
    destruct (download_rinex_batch_unfold env stations start_date end_date out_root
                station_periods max_workers dry_run w token Htok Hne Hw)
      as (results & w2 & _ & Hmap & E).
    fold tasks in Hmap, E.
    assert (Hlen : length results = length tasks).
    { rewrite <- (Permutation_length Hperm), <- Hmap. now rewrite length_map. }
    pose proof (success_failure_partition results) as Hpart.
    exists results, w2, (n_success_of results),
      (Z.of_nat (length tasks) - n_success_of results).
    split; [exact E |]. split; [now rewrite Hmap |].
    split; [reflexivity |]. split; lia.
Qed.

Lemma batch_isolates_unit_failures_witness :
  (exists w',
     download_rinex_batch unreadable_env ["Y"] (ymd 2021 6 1) (ymd 2021 6 2) "out" ∅
       MAX_WORKERS_DEFAULT false unreadable_world
     = (Ok [("Y", ymd 2021 6 1, None, false);
            ("Y", ymd 2021 6 2, Some "out/2021/153/y15300.21d.Z", false)], w'))
  /\ exists results w2 n_success n_fail,
       download_rinex_batch unreadable_env ["Y"] (ymd 2021 6 1) (ymd 2021 6 2) "out" ∅
         MAX_WORKERS_DEFAULT false unreadable_world
       = (Ok results, events_after w2 [EvLog INFO (DownloadComplete n_success n_fail)])
       /\ Permutation (map row_task results)
            (scheduled_units ["Y"] (ymd 2021 6 1) (ymd 2021 6 2) ∅)
       /\ n_success = n_success_of results
       /\ n_fail = n_failed_of results
       /\ n_success + n_fail
          = Z.of_nat (length (scheduled_units ["Y"] (ymd 2021 6 1) (ymd 2021 6 2) ∅)).
Proof.
  split.
  - eexists. vm_compute. reflexivity.
  - apply (proj2 (proj2 batch_isolates_unit_failures) unreadable_env ["Y"]
             (ymd 2021 6 1) (ymd 2021 6 2) "out" ∅ MAX_WORKERS_DEFAULT false
             unreadable_world "tok").
    + reflexivity.
    + discriminate.
    + unfold MAX_WORKERS_DEFAULT. lia.
    + apply Permutation_refl.
Defined.

(** *** Running a unit again *)

Lemma fetches_only_nil url : fetches_only url [].
Proof. constructor. Qed.

Lemma fetches_only_app url t1 t2 :
  fetches_only url t1 -> fetches_only url t2 -> fetches_only url (t1 ++ t2).
Proof.
  unfold fetches_only. intros H1 H2. rewrite fetched_urls_app.
  apply Forall_app. auto.
Qed.

Lemma attempt_once_fetches_only env url local_path token attempt :
  steps (trace_grows (fetches_only url))
        (attempt_once env url local_path token attempt).
Proof.
  intros w.
  destruct (attempt_once_trace env url local_path token attempt w) as (t & E & Q1 & _).
  exists (EvFetch url token :: t). split; [exact E |].
  unfold fetches_only. simpl. rewrite Q1. repeat constructor.
Qed.

Lemma download_attempts_fetches_only env url local_path token max_retries attempts :
  steps (trace_grows (fetches_only url))
        (download_attempts env url local_path token max_retries attempts).
Proof.
  induction attempts as [| k rest IH]; cbn [download_attempts].
  - apply steps_ret, trace_grows_refl, fetches_only_nil.
  - steps_with (trace_grows_refl (fetches_only url) (fetches_only_nil url))
               (trace_grows_trans (fetches_only url) (fetches_only_app url))
               ltac:(first [ apply attempt_once_fetches_only
                           | exact IH
                           | apply (trace_grows_emit (fetches_only url));
                             unfold fetches_only; simpl; solve [constructor] ]).
Qed.

Lemma download_attempts_keeps env url local_path token max_retries attempts :
  steps (keeps_other_files local_path)
        (download_attempts env url local_path token max_retries attempts).
Proof.
  induction attempts as [| k rest IH]; cbn [download_attempts].
  - apply steps_ret, keeps_other_files_refl.
  - steps_with (keeps_other_files_refl local_path)
               (keeps_other_files_trans local_path)
               ltac:(first [ apply attempt_once_keeps
                           | exact IH
                           | apply keeps_other_files_emit ]).
Qed.

Lemma local_ready_cases env path w :
  match fs w !! path with
  | Some (File size) =>
      if getsize_fails env path then local_ready env path w = (Raise OSError, w)
      else local_ready env path w = (Ok (0 <? size)%N, w)
  | _ => local_ready env path w = (Ok false, w)
  end.
Proof.
  unfold local_ready, bind, get_fs.
  destruct (fs w !! path) as [[| size] |]; try reflexivity.
  destruct (getsize_fails env path); reflexivity.
Qed.

(** Once a candidate's file is on disk with a size above zero, the candidate
    loop stops at that candidate at the latest, and so sends requests for
    the candidates before it only. *)
Lemma try_candidates_resolved env token url p post size :
  (0 < size)%N ->
  forall pre w, fs w !! p = Some (File size) ->
  exists t,
    trace (try_candidates env token (pre ++ (url, p) :: post) w).2
    = (trace w ++ t)%list
    /\ Forall (fun x => x ∈ map fst pre) (fetched_urls t).
Proof.
  intros Hsize pre. induction pre as [| [u0 q] pre IH]; intros w Hp.
  - cbn [app]. rewrite try_candidates_cons.
    pose proof (local_ready_cases env p w) as Hr. rewrite Hp in Hr.
    destruct (getsize_fails env p); rewrite Hr.
    + exists []. split; [simpl; now rewrite app_nil_r | constructor].
    + replace (0 <? size)%N with true by (symmetry; now apply N.ltb_lt).
      eexists. split; [reflexivity | constructor].
  - cbn [app]. rewrite try_candidates_cons.
    pose proof (local_ready_cases env q w) as Hr.
    assert (Hcases :
      (exists t, local_ready env q w = (Ok true, w) \/ local_ready env q w = (Raise t, w))
      \/ (local_ready env q w = (Ok false, w) /\ q <> p)).
    { destruct (fs w !! q) as [[| sz] |] eqn:Eq.
      - right. split; [exact Hr | congruence].
      - destruct (getsize_fails env q).
        + left. exists OSError. now right.
        + destruct (0 <? sz)%N eqn:Esz.
          * left. exists OSError. now left.
          * right. split; [exact Hr |]. intros ->. rewrite Hp in Eq.
            injection Eq as ->. apply N.ltb_ge in Esz. lia.
      - right. split; [exact Hr | congruence]. }
    destruct Hcases as [[ex [E | E]] | [E Hne]]; rewrite E.
    + eexists. split; [reflexivity | constructor].
    + exists []. split; [simpl; now rewrite app_nil_r | constructor].
    + destruct (download_attempts_fetches_only env u0 q token MAX_RETRIES
                  (py_range 1 (MAX_RETRIES + 1)) w) as (t1 & Et1 & F1).
      pose proof (download_attempts_keeps env u0 q token MAX_RETRIES
                    (py_range 1 (MAX_RETRIES + 1)) w p size (not_eq_sym Hne) Hp) as Hk.
      fold (download_file env u0 q token MAX_RETRIES) in Et1, Hk.
      destruct (download_file env u0 q token MAX_RETRIES w) as [[success | ex] w2].
      * assert (F1' : Forall (fun x => x ∈ map fst ((u0, q) :: pre)) (fetched_urls t1)).
        { eapply Forall_impl; [exact F1 |]. intros x ->. simpl. apply elem_of_cons. now left. }
        destruct (truthy success).
        -- exists t1. split; [exact Et1 | exact F1'].
        -- destruct (IH w2 Hk) as (t2 & Et2 & F2).
           exists (t1 ++ t2)%list. split.
           ++ rewrite Et2. simpl in Et1. rewrite Et1. now rewrite app_assoc.
           ++ rewrite fetched_urls_app. apply Forall_app. split; [exact F1' |].
              eapply Forall_impl; [exact F2 |]. intros x Hx. simpl.
              apply elem_of_cons. now right.
      * exists t1. split; [exact Et1 |].
        eapply Forall_impl; [exact F1 |]. intros x ->. simpl. apply elem_of_cons. now left.
Qed.

Lemma keeps_nonempty_files_refl w : keeps_nonempty_files w w.
Proof. intros r n _ H. exact H. Qed.

Lemma keeps_nonempty_files_trans a b c :
  keeps_nonempty_files a b -> keeps_nonempty_files b c -> keeps_nonempty_files a c.
Proof. intros H1 H2 r n Hn H. apply H2, H1; assumption. Qed.

Lemma try_candidates_keeps_nonempty env token candidates :
  steps keeps_nonempty_files (try_candidates env token candidates).
Proof.
  induction candidates as [| [url q] rest IH]; intros w.
  - apply keeps_nonempty_files_refl.
  - rewrite try_candidates_cons.
    pose proof (local_ready_cases env q w) as Hr.
    destruct (fs w !! q) as [[| sz] |] eqn:Eq.
    1, 3: rewrite Hr;
      pose proof (download_attempts_keeps env url q token MAX_RETRIES
                    (py_range 1 (MAX_RETRIES + 1)) w) as Hk;
      fold (download_file env url q token MAX_RETRIES) in Hk;
      destruct (download_file env url q token MAX_RETRIES w) as [[success | ex] w2];
      simpl in Hk;
      assert (Hkeep : keeps_nonempty_files w w2)
        by (intros r n Hn H; apply Hk; [congruence | exact H]);
      [destruct (truthy success); [exact Hkeep |];
       eapply keeps_nonempty_files_trans; [exact Hkeep | apply IH]
      | exact Hkeep].
    destruct (getsize_fails env q); rewrite Hr; [apply keeps_nonempty_files_refl |].
    destruct (0 <? sz)%N eqn:Esz; [intros r n _ H; exact H |].
    pose proof (download_attempts_keeps env url q token MAX_RETRIES
                  (py_range 1 (MAX_RETRIES + 1)) w) as Hk.
    fold (download_file env url q token MAX_RETRIES) in Hk.
    destruct (download_file env url q token MAX_RETRIES w) as [[success | ex] w2];
      simpl in Hk.
    + assert (Hkeep : keeps_nonempty_files w w2).
      { intros r n Hn H. apply Hk; [| exact H]. intros ->. rewrite Eq in H.
        injection H as ->. apply N.ltb_ge in Esz. lia. }
      destruct (truthy success); [exact Hkeep |].
      eapply keeps_nonempty_files_trans; [exact Hkeep | apply IH].
    + intros r n Hn H. apply Hk; [| exact H]. intros ->. rewrite Eq in H.
      injection H as ->. apply N.ltb_ge in Esz. lia.
Qed.

Lemma download_for_date_station_keeps_nonempty env station d token rinex_root dry_run :
  steps keeps_nonempty_files
        (download_for_date_station env station d token rinex_root dry_run).
Proof.
  intros w. destruct dry_run.
  - destruct (download_for_date_station_dry_run env station d token rinex_root w)
      as (c & rest & _ & E).
    rewrite E. intros r n _ H. exact H.
  - rewrite download_for_date_station_normal.
    pose proof (try_candidates_keeps_nonempty env token
                  (generate_rinex_url_and_path station d rinex_root) w) as Hk.
    destruct (try_candidates env token _ w) as [[[p |] | ex] w1]; try exact Hk.
    destruct (generate_rinex_url_and_path station d rinex_root); exact Hk.
Qed.

(** A successful attempt leaves the downloaded body in the local file. *)
Lemma attempt_once_success env url local_path token attempt w w' :
  attempt_once env url local_path token attempt w = (Ok true, w') ->
  fs w' !! local_path = Some (File (body_size (net env url attempt))).
Proof.
  unfold attempt_once. unfold bind at 1. unfold emit at 1.
  set (w0 := World (fs w) (trace w ++ [EvFetch url token])).
  destruct (http_status (net env url attempt)) as [status |]; [| discriminate].
  destruct (status =? 200).
  - unfold bind at 1.
    destruct (ensure_directory (net env url attempt) local_path w0) as [[[] | ex] w1];
      [| discriminate].
    unfold bind at 1.
    destruct (open_wb (net env url attempt) local_path w1) as [[[] | ex] w2];
      [| discriminate].
    unfold bind at 1. unfold stream_body.
    destruct (stream_fails (net env url attempt)).
    + unfold bind, modify_fs, emit, raise. simpl. discriminate.
    + unfold bind, modify_fs, emit, log, ret. simpl. intros H. injection H as <-.
      simpl. apply lookup_insert_eq.
  - destruct (status =? 404).
    + unfold bind, log, emit, ret. simpl. discriminate.
    + unfold bind at 1. unfold log at 1, emit at 1.
      destruct ((500 <=? status) && (status <? 600)); discriminate.
Qed.

Lemma download_attempts_success env url local_path token max_retries attempts w w' :
  download_attempts env url local_path token max_retries attempts w
  = (Ok (PyBool true), w') ->
  exists size, fs w' !! local_path = Some (File size).
Proof.
  revert w. induction attempts as [| k rest IH]; intros w.
  - simpl. unfold ret. discriminate.
  - rewrite download_attempts_cons.
    destruct (attempt_once env url local_path token k w) as [[[] | ex] w1] eqn:E.
    + intros H. injection H as <-. eauto using attempt_once_success.
    + discriminate.
    + destruct (k <? max_retries); [apply IH | discriminate].
Qed.

Lemma try_candidates_success env token candidates w p w' :
  try_candidates env token candidates w = (Ok (Some p), w') ->
  p ∈ map snd candidates /\ exists size, fs w' !! p = Some (File size).
Proof.
  revert w. induction candidates as [| [url q] rest IH]; intros w.
  - simpl. unfold ret. discriminate.
  - rewrite try_candidates_cons.
    pose proof (local_ready_cases env q w) as Hr.
    destruct (local_ready env q w) as [[[] | ex] w1] eqn:E.
    + intros H. injection H as <- <-. split; [simpl; apply elem_of_cons; now left |].
      destruct (fs w !! q) as [[| sz] |] eqn:Eq; try discriminate.
      destruct (getsize_fails env q); [discriminate |].
      injection Hr as _ <-. simpl. eauto.
    + destruct (download_file env url q token MAX_RETRIES w1)
        as [[[[] |] | ex] w2] eqn:Ed; simpl.
      * intros H. injection H as <- <-.
        split; [simpl; apply elem_of_cons; now left |].
        eapply download_attempts_success. exact Ed.
      * intros H. apply IH in H as [Hin Hsz]. split; [| exact Hsz].
        simpl. apply elem_of_cons. now right.
      * intros H. apply IH in H as [Hin Hsz]. split; [| exact Hsz].
        simpl. apply elem_of_cons. now right.
      * discriminate.
    + discriminate.
Qed.

(** C3 (as stated) fails: a unit that succeeded on the first run through its
    second candidate sends a request for its first candidate again on the
    second run, because that candidate's local file does not exist. *)
Lemma second_run_fetch_counterexample :
  ~ (forall env stations start_date end_date out_root station_periods max_workers
            w results1 w1 results2 w2,
       download_rinex_batch env stations start_date end_date out_root
         station_periods max_workers false w = (Ok results1, w1) ->
       download_rinex_batch env stations start_date end_date out_root
         station_periods max_workers false (World (fs w1) []) = (Ok results2, w2) ->
       forall st d p c,
         (st, d, Some p, true) ∈ results1 ->
         c ∈ generate_rinex_url_and_path st d out_root ->
         c.1 ∉ fetched_urls (trace w2)).
Proof.
  intros H.
  pose (run1 := download_rinex_batch uppercase_only_env ["Y"] (ymd 2021 6 1)
                  (ymd 2021 6 1) "out" ∅ MAX_WORKERS_DEFAULT false empty_world).
  pose (run2 := download_rinex_batch uppercase_only_env ["Y"] (ymd 2021 6 1)
                  (ymd 2021 6 1) "out" ∅ MAX_WORKERS_DEFAULT false
                  (World (fs run1.2) [])).
  assert (E1 : run1 = (Ok [("Y", ymd 2021 6 1, Some "out/2021/152/Y15200.21d.Z", true)],
                       run1.2)) by (vm_compute; reflexivity).
  assert (E2 : run2 = (Ok [("Y", ymd 2021 6 1, Some "out/2021/152/Y15200.21d.Z", true)],
                       run2.2)) by (vm_compute; reflexivity).
  apply (H _ _ _ _ _ _ _ _ _ _ _ _ E1 E2 "Y" (ymd 2021 6 1)
           "out/2021/152/Y15200.21d.Z"
           (ARCHIVE_URL +:+ "2021/152/y15200.21d.Z", "out/2021/152/y15200.21d.Z")).
  - apply list_elem_of_In. left. reflexivity.
  - apply list_elem_of_In. vm_compute. left. reflexivity.
  - apply list_elem_of_In. vm_compute. left. reflexivity.
Qed.

(** C3 (amended). A unit that succeeded on a first run did so at one of its
    candidates and left a file at that candidate's local path. If that file
    has a size above zero then, in any later state in which the files that
    hold data are still there, resolving the unit again sends requests only
    for the candidates ordered before the resolved one, and none at all
    when the resolved candidate is the first. Units never modify a file
    whose size is above zero, so such a state is what any sequence of units
    leaves behind. *)
Theorem second_run_fetches_only_earlier_candidates
    env1 station d token rinex_root w0 p w1 :
  download_for_date_station env1 station d token rinex_root false w0
  = (Ok (p, true), w1) ->
  let candidates := generate_rinex_url_and_path station d rinex_root in
  p ∈ map snd candidates
  /\ (exists size,
        fs w1 !! p = Some (File size)
        /\ ((0 < size)%N ->
            forall env2 w2 pre url post,
              keeps_nonempty_files w1 w2 ->
              candidates = (pre ++ (url, p) :: post)%list ->
              exists t,
                trace (download_for_date_station env2 station d token rinex_root
                         false w2).2 = (trace w2 ++ t)%list
                /\ Forall (fun x => x ∈ map fst pre) (fetched_urls t)
                /\ (pre = [] -> fetched_urls t = [])))
  /\ (forall env st' d' root' dry_run w,
        keeps_nonempty_files
          w (download_for_date_station env st' d' token root' dry_run w).2).
Proof.
  intros Hrun candidates.
  rewrite download_for_date_station_normal in Hrun. fold candidates in Hrun.
  assert (Htry : try_candidates env1 token candidates w0 = (Ok (Some p), w1)).
  { destruct (try_candidates env1 token candidates w0) as [[[p0 |] | ex] w'].
    - now injection Hrun as -> ->.
    - destruct candidates; discriminate.
    - discriminate. }
  destruct (try_candidates_success _ _ _ _ _ _ Htry) as (Hin & size & Hsize).
  split; [exact Hin |]. split.
  - exists size. split; [exact Hsize |].
    intros Hpos env2 w2 pre url post Hkeep Hsplit.
    destruct (try_candidates_resolved env2 token url p post size Hpos pre w2
                (Hkeep p size Hpos Hsize)) as (t & Et & Ft).
    rewrite <- Hsplit in Et.
    assert (Hnil : forall t' : list event,
               Forall (fun x => x ∈ map fst pre) (fetched_urls t') ->
               pre = [] -> fetched_urls t' = []).
    { intros t' Ht' ->. destruct (fetched_urls t') as [| x l]; [reflexivity |].
      inversion Ht' as [| ? ? Hx _]. simpl in Hx. now apply elem_of_nil in Hx. }
    rewrite download_for_date_station_normal. fold candidates.
    destruct (try_candidates env2 token candidates w2) as [[[p2 |] | ex] w'].
    + exists t. split; [exact Et |]. split; [exact Ft | now apply Hnil].
    + assert (Ft' : Forall (fun x => x ∈ map fst pre)
                      (fetched_urls (t ++ [EvLog DEBUG (AllVariantsFailed station d)]))).
      { rewrite fetched_urls_app. simpl. now rewrite app_nil_r. }
      exists (t ++ [EvLog DEBUG (AllVariantsFailed station d)])%list.
      split; [| split; [exact Ft' | now apply Hnil]].
      simpl in Et. destruct candidates; simpl; rewrite Et; now rewrite app_assoc.
    + exists t. split; [exact Et |]. split; [exact Ft | now apply Hnil].
  - intros env st' d' root' dry_run w.
    apply download_for_date_station_keeps_nonempty.
Qed.

Lemma second_run_fetches_only_earlier_candidates_witness :
  let w1 := (download_for_date_station uppercase_only_env "Y" (ymd 2021 6 1) "tok" "out"
               false empty_world).2 in
  exists t,
    trace (download_for_date_station uppercase_only_env "Y" (ymd 2021 6 1) "tok" "out"
             false w1).2 = (trace w1 ++ t)%list
    /\ Forall (fun x => x ∈ [ARCHIVE_URL +:+ "2021/152/y15200.21d.Z"]) (fetched_urls t).
Proof.
  intros w1.
  destruct (second_run_fetches_only_earlier_candidates uppercase_only_env "Y"
              (ymd 2021 6 1) "tok" "out" empty_world "out/2021/152/Y15200.21d.Z" w1)
    as (_ & (size & Hsize & Hsecond) & _).
  - vm_compute. reflexivity.
  - vm_compute in Hsize. injection Hsize as <-.
    destruct (Hsecond eq_refl uppercase_only_env w1
                [(ARCHIVE_URL +:+ "2021/152/y15200.21d.Z", "out/2021/152/y15200.21d.Z")]
                (ARCHIVE_URL +:+ "2021/152/Y15200.21d.Z") [])
      as (t & Et & Ft & _).
    + intros r n _ H. exact H.
    + vm_compute. reflexivity.
    + exists t. split; [exact Et | exact Ft].
Defined.

(** The size check has a second consequence: a candidate answered with 200
    and an empty body makes the unit succeed and leaves a file of size
    zero, which the next run does not accept, so it sends the request
    again. *)
Lemma second_run_refetches_empty_file :
  let run1 := download_for_date_station empty_body_env "Y" (ymd 2021 6 1) "tok" "out"
                false empty_world in
  let run2 := download_for_date_station empty_body_env "Y" (ymd 2021 6 1) "tok" "out"
                false (World (fs run1.2) []) in
  run1.1 = Ok ("out/2021/152/y15200.21d.Z", true)
  /\ fs run1.2 !! "out/2021/152/y15200.21d.Z" = Some (File 0)
  /\ fetched_urls (trace run2.2) = [ARCHIVE_URL +:+ "2021/152/y15200.21d.Z"].
Proof. vm_compute. repeat split. Qed.

(* ===================================================================== *)
(** ** Further properties of the fetch executor                          *)
(* ===================================================================== *)

Lemma download_attempts_returns env url local_path token max_retries :
  forall (n : nat) (a : Z) (w : world),
    Z.of_nat n = max_retries + 1 - a -> 1 <= a <= max_retries ->
    exists b w',
      download_attempts env url local_path token max_retries
        (py_range a (max_retries + 1)) w = (Ok (PyBool b), w').
Proof.
  intros n. induction n as [| n IH]; intros a w Hn Ha; [lia |].
  rewrite py_range_cons by lia. rewrite download_attempts_cons.
  destruct (attempt_once env url local_path token a w) as [[b | ex] w1]; [eauto |].
  destruct (a <? max_retries) eqn:Elt; [| eauto].
  apply Z.ltb_lt in Elt. apply IH; lia.
Qed.

(** X1. [download_file] never lets an exception escape: whatever the
    network and the disk do, it returns. With [max_retries >= 1] the value
    is a boolean; with [max_retries < 1] the loop body never runs, nothing
    is requested or logged, and the value is [None]. *)
Theorem download_file_never_raises env url local_path token max_retries w :
  (1 <= max_retries ->
   exists b w', download_file env url local_path token max_retries w
                = (Ok (PyBool b), w'))
  /\ (max_retries < 1 ->
      download_file env url local_path token max_retries w = (Ok PyNone, w)).
Proof.
  split; intros Hm.
  - unfold download_file.
    apply (download_attempts_returns env url local_path token max_retries
             (Z.to_nat max_retries) 1 w); lia.
  - unfold download_file, py_range.
    replace (Z.to_nat (max_retries + 1 - 1)) with 0%nat by lia. reflexivity.
Qed.

Lemma download_file_never_raises_witness :
  download_file unreachable_env "u" "out/f" "tok" 0 empty_world
  = (Ok PyNone, empty_world).
Proof.
  apply (download_file_never_raises unreachable_env "u" "out/f" "tok" 0 empty_world).
  lia.
Defined.

Lemma append_empty_r (s : string) : s +:+ "" = s.
Proof.
  induction s as [| c s IH]; [reflexivity |].
  rewrite append_cons. f_equal. exact IH.
Qed.

Lemma length_append (a b : string) :
  String.length (a +:+ b) = (String.length a + String.length b)%nat.
Proof.
  induction a as [| c a IH]; [reflexivity |].
  rewrite append_cons. simpl. now rewrite IH.
Qed.

Lemma upto_last_sep_prefix (p : string) : exists r, p = upto_last_sep p +:+ r.
Proof.
  induction p as [| c p [r IH]]; [exists ""; reflexivity |].
  simpl. destruct (contains_sep p).
  - exists r. rewrite append_cons. now rewrite <- IH.
  - destruct (is_sep c); [exists p | exists (String c p)]; reflexivity.
Qed.

Lemma rstrip_sep_prefix (s : string) : exists r, s = rstrip_sep s +:+ r.
Proof.
  induction s as [| c s [r IH]]; [exists ""; reflexivity |].
  simpl. destruct (is_sep c && String.eqb (rstrip_sep s) "").
  - exists (String c s). reflexivity.
  - exists r. rewrite append_cons. now rewrite <- IH.
Qed.

Lemma dirname_prefix (p : string) : exists r, p = dirname p +:+ r.
Proof.
  unfold dirname. destruct (upto_last_sep_prefix p) as [r1 H1].
  destruct (negb (String.eqb (upto_last_sep p) "") && negb (all_sep (upto_last_sep p)));
    [| exists r1; exact H1].
  destruct (rstrip_sep_prefix (upto_last_sep p)) as [r2 H2].
  exists (r2 +:+ r1). rewrite <- append_assoc, <- H2. exact H1.
Qed.

Lemma dirname_length (p : string) :
  (String.length (dirname p) <= String.length p)%nat
  /\ (dirname p <> p -> (String.length (dirname p) < String.length p)%nat).
Proof.
  destruct (dirname_prefix p) as [r H].
  assert (Hlen : String.length p
                 = (String.length (dirname p) + String.length r)%nat)
    by (rewrite H at 1; apply length_append).
  split; [lia |]. intros Hne. destruct r as [| c r].
  - rewrite append_empty_r in H. congruence.
  - simpl in Hlen. lia.
Qed.

Lemma makedirs_fs_elsewhere fuel (p : string) :
  forall dirpath (f : gmap string node),
    (String.length dirpath < String.length p)%nat ->
    makedirs_fs fuel dirpath f !! p = f !! p.
Proof.
  induction fuel as [| k IH]; intros dirpath f Hlen; simpl; [reflexivity |].
  destruct (String.eqb dirpath ""); [reflexivity |].
  rewrite IH by (pose proof (dirname_length dirpath); lia).
  destruct (f !! dirpath); [reflexivity |].
  apply lookup_insert_ne. intros ->. lia.
Qed.

Lemma makedirs_fs_creates fuel dirpath (f : gmap string node) :
  dirpath <> "" -> f !! dirpath = None ->
  makedirs_fs (S fuel) dirpath f !! dirpath = Some Dir.
Proof.
  intros Hne Hnone. simpl. apply String.eqb_neq in Hne. rewrite Hne, Hnone.
  apply makedirs_fs_keeps, lookup_insert_eq.
Qed.

(** X2. [ensure_directory] creates the parent directory of a path only when
    nothing exists there. When something exists it does nothing at all;
    otherwise it either raises (the creation fails, or the path has no
    directory part), having logged the error and changed nothing, or it
    leaves the parent registered as a directory and every entry that
    existed before as it was. *)
Theorem ensure_directory_spec (e : attempt_env) (path : string) (w : world) :
  let dirpath := dirname path in
  match fs w !! dirpath with
  | Some _ => ensure_directory e path w = (Ok tt, w)
  | None =>
      if mkdir_fails e || String.eqb dirpath "" then
        ensure_directory e path w
        = (Raise OSError,
           events_after w [EvLog ERROR (FailedToCreateDirectory dirpath)])
      else
        exists f',
          ensure_directory e path w
          = (Ok tt,
             World f' (trace w ++ [EvMkdir dirpath;
                                   EvLog DEBUG (CreatedDirectory dirpath)]))
          /\ f' !! dirpath = Some Dir
          /\ (forall q x, fs w !! q = Some x -> f' !! q = Some x)
          /\ (dirpath <> path -> f' !! path = fs w !! path)
  end.
Proof.
  intros dirpath.
  assert (E : ensure_directory e path w
              = match fs w !! dirpath with
                | Some _ => (Ok tt, w)
                | None =>
                    try_except
                      (makedirs e dirpath ;;; log DEBUG (CreatedDirectory dirpath))
                      (fun ex => log ERROR (FailedToCreateDirectory dirpath) ;;; raise ex)
                      w
                end).
  { unfold ensure_directory, bind at 1, get_fs. cbv beta iota. fold dirpath.
    destruct (fs w !! dirpath); reflexivity. }
  rewrite E. clear E.
  destruct (fs w !! dirpath) eqn:Ed; [reflexivity |].
  unfold try_except, makedirs.
  destruct (mkdir_fails e || String.eqb dirpath "") eqn:Ef.
  - unfold bind, raise, log, emit, events_after. reflexivity.
  - apply orb_false_iff in Ef as [_ Hne]. apply String.eqb_neq in Hne.
    eexists. split; [| split; [| split]].
    + unfold bind, modify_fs, log, emit. cbn [fs trace].
      rewrite <- app_assoc. reflexivity.
    + now apply makedirs_fs_creates.
    + intros q x Hq. now apply makedirs_fs_keeps.
    + intros Hp. destruct (dirname_length path) as [_ Hlt].
      fold dirpath in Hlt. specialize (Hlt Hp).
      cbn [makedirs_fs]. apply String.eqb_neq in Hne. rewrite Hne, Ed.
      rewrite makedirs_fs_elsewhere by (pose proof (dirname_length dirpath); lia).
      apply lookup_insert_ne. exact Hp.
Qed.

Lemma ensure_directory_spec_witness :
  exists f',
    ensure_directory (AttemptEnv (Some 200) 10 false false None) "out/2021/152/f"
      empty_world
    = (Ok tt, World f' [EvMkdir "out/2021/152";
                        EvLog DEBUG (CreatedDirectory "out/2021/152")])
    /\ f' !! "out/2021/152" = Some Dir
    /\ (forall q x, fs empty_world !! q = Some x -> f' !! q = Some x)
    /\ ("out/2021/152" <> "out/2021/152/f" ->
        f' !! "out/2021/152/f" = fs empty_world !! "out/2021/152/f").
Proof.
  exact (ensure_directory_spec (AttemptEnv (Some 200) 10 false false None)
           "out/2021/152/f" empty_world).
Defined.

Lemma open_wb_ok (e : attempt_env) (path : string) (w : world) :
  open_fails e = false ->
  fs w !! path <> Some Dir ->
  fs w !! dirname path = Some Dir ->
  open_wb e path w
  = (Ok tt, World (<[path := File 0%N]> (fs w)) (trace w ++ [EvOpenWrite path])).
Proof.
  intros Hop Hp Hd. unfold open_wb, bind at 1, get_fs. cbv beta iota.
  rewrite Hd, Hop.
  destruct (fs w !! path) as [[] |]; try contradiction; reflexivity.
Qed.

Lemma stream_body_ok (e : attempt_env) (path : string) (w : world) :
  stream_fails e = None ->
  stream_body e path w
  = (Ok tt, World (<[path := File (body_size e)]> (fs w))
                  (trace w ++ [EvWrite path (body_size e)])).
Proof. intros Hs. unfold stream_body. rewrite Hs. reflexivity. Qed.

Lemma ancestors_upto_fuel (n : nat) :
  forall (q : string) (m : nat),
    (String.length q <= n)%nat -> (String.length q <= m)%nat ->
    ancestors_upto n q = ancestors_upto m q.
Proof.
  induction n as [| n IH]; intros q m Hn Hm.
  - destruct q; [| simpl in Hn; lia]. destruct m; reflexivity.
  - destruct m as [| m].
    + destruct q; [reflexivity | simpl in Hm; lia].
    + cbn [ancestors_upto].
      destruct (String.eqb (dirname q) "" || String.eqb (dirname q) q) eqn:E;
        [reflexivity |].
      apply orb_false_iff in E as [_ E]. apply String.eqb_neq in E.
      destruct (dirname_length q) as [_ Hlt]. specialize (Hlt E).
      f_equal. apply IH; lia.
Qed.

(** The directories above a path are its parent and the directories above
    the parent. *)
Lemma ancestors_unfold (path : string) :
  dirname path <> path -> dirname path <> "" ->
  ancestors path = dirname path :: ancestors (dirname path).
Proof.
  intros Hp Hne. unfold ancestors.
  destruct (dirname_length path) as [_ Hlt]. specialize (Hlt Hp).
  destruct (String.length path) as [| n] eqn:El; [lia |].
  cbn [ancestors_upto].
  apply String.eqb_neq in Hp, Hne. rewrite Hp, Hne. cbn [orb].
  f_equal. apply ancestors_upto_fuel; lia.
Qed.

Lemma writable_parent (f : gmap string node) (path : string) :
  writable f path ->
  f !! path <> Some Dir
  /\ dirname path <> path /\ dirname path <> ""
  /\ (f !! dirname path = None \/ f !! dirname path = Some Dir).
Proof.
  intros (Hnd & Hpp & Hne & Hanc). repeat split; try assumption.
  apply Hanc. rewrite ancestors_unfold by assumption. apply elem_of_cons. now left.
Qed.

Lemma ensure_directory_exists (e : attempt_env) (path : string) (w : world) x :
  fs w !! dirname path = Some x -> ensure_directory e path w = (Ok tt, w).
Proof.
  intros H. unfold ensure_directory, bind at 1, get_fs. cbv beta iota.
  rewrite H. reflexivity.
Qed.

Lemma ensure_directory_creates (e : attempt_env) (path : string) (w : world) :
  mkdir_fails e = false ->
  dirname path <> "" -> dirname path <> path ->
  fs w !! dirname path = None ->
  exists f',
    ensure_directory e path w
    = (Ok tt, World f' (trace w ++ [EvMkdir (dirname path);
                                    EvLog DEBUG (CreatedDirectory (dirname path))]))
    /\ f' !! dirname path = Some Dir
    /\ f' !! path = fs w !! path
    /\ (forall q x, fs w !! q = Some x -> f' !! q = Some x).
Proof.
  intros Hmk Hne Hpp Hd.
  exists (makedirs_fs (S (String.length (dirname path))) (dirname path) (fs w)).
  split; [| split; [| split]].
  - unfold ensure_directory, bind at 1, get_fs. cbv beta iota. rewrite Hd.
    unfold try_except, makedirs. rewrite Hmk.
    apply String.eqb_neq in Hne. rewrite Hne. cbn [orb].
    unfold bind, modify_fs, log, emit. cbn [fs trace].
    rewrite <- app_assoc. reflexivity.
  - now apply makedirs_fs_creates.
  - destruct (dirname_length path) as [_ Hlt]. specialize (Hlt Hpp).
    cbn [makedirs_fs]. apply String.eqb_neq in Hne. rewrite Hne, Hd.
    rewrite makedirs_fs_elsewhere by (pose proof (dirname_length (dirname path)); lia).
    apply lookup_insert_ne. exact Hpp.
  - intros q x Hq. now apply makedirs_fs_keeps.
Qed.

(** A clean answer on a writable path: the attempt returns [True]; the file
    holds the body, its parent is a directory, and nothing else changed. *)
Lemma attempt_once_clean env url local_path token attempt w :
  clean_download (net env url attempt) ->
  writable (fs w) local_path ->
  exists w',
    attempt_once env url local_path token attempt w = (Ok true, w')
    /\ fs w' !! local_path = Some (File (body_size (net env url attempt)))
    /\ fs w' !! dirname local_path = Some Dir
    /\ only_writes local_path w w'.
Proof.
  intros (Hs & Hmk & Hop & Hst) Hw.
  destruct (writable_parent _ _ Hw) as (Hnd & Hpp & Hne & Hdir).
  set (e := net env url attempt) in *.
  set (w0 := World (fs w) (trace w ++ [EvFetch url token])).
  assert (Hens : exists f1 t1,
             ensure_directory e local_path w0 = (Ok tt, World f1 t1)
             /\ f1 !! dirname local_path = Some Dir
             /\ f1 !! local_path = fs w !! local_path
             /\ forall q x, fs w !! q = Some x -> f1 !! q = Some x).
  { destruct Hdir as [Hd | Hd].
    - destruct (ensure_directory_creates e local_path w0 Hmk Hne Hpp Hd)
        as (f' & E & H1 & H2 & H3).
      eexists f', _. split; [exact E |]. auto.
    - exists (fs w), (trace w0). split; [| auto].
      now apply (ensure_directory_exists e local_path w0 Dir). }
  destruct Hens as (f1 & t1 & Eens & Hd1 & Hp1 & Hkeep1).
  assert (E : attempt_once env url local_path token attempt w
              = (Ok true,
                 World (<[local_path := File (body_size e)]>
                          (<[local_path := File 0%N]> f1))
                       (((t1 ++ [EvOpenWrite local_path])
                         ++ [EvWrite local_path (body_size e)])
                        ++ [EvLog INFO (Downloaded url)]))).
  { unfold attempt_once. fold e. rewrite Hs. cbn [Z.eqb Pos.eqb].
    unfold bind at 1. unfold emit at 1. fold w0.
    unfold bind at 1. rewrite Eens.
    unfold bind at 1. rewrite open_wb_ok; cbn [fs trace]; auto.
    2: { rewrite Hp1. exact Hnd. }
    unfold bind at 1. rewrite stream_body_ok by exact Hst. cbn [fs trace].
    reflexivity. }
  eexists. split; [exact E |]. cbn [fs]. split; [| split].
  - apply lookup_insert_eq.
  - rewrite !lookup_insert_ne by congruence. exact Hd1.
  - intros q x Hq Hx. cbn [fs]. rewrite !lookup_insert_ne by congruence.
    now apply Hkeep1.
Qed.

Lemma only_writes_refl p w : only_writes p w w.
Proof. intros q x _ H. exact H. Qed.

Lemma only_writes_trans p a b c :
  only_writes p a b -> only_writes p b c -> only_writes p a c.
Proof. intros H1 H2 q x Hq H. apply H2, H1; assumption. Qed.

Lemma download_attempts_recovers env url local_path token max_retries k :
  1 <= k <= max_retries ->
  (forall j, 1 <= j < k -> transient_failure (net env url j)) ->
  clean_download (net env url k) ->
  forall (n : nat) (a : Z) (w : world),
    Z.of_nat n = k - a -> 1 <= a ->
    writable (fs w) local_path ->
    exists w' t,
      download_attempts env url local_path token max_retries
        (py_range a (max_retries + 1)) w = (Ok (PyBool true), w')
      /\ trace w' = (trace w ++ t)%list
      /\ fetched_urls t = repeat url (S n)
      /\ sleeps t = repeat RETRY_BACKOFF_SEC n
      /\ fs w' !! local_path = Some (File (body_size (net env url k)))
      /\ only_writes local_path w w'.
Proof.
  intros Hk Htr Hclean n. induction n as [| n IH]; intros a w Hn Ha Hw.
  - assert (a = k) by lia. subst a.
    rewrite py_range_cons by lia. rewrite download_attempts_cons.
    destruct (attempt_once_clean env url local_path token k w Hclean Hw)
      as (w' & E & Hfile & _ & Hkeep).
    destruct (attempt_once_trace env url local_path token k w) as (t1 & Et & Q1 & Q2).
    rewrite E in Et |- *. cbn [snd] in Et.
    exists w', (EvFetch url token :: t1).
    split; [reflexivity |]. split; [exact Et |].
    cbn [fetched_urls sleeps flat_map app]. fold (fetched_urls t1) (sleeps t1).
    rewrite Q1, Q2. auto.
  - rewrite py_range_cons by lia. rewrite download_attempts_cons.
    destruct (attempt_once_transient env url local_path token a w (Htr a ltac:(lia)))
      as (ex & t0 & E).
    destruct (attempt_once_trace env url local_path token a w) as (t1 & Et & Q1 & Q2).
    rewrite E in Et |- *. cbn [snd events_after trace] in Et.
    apply app_inv_head in Et. subst t0.
    replace (a <? max_retries) with true by (symmetry; apply Z.ltb_lt; lia).
    destruct (IH (a + 1)
                (events_after (events_after w (EvFetch url token :: t1))
                   [EvLog WARNING (AttemptFailed a url ex);
                    EvLog INFO (RetryingAfter RETRY_BACKOFF_SEC);
                    EvSleep RETRY_BACKOFF_SEC]))
      as (w' & t2 & E2 & Et2 & F2 & S2 & Hfile & Hkeep); [lia | lia | exact Hw |].
    exists w', ((EvFetch url token :: t1)
                ++ [EvLog WARNING (AttemptFailed a url ex);
                    EvLog INFO (RetryingAfter RETRY_BACKOFF_SEC);
                    EvSleep RETRY_BACKOFF_SEC] ++ t2)%list.
    split; [exact E2 |]. split; [| split; [| split; [| split; [exact Hfile | exact Hkeep]]]].
    + rewrite Et2. cbn [events_after trace]. now rewrite <- !app_assoc.
    + rewrite !fetched_urls_app, F2.
      change (fetched_urls (EvFetch url token :: t1)) with (url :: fetched_urls t1).
      rewrite Q1. reflexivity.
    + rewrite !sleeps_app, S2.
      change (sleeps (EvFetch url token :: t1)) with (sleeps t1).
      rewrite Q2. reflexivity.
Qed.

(** X3. Retry works: when the first [k - 1] attempts fail transiently,
    attempt [k <= max_retries] is answered with 200 while the operating
    system refuses none of the local calls (directory creation, opening,
    writing), and the local path is writable (it is not a directory, it has
    a parent directory part, and no directory above it is a regular file),
    [download_file] returns [True] after exactly [k] requests and [k - 1]
    delays; the local file then holds the body of that answer, and no other
    entry of the filesystem was removed or replaced. *)
Theorem download_file_recovers env url local_path token max_retries k w :
  1 <= k <= max_retries ->
  (forall j, 1 <= j < k -> transient_failure (net env url j)) ->
  clean_download (net env url k) ->
  writable (fs w) local_path ->
  exists w' t,
    download_file env url local_path token max_retries w = (Ok (PyBool true), w')
    /\ trace w' = (trace w ++ t)%list
    /\ fetched_urls t = repeat url (Z.to_nat k)
    /\ sleeps t = repeat RETRY_BACKOFF_SEC (Z.to_nat k - 1)
    /\ fs w' !! local_path = Some (File (body_size (net env url k)))
    /\ only_writes local_path w w'.
Proof.
  intros Hk Htr Hclean Hw. unfold download_file.
  destruct (download_attempts_recovers env url local_path token max_retries k
              Hk Htr Hclean (Z.to_nat (k - 1)) 1 w ltac:(lia) ltac:(lia) Hw)
    as (w' & t & E & Et & F & Hsl & Hfile & Hkeep).
  exists w', t. split; [exact E |]. split; [exact Et |].
  replace (Z.to_nat k) with (S (Z.to_nat (k - 1))) by lia.
  replace (S (Z.to_nat (k - 1)) - 1)%nat with (Z.to_nat (k - 1)) by lia.
  auto.
Qed.

Lemma download_file_recovers_witness :
  exists w' t,
    download_file flaky_env "u" "out/2021/152/f" "tok" MAX_RETRIES empty_world
    = (Ok (PyBool true), w')
    /\ trace w' = (trace empty_world ++ t)%list
    /\ fetched_urls t = ["u"; "u"]
    /\ sleeps t = [RETRY_BACKOFF_SEC]
    /\ fs w' !! "out/2021/152/f" = Some (File 10)
    /\ only_writes "out/2021/152/f" empty_world w'.
Proof.
  apply (download_file_recovers flaky_env "u" "out/2021/152/f" "tok" MAX_RETRIES 2
           empty_world).
  - unfold MAX_RETRIES. lia.
  - intros j Hj. assert (j = 1) by lia. subst j.
    unfold transient_failure. simpl. lia.
  - repeat split.
  - repeat split; try (vm_compute; discriminate). intros a _. left. reflexivity.
Defined.

Lemma py_range_nil' (a b : Z) : b <= a -> py_range a b = [].
Proof.
  intros H. unfold py_range. replace (Z.to_nat (b - a)) with 0%nat by lia.
  reflexivity.
Qed.

Lemma only_writes_emit p e : steps (only_writes p) (emit e).
Proof. intros w q x _ H. exact H. Qed.

Ltac only_writes_base p :=
  first [ apply (only_writes_emit p)
        | intros ? ? ? ? ?; unfold modify_fs; cbn [snd fs];
          first [ now apply makedirs_fs_keeps
                | rewrite lookup_insert_ne; congruence ] ].

Lemma attempt_once_only_writes env url local_path token attempt :
  steps (only_writes local_path) (attempt_once env url local_path token attempt).
Proof.
  unfold attempt_once, ensure_directory, makedirs, open_wb, stream_body.
  steps_with (only_writes_refl local_path) (only_writes_trans local_path)
             ltac:(only_writes_base local_path).
Qed.

Lemma download_attempts_only_writes env url local_path token max_retries attempts :
  steps (only_writes local_path)
        (download_attempts env url local_path token max_retries attempts).
Proof.
  induction attempts as [| k rest IH]; cbn [download_attempts].
  - apply steps_ret, only_writes_refl.
  - steps_with (only_writes_refl local_path) (only_writes_trans local_path)
               ltac:(first [ apply attempt_once_only_writes
                           | exact IH
                           | apply only_writes_emit ]).
Qed.

Lemma download_attempts_fetch_bound env url local_path token max_retries :
  forall (n : nat) (a : Z) (w : world),
    Z.of_nat n = max_retries + 1 - a -> 1 <= a ->
    exists t,
      trace (download_attempts env url local_path token max_retries
               (py_range a (max_retries + 1)) w).2
      = (trace w ++ t)%list
      /\ (length (fetched_urls t) <= n)%nat
      /\ (length (sleeps t) <= n - 1)%nat
      /\ Forall (fun x => x = url) (fetched_urls t)
      /\ Forall (fun x => x = RETRY_BACKOFF_SEC) (sleeps t).
Proof.
  intros n. induction n as [| n IH]; intros a w Hn Ha.
  - rewrite py_range_nil' by lia. exists []. simpl. rewrite app_nil_r.
    repeat split; auto.
  - rewrite py_range_cons by lia. rewrite download_attempts_cons.
    destruct (attempt_once_trace env url local_path token a w) as (t1 & Et & Q1 & Q2).
    destruct (attempt_once env url local_path token a w) as [[b | ex] w1].
    + exists (EvFetch url token :: t1). split; [exact Et |].
      cbn [fetched_urls sleeps flat_map app]. fold (fetched_urls t1) (sleeps t1).
      rewrite Q1, Q2. simpl. repeat split; auto; lia.
    + cbn [snd] in Et. destruct (a <? max_retries) eqn:Elt.
      * apply Z.ltb_lt in Elt.
        destruct (IH (a + 1)
                    (events_after w1
                       [EvLog WARNING (AttemptFailed a url ex);
                        EvLog INFO (RetryingAfter RETRY_BACKOFF_SEC);
                        EvSleep RETRY_BACKOFF_SEC]))
          as (t2 & Et2 & F2 & S2 & A2 & B2); [lia | lia |].
        exists ((EvFetch url token :: t1)
                ++ [EvLog WARNING (AttemptFailed a url ex);
                    EvLog INFO (RetryingAfter RETRY_BACKOFF_SEC);
                    EvSleep RETRY_BACKOFF_SEC] ++ t2)%list.
        split; [rewrite Et2; cbn [events_after trace]; rewrite Et;
                now rewrite <- !app_assoc |].
        rewrite !fetched_urls_app, !sleeps_app.
        change (fetched_urls (EvFetch url token :: t1)) with (url :: fetched_urls t1).
        change (sleeps (EvFetch url token :: t1)) with (sleeps t1).
        rewrite Q1, Q2. simpl. repeat split; auto; lia.
      * exists ((EvFetch url token :: t1)
                ++ [EvLog WARNING (AttemptFailed a url ex);
                    EvLog ERROR (AllAttemptsFailed MAX_RETRIES url)])%list.
        split; [cbn [snd events_after trace]; rewrite Et; now rewrite <- !app_assoc |].
        rewrite !fetched_urls_app, !sleeps_app.
        change (fetched_urls (EvFetch url token :: t1)) with (url :: fetched_urls t1).
        change (sleeps (EvFetch url token :: t1)) with (sleeps t1).
        rewrite Q1, Q2. simpl. repeat split; auto; lia.
Qed.

(** X4. Whatever the network and the disk do, one call of [download_file]
    sends at most [max_retries] requests, all of them to its URL, sleeps at
    most [max_retries - 1] times, always for [RETRY_BACKOFF_SEC] seconds,
    and never removes or replaces an entry of the filesystem other than the
    file at [local_path]. *)
Theorem download_file_bounded_effects env url local_path token max_retries w :
  exists t,
    trace (download_file env url local_path token max_retries w).2
    = (trace w ++ t)%list
    /\ (length (fetched_urls t) <= Z.to_nat max_retries)%nat
    /\ (length (sleeps t) <= Z.to_nat max_retries - 1)%nat
    /\ Forall (fun x => x = url) (fetched_urls t)
    /\ Forall (fun x => x = RETRY_BACKOFF_SEC) (sleeps t)
    /\ only_writes local_path w
         (download_file env url local_path token max_retries w).2.
Proof.
  unfold download_file.
  destruct (Z.le_gt_cases 1 max_retries) as [Hm | Hm].
  - destruct (download_attempts_fetch_bound env url local_path token max_retries
                (Z.to_nat max_retries) 1 w ltac:(lia) ltac:(lia))
      as (t & Et & F & Hs & A & B).
    exists t. repeat split; auto.
    apply download_attempts_only_writes.
  - rewrite py_range_nil' by lia. exists []. simpl. rewrite app_nil_r.
    repeat split; auto; try lia. apply only_writes_refl.
Qed.

(* ===================================================================== *)
(** ** Further properties of the unit resolver                           *)
(* ===================================================================== *)

Lemma download_file_status_returns env url local_path token status w :
  http_status (net env url 1) = Some status ->
  status <> 200 -> ~ (500 <= status < 600) ->
  download_file env url local_path token MAX_RETRIES w
  = (Ok (PyBool false), events_after w [EvFetch url token; status_log status url]).
Proof.
  intros Hs H200 H5xx. unfold download_file.
  rewrite py_range_cons by (unfold MAX_RETRIES; lia).
  rewrite download_attempts_cons.
  rewrite (attempt_once_status _ _ _ _ _ _ status Hs H200).
  unfold status_log. destruct (status =? 404); [reflexivity |].
  replace ((500 <=? status) && (status <? 600)) with false; [reflexivity |].
  symmetry. apply andb_false_iff.
  destruct (Z.leb_spec 500 status); [right; apply Z.ltb_ge; lia | now left].
Qed.

Lemma local_ready_absent env path w :
  fs w !! path = None -> local_ready env path w = (Ok false, w).
Proof.
  intros H. pose proof (local_ready_cases env path w) as Hr. now rewrite H in Hr.
Qed.

(** X5. Naming-variant fallback: when the candidates before one are absent
    from the disk and answered with a status that is neither 200 nor 5xx
    (404 in practice), and that one is absent, writable (it has a parent
    directory part and no directory above it is a regular file) and
    answered with 200 while the operating system refuses none of the local
    calls, the candidate loop resolves to it. It sends exactly one request
    per candidate up to and including it, in order, never sleeps, writes
    the body to its local path and touches no other entry; the unit
    reports that path with success. *)
Theorem resolver_falls_through env token pre url p post w :
  (forall c, c ∈ pre ->
     fs w !! c.2 = None
     /\ exists status, http_status (net env c.1 1) = Some status
                       /\ status <> 200 /\ ~ (500 <= status < 600)) ->
  fs w !! p = None -> writable (fs w) p ->
  clean_download (net env url 1) ->
  exists w' t,
    try_candidates env token (pre ++ (url, p) :: post) w = (Ok (Some p), w')
    /\ trace w' = (trace w ++ t)%list
    /\ fetched_urls t = (map fst pre ++ [url])%list
    /\ sleeps t = []
    /\ fs w' !! p = Some (File (body_size (net env url 1)))
    /\ only_writes p w w'
    /\ forall station d rinex_root,
         generate_rinex_url_and_path station d rinex_root
         = (pre ++ (url, p) :: post)%list ->
         download_for_date_station env station d token rinex_root false w
         = (Ok (p, true), w').
Proof.
  revert w. induction pre as [| [u0 q] pre IH]; intros w Hpre Hp Hw Hclean.
  - cbn [app]. rewrite try_candidates_cons, (local_ready_absent env p w Hp).
    destruct (download_attempts_recovers env url p token MAX_RETRIES 1
                ltac:(unfold MAX_RETRIES; lia) ltac:(intros; lia) Hclean
                0%nat 1 w eq_refl ltac:(lia) Hw)
      as (w' & t & E & Et & F & S & Hfile & Hkeep).
    fold (download_file env url p token MAX_RETRIES) in E. rewrite E. cbn [truthy].
    exists w', t. repeat split; auto.
    intros station d rinex_root Hgen.
    rewrite download_for_date_station_normal, Hgen. cbn [app].
    rewrite try_candidates_cons, (local_ready_absent env p w Hp), E. reflexivity.
  - destruct (Hpre (u0, q) ltac:(apply elem_of_cons; now left))
      as (Hq & status & Hs & H200 & H5xx).
    cbn [fst snd] in Hq, Hs.
    set (w1 := events_after w [EvFetch u0 token; status_log status u0]).
    assert (Hpre1 : forall c, c ∈ pre ->
              fs w1 !! c.2 = None
              /\ exists status, http_status (net env c.1 1) = Some status
                                /\ status <> 200 /\ ~ (500 <= status < 600)).
    { intros c Hc. apply (Hpre c). apply elem_of_cons. now right. }
    destruct (IH w1 Hpre1 Hp Hw Hclean)
      as (w' & t & E & Et & F & S & Hfile & Hkeep & _).
    assert (Etry : try_candidates env token (((u0, q) :: pre) ++ (url, p) :: post) w
                   = (Ok (Some p), w')).
    { cbn [app]. rewrite try_candidates_cons, (local_ready_absent env q w Hq).
      rewrite (download_file_status_returns env u0 q token status w Hs H200 H5xx).
      cbn [truthy]. exact E. }
    exists w', ([EvFetch u0 token; status_log status u0] ++ t)%list.
    split; [exact Etry |]. split; [| split; [| split; [| split; [exact Hfile |]]]].
    + rewrite Et. unfold w1, events_after. cbn [trace]. now rewrite <- app_assoc.
    + rewrite fetched_urls_app, F. unfold status_log.
      destruct (status =? 404); reflexivity.
    + rewrite sleeps_app, S. unfold status_log. destruct (status =? 404); reflexivity.
    + split; [exact Hkeep |].
      intros station d rinex_root Hgen.
      rewrite download_for_date_station_normal, Hgen, Etry. reflexivity.
Qed.

Lemma resolver_falls_through_witness :
  exists w' t,
    try_candidates uppercase_only_env "tok"
      ([(ARCHIVE_URL +:+ "2021/152/y15200.21d.Z", "out/2021/152/y15200.21d.Z")]
       ++ (ARCHIVE_URL +:+ "2021/152/Y15200.21d.Z", "out/2021/152/Y15200.21d.Z") :: [])
      empty_world = (Ok (Some "out/2021/152/Y15200.21d.Z"), w')
    /\ trace w' = (trace empty_world ++ t)%list
    /\ fetched_urls t = [ARCHIVE_URL +:+ "2021/152/y15200.21d.Z";
                         ARCHIVE_URL +:+ "2021/152/Y15200.21d.Z"]
    /\ sleeps t = []
    /\ fs w' !! "out/2021/152/Y15200.21d.Z" = Some (File 10)
    /\ only_writes "out/2021/152/Y15200.21d.Z" empty_world w'
    /\ download_for_date_station uppercase_only_env "Y" (ymd 2021 6 1) "tok" "out"
         false empty_world = (Ok ("out/2021/152/Y15200.21d.Z", true), w').
Proof.
  destruct (resolver_falls_through uppercase_only_env "tok"
              [(ARCHIVE_URL +:+ "2021/152/y15200.21d.Z", "out/2021/152/y15200.21d.Z")]
              (ARCHIVE_URL +:+ "2021/152/Y15200.21d.Z") "out/2021/152/Y15200.21d.Z"
              [] empty_world)
    as (w' & t & E & Et & F & S & Hfile & Hkeep & Hunit).
  - intros c Hc. apply list_elem_of_singleton in Hc. subst c.
    split; [reflexivity |]. exists 404. repeat split; [discriminate | lia].
  - reflexivity.
  - repeat split; try (vm_compute; discriminate). left. reflexivity.
  - repeat split.
  - exists w', t.
    split; [exact E |]. split; [exact Et |]. split; [exact F |].
    split; [exact S |]. split; [exact Hfile |]. split; [exact Hkeep |].
    apply (Hunit "Y" (ymd 2021 6 1) "out"). vm_compute. reflexivity.
Defined.

Lemma local_ready_world env path w : (local_ready env path w).2 = w.
Proof.
  pose proof (local_ready_cases env path w) as H.
  destruct (fs w !! path) as [[| size] |]; try (rewrite H; reflexivity).
  destruct (getsize_fails env path); rewrite H; reflexivity.
Qed.

Lemma download_file_default_bound env url local_path token w :
  exists t,
    trace (download_file env url local_path token MAX_RETRIES w).2
    = (trace w ++ t)%list
    /\ (length (fetched_urls t) <= 3)%nat /\ (length (sleeps t) <= 2)%nat.
Proof.
  unfold download_file.
  destruct (download_attempts_fetch_bound env url local_path token MAX_RETRIES
              3%nat 1 w eq_refl ltac:(lia)) as (t & Et & F & S & _).
  exists t. auto.
Qed.

Lemma try_candidates_bound env token candidates w :
  exists t,
    trace (try_candidates env token candidates w).2 = (trace w ++ t)%list
    /\ (length (fetched_urls t) <= 3 * length candidates)%nat
    /\ (length (sleeps t) <= 2 * length candidates)%nat.
Proof.
  revert w. induction candidates as [| [url p] rest IH]; intros w.
  - exists []. simpl. rewrite app_nil_r. auto.
  - rewrite try_candidates_cons.
    pose proof (local_ready_world env p w) as Hw.
    destruct (local_ready env p w) as [[[] | ex] w1]; cbn [snd] in Hw; subst w1.
    + eexists. split; [reflexivity |]. simpl. lia.
    + destruct (download_file_default_bound env url p token w) as (t1 & Et1 & F1 & S1).
      destruct (download_file env url p token MAX_RETRIES w) as [[success | ex] w2];
        cbn [snd] in Et1.
      * destruct (truthy success).
        -- exists t1. split; [exact Et1 |]. simpl. lia.
        -- destruct (IH w2) as (t2 & Et2 & F2 & S2).
           exists (t1 ++ t2)%list. split; [rewrite Et2, Et1; now rewrite app_assoc |].
           rewrite fetched_urls_app, sleeps_app, !length_app. simpl. lia.
      * exists t1. split; [exact Et1 |]. simpl. lia.
    + exists []. simpl. rewrite app_nil_r. split; [reflexivity |]. lia.
Qed.

Lemma candidates_length station d rinex_root :
  (length (generate_rinex_url_and_path station d rinex_root) <= 2)%nat.
Proof.
  unfold generate_rinex_url_and_path, generate_candidate_filenames. cbv zeta.
  rewrite length_map, dedup_two.
  match goal with |- context [decide ?P] => destruct (decide P) end; simpl; lia.
Qed.

Lemma logs_quiet (l : list event) :
  Forall (fun e => is_log e = true) l -> fetched_urls l = [] /\ sleeps l = [].
Proof.
  induction 1 as [| e l He _ IH]; [split; reflexivity |].
  destruct e; try discriminate. exact IH.
Qed.

Lemma unit_row_bound env token out_root dry_run u w :
  exists t,
    trace (unit_row env token out_root dry_run u w).2 = (trace w ++ t)%list
    /\ (length (fetched_urls t) <= 6)%nat /\ (length (sleeps t) <= 4)%nat.
Proof.
  destruct dry_run.
  - destruct (unit_row_dry_run env token out_root u w) as (p & E). rewrite E.
    exists (dry_reports out_root u). split; [reflexivity |].
    pose proof (dry_reports_all out_root [u]) as Hall. simpl in Hall.
    rewrite app_nil_r in Hall.
    destruct (logs_quiet (dry_reports out_root u)) as [-> ->].
    { eapply Forall_impl; [exact Hall |]. simpl. tauto. }
    simpl. lia.
  - unfold unit_row. rewrite download_for_date_station_normal.
    destruct (try_candidates_bound env token
                (generate_rinex_url_and_path u.1 u.2 out_root) w) as (t & Et & F & S).
    pose proof (candidates_length u.1 u.2 out_root) as Hlen.
    destruct (try_candidates env token _ w) as [[[p |] | ex] w1]; cbn [snd] in Et.
    + exists t. split; [exact Et |]. lia.
    + destruct (generate_rinex_url_and_path u.1 u.2 out_root) as [| c rest].
      * eexists (t ++ [_; _])%list.
        split; [cbn [snd events_after trace]; rewrite Et; now rewrite <- !app_assoc |].
        rewrite fetched_urls_app, sleeps_app, !length_app. simpl. lia.
      * eexists (t ++ [_; _])%list.
        split; [cbn [snd events_after trace]; rewrite Et; now rewrite <- !app_assoc |].
        rewrite fetched_urls_app, sleeps_app, !length_app. simpl. lia.
    + eexists (t ++ [_])%list.
      split; [cbn [snd events_after trace]; rewrite Et; now rewrite <- !app_assoc |].
      rewrite fetched_urls_app, sleeps_app, !length_app. simpl. lia.
Qed.

Lemma collect_results_bound env token out_root dry_run order results w :
  exists t,
    trace (collect_results env token out_root dry_run order results w).2
    = (trace w ++ t)%list
    /\ (length (fetched_urls t) <= 6 * length order)%nat
    /\ (length (sleeps t) <= 4 * length order)%nat.
Proof.
  revert results w. induction order as [| u rest IH]; intros results w.
  - exists []. simpl. rewrite app_nil_r. auto.
  - rewrite collect_results_cons.
    destruct (unit_row_bound env token out_root dry_run u w) as (t1 & Et1 & F1 & S1).
    destruct (IH (results ++ [(unit_row env token out_root dry_run u w).1])%list
                 (unit_row env token out_root dry_run u w).2) as (t2 & Et2 & F2 & S2).
    exists (t1 ++ t2)%list. split; [rewrite Et2, Et1; now rewrite app_assoc |].
    rewrite fetched_urls_app, sleeps_app, !length_app. simpl. lia.
Qed.

(* ===================================================================== *)
(** ** Further properties of the orchestrator                            *)
(* ===================================================================== *)

Lemma download_rinex_batch_no_token env stations start_date end_date out_root
    station_periods max_workers dry_run w :
  token_var env = None \/ token_var env = Some "" ->
  download_rinex_batch env stations start_date end_date out_root station_periods
    max_workers dry_run w = (Raise RuntimeError, w).
Proof.
  intros [H | H]; unfold download_rinex_batch, get_bearer_token; rewrite H; reflexivity.
Qed.

Lemma download_rinex_batch_no_workers env stations start_date end_date out_root
    station_periods max_workers dry_run w token :
  token_var env = Some token -> token <> "" -> max_workers <= 0 ->
  download_rinex_batch env stations start_date end_date out_root station_periods
    max_workers dry_run w
  = (Raise ValueError,
     events_after w
       (skip_lines stations start_date end_date station_periods
        ++ [EvLog INFO
              (StartingDownload (Z.of_nat (length stations))
                 (Z.of_nat (length (scheduled_units stations start_date end_date
                                      station_periods)))
                 out_root max_workers)])).
Proof.
  intros Htok Hne Hw. unfold download_rinex_batch, get_bearer_token. rewrite Htok.
  apply String.eqb_neq in Hne. rewrite Hne.
  unfold bind at 1. unfold ret at 1. unfold bind at 1.
  rewrite build_tasks_spec. cbn [app].
  unfold bind at 1. unfold log at 1, emit at 1. unfold bind at 1.
  replace (max_workers <=? 0) with true by (symmetry; apply Z.leb_le; lia).
  unfold raise, events_after. cbn [fs trace]. now rewrite <- app_assoc.
Qed.

(** X6. Request budget of a batch: with a token, a positive pool size and a
    pool that completes every scheduled unit once, a batch sends at most 6
    requests and sleeps at most 4 times per scheduled unit (two naming
    variants, three attempts each), whatever the network and the disk
    do. *)
Theorem batch_request_budget env stations start_date end_date out_root
    station_periods max_workers dry_run w token :
  token_var env = Some token -> token <> "" -> 0 < max_workers ->
  let tasks := scheduled_units stations start_date end_date station_periods in
  Permutation (completion env tasks) tasks ->
  exists results w' t,
    download_rinex_batch env stations start_date end_date out_root station_periods
      max_workers dry_run w = (Ok results, w')
    /\ trace w' = (trace w ++ t)%list
    /\ (length (fetched_urls t) <= 6 * length tasks)%nat
    /\ (length (sleeps t) <= 4 * length tasks)%nat.
Proof.
  intros Htok Hne Hw tasks Hperm.
  destruct (download_rinex_batch_unfold env stations start_date end_date out_root
              station_periods max_workers dry_run w token Htok Hne Hw)
    as (results & w2 & Ecol & _ & Ebatch).
  fold tasks in Ecol, Ebatch.
  match type of Ecol with
  | collect_results _ _ _ _ ?o ?r ?w1 = _ =>
      destruct (collect_results_bound env token out_root dry_run o r w1)
        as (t2 & Et2 & F2 & S2)
  end.
  rewrite Ecol in Et2. cbn [snd events_after trace] in Et2.
  rewrite (Permutation_length Hperm) in F2, S2.
  destruct (logs_quiet (skip_lines stations start_date end_date station_periods))
    as [Fs Ss].
  { eapply Forall_impl; [apply skip_lines_logs |]. simpl. tauto. }
  eexists results, _, ((skip_lines stations start_date end_date station_periods
                        ++ [_]) ++ t2 ++ [_])%list.
  split; [exact Ebatch |]. split.
  - cbn [events_after trace]. rewrite Et2. now rewrite <- !app_assoc.
  - rewrite !fetched_urls_app, !sleeps_app, Fs, Ss, !length_app. simpl. lia.
Qed.

Lemma batch_request_budget_witness :
  exists results w' t,
    download_rinex_batch unreachable_env ["Y"] (ymd 2021 6 1) (ymd 2021 6 2) "out" ∅
      MAX_WORKERS_DEFAULT false empty_world = (Ok results, w')
    /\ trace w' = (trace empty_world ++ t)%list
    /\ (length (fetched_urls t)
        <= 6 * length (scheduled_units ["Y"] (ymd 2021 6 1) (ymd 2021 6 2) ∅))%nat
    /\ (length (sleeps t)
        <= 4 * length (scheduled_units ["Y"] (ymd 2021 6 1) (ymd 2021 6 2) ∅))%nat.
Proof.
  apply (batch_request_budget unreachable_env ["Y"] (ymd 2021 6 1) (ymd 2021 6 2)
           "out" ∅ MAX_WORKERS_DEFAULT false empty_world "tok").
  - reflexivity.
  - discriminate.
  - unfold MAX_WORKERS_DEFAULT. lia.
  - apply Permutation_refl.
Defined.

Lemma all_bearer_nil tok : all_bearer tok [].
Proof. constructor. Qed.

Lemma all_bearer_app tok t1 t2 :
  all_bearer tok t1 -> all_bearer tok t2 -> all_bearer tok (t1 ++ t2).
Proof. unfold all_bearer. intros H1 H2. apply Forall_app. auto. Qed.

Lemma all_bearer_logs tok (l : list event) :
  Forall (fun e => is_log e = true) l -> all_bearer tok l.
Proof.
  unfold all_bearer. intros H. eapply Forall_impl; [exact H |].
  intros e He. destruct e; try discriminate. exact I.
Qed.

Ltac bearer_base tok :=
  first [ apply (trace_grows_emit (all_bearer tok));
          unfold all_bearer; constructor; [simpl; auto | constructor]
        | apply (trace_grows_modify_fs (all_bearer tok) (all_bearer_nil tok)) ].

Lemma attempt_once_all_bearer env url local_path token attempt :
  steps (trace_grows (all_bearer token))
        (attempt_once env url local_path token attempt).
Proof.
  unfold attempt_once, ensure_directory, makedirs, open_wb, stream_body.
  steps_with (trace_grows_refl (all_bearer token) (all_bearer_nil token))
             (trace_grows_trans (all_bearer token) (all_bearer_app token))
             ltac:(bearer_base token).
Qed.

Lemma download_attempts_all_bearer env url local_path token max_retries attempts :
  steps (trace_grows (all_bearer token))
        (download_attempts env url local_path token max_retries attempts).
Proof.
  induction attempts as [| k rest IH]; cbn [download_attempts].
  - apply steps_ret, trace_grows_refl, all_bearer_nil.
  - steps_with (trace_grows_refl (all_bearer token) (all_bearer_nil token))
               (trace_grows_trans (all_bearer token) (all_bearer_app token))
               ltac:(first [ apply attempt_once_all_bearer
                           | exact IH
                           | bearer_base token ]).
Qed.

Lemma try_candidates_all_bearer env token candidates :
  steps (trace_grows (all_bearer token)) (try_candidates env token candidates).
Proof.
  induction candidates as [| [url p] rest IH]; intros w.
  - apply trace_grows_refl, all_bearer_nil.
  - rewrite try_candidates_cons.
    pose proof (local_ready_world env p w) as Hw.
    destruct (local_ready env p w) as [[[] | ex] w1]; cbn [snd] in Hw; subst w1.
    + eexists. split; [reflexivity |]. apply all_bearer_logs. repeat constructor.
    + pose proof (download_attempts_all_bearer env url p token MAX_RETRIES
                    (py_range 1 (MAX_RETRIES + 1)) w) as Hd.
      fold (download_file env url p token MAX_RETRIES) in Hd.
      destruct (download_file env url p token MAX_RETRIES w) as [[success | ex] w2];
        cbn [snd] in Hd; [| exact Hd].
      destruct (truthy success); [exact Hd |].
      eapply trace_grows_trans; [apply all_bearer_app | exact Hd | apply IH].
    + apply trace_grows_refl, all_bearer_nil.
Qed.

Lemma unit_row_all_bearer env token out_root dry_run u w :
  trace_grows (all_bearer token) w (unit_row env token out_root dry_run u w).2.
Proof.
  destruct dry_run.
  - destruct (unit_row_dry_run env token out_root u w) as (p & E). rewrite E.
    eexists. split; [reflexivity |]. apply all_bearer_logs.
    pose proof (dry_reports_all out_root [u]) as Hall. simpl in Hall.
    rewrite app_nil_r in Hall. eapply Forall_impl; [exact Hall |]. simpl. tauto.
  - unfold unit_row. rewrite download_for_date_station_normal.
    pose proof (try_candidates_all_bearer env token
                  (generate_rinex_url_and_path u.1 u.2 out_root) w) as Ht.
    assert (Hlog : forall w1 (l : list event),
               trace_grows (all_bearer token) w w1 ->
               Forall (fun e => is_log e = true) l ->
               trace_grows (all_bearer token) w (events_after w1 l)).
    { intros w1 l (t & Et & Pt) Hl. exists (t ++ l)%list. split.
      - cbn [events_after trace]. rewrite Et. now rewrite app_assoc.
      - apply all_bearer_app; [exact Pt | now apply all_bearer_logs]. }
    destruct (try_candidates env token _ w) as [[[p |] | ex] w1]; cbn [snd] in Ht.
    + exact Ht.
    + destruct (generate_rinex_url_and_path u.1 u.2 out_root) as [| c rest];
        cbn [snd]; rewrite events_after_app; apply Hlog; auto; repeat constructor.
    + cbn [snd]. apply Hlog; auto; repeat constructor.
Qed.

Lemma collect_results_all_bearer env token out_root dry_run order results w :
  trace_grows (all_bearer token) w
    (collect_results env token out_root dry_run order results w).2.
Proof.
  revert results w. induction order as [| u rest IH]; intros results w.
  - apply trace_grows_refl, all_bearer_nil.
  - rewrite collect_results_cons.
    eapply trace_grows_trans; [apply all_bearer_app | apply unit_row_all_bearer | apply IH].
Qed.

(** X7. Every request a batch sends carries the bearer token read from the
    environment, and that token is not empty: without a token, or with an
    empty one, the batch raises before it schedules anything and sends no
    request at all. *)
Theorem every_request_is_authenticated env stations start_date end_date out_root
    station_periods max_workers dry_run w :
  exists t,
    trace (download_rinex_batch env stations start_date end_date out_root
             station_periods max_workers dry_run w).2 = (trace w ++ t)%list
    /\ (forall url bearer,
          EvFetch url bearer ∈ t -> token_var env = Some bearer /\ bearer <> "")
    /\ (token_var env = None \/ token_var env = Some "" ->
        download_rinex_batch env stations start_date end_date out_root
          station_periods max_workers dry_run w = (Raise RuntimeError, w)).
Proof.
  assert (Hnone : token_var env = None \/ token_var env = Some "" ->
            exists t,
              trace (download_rinex_batch env stations start_date end_date out_root
                       station_periods max_workers dry_run w).2 = (trace w ++ t)%list
              /\ (forall url bearer,
                    EvFetch url bearer ∈ t ->
                    token_var env = Some bearer /\ bearer <> "")
              /\ (token_var env = None \/ token_var env = Some "" ->
                  download_rinex_batch env stations start_date end_date out_root
                    station_periods max_workers dry_run w = (Raise RuntimeError, w))).
  { intros H. exists [].
    rewrite (download_rinex_batch_no_token _ _ _ _ _ _ _ _ _ H).
    split; [simpl; now rewrite app_nil_r |]. split; [| reflexivity].
    intros url bearer Hin. now apply elem_of_nil in Hin. }
  destruct (token_var env) as [token |] eqn:Htok; [| apply Hnone; now left].
  destruct (String.eqb_spec token "") as [-> | Hne]; [apply Hnone; now right |].
  clear Hnone.
  assert (Hlogs : forall l : list event,
             Forall (fun e => is_log e = true) l ->
             forall url bearer, EvFetch url bearer ∈ l -> False).
  { intros l Hl url bearer Hin. rewrite Forall_forall in Hl.
    specialize (Hl _ Hin). discriminate. }
  destruct (Z.le_gt_cases max_workers 0) as [Hw | Hw].
  - rewrite (download_rinex_batch_no_workers _ _ _ _ _ _ _ _ _ token Htok Hne Hw).
    eexists. split; [reflexivity |]. split.
    + intros url bearer Hin. exfalso. revert Hin. apply Hlogs.
      apply Forall_app. split; [| repeat constructor].
      eapply Forall_impl; [apply skip_lines_logs |]. simpl. tauto.
    + intros [H | H]; congruence.
  - destruct (download_rinex_batch_unfold env stations start_date end_date out_root
                station_periods max_workers dry_run w token Htok Hne ltac:(lia))
      as (results & w2 & Ecol & _ & Ebatch).
    match type of Ecol with
    | collect_results _ _ _ _ ?o ?r ?w1 = _ =>
        destruct (collect_results_all_bearer env token out_root dry_run o r w1)
          as (t2 & Et2 & P2)
    end.
    rewrite Ecol in Et2. cbn [snd events_after trace] in Et2.
    rewrite Ebatch.
    eexists ((skip_lines stations start_date end_date station_periods ++ [_])
             ++ t2 ++ [_])%list.
    split; [cbn [snd events_after trace]; rewrite Et2; now rewrite <- !app_assoc |].
    split; [| intros [H | H]; congruence].
    intros url bearer Hin.
    apply elem_of_app in Hin as [Hin | Hin].
    + exfalso. revert Hin. apply Hlogs. apply Forall_app. split; [| repeat constructor].
      eapply Forall_impl; [apply skip_lines_logs |]. simpl. tauto.
    + apply elem_of_app in Hin as [Hin | Hin].
      * unfold all_bearer in P2. rewrite Forall_forall in P2.
        specialize (P2 _ Hin). simpl in P2. subst bearer. auto.
      * exfalso. revert Hin. apply Hlogs. repeat constructor.
Qed.

Lemma every_request_is_authenticated_witness :
  download_rinex_batch
    (Environment (fun _ _ => AttemptEnv None 0 false false None) (fun _ => false)
                 None (fun l => l))
    ["Y"] (ymd 2021 6 1) (ymd 2021 6 2) "out" ∅ MAX_WORKERS_DEFAULT false empty_world
  = (Raise RuntimeError, empty_world).
Proof.
  destruct (every_request_is_authenticated
              (Environment (fun _ _ => AttemptEnv None 0 false false None)
                 (fun _ => false) None (fun l => l))
              ["Y"] (ymd 2021 6 1) (ymd 2021 6 2) "out" ∅ MAX_WORKERS_DEFAULT false
              empty_world) as (t & _ & _ & H).
  apply H. left. reflexivity.
Defined.

(** X8. The schedule never leaves a station's operational period: a unit
    (station, day) is scheduled exactly when the station is in the list, the
    day lies in the requested range, and the day is not before the
    station's recorded start nor after its recorded stop, where a missing
    record or a missing bound restricts nothing. *)
Theorem scheduled_units_within_window stations start_date end_date
    (station_periods : gmap string (option date * option date)) (st : string) (d : date) :
  let window := default (None, None) (station_periods !! st) in
  (st, d) ∈ scheduled_units stations start_date end_date station_periods
  <-> st ∈ stations
      /\ start_date <= d <= end_date
      /\ (forall s, window.1 = Some s -> s <= d)
      /\ (forall e, window.2 = Some e -> d <= e).
Proof.
  intros window. rewrite scheduled_units_elem. cbn [fst snd].
  rewrite effective_range_max_min. cbn [fst snd]. subst window.
  destruct (default (None, None) (station_periods !! st)) as [[s |] [e |]];
    cbn [fst snd default]; unfold id; split.
  all: try (intros (Hst & H1 & H2); split; [exact Hst |];
            split; [lia |]; split; intros x Hx; simplify_eq; lia).
  all: intros (Hst & Hr & Hs & He); split; [exact Hst |];
       try specialize (Hs _ eq_refl); try specialize (He _ eq_refl); lia.
Qed.

(* ===================================================================== *)
(** ** Further properties of the candidate generator                     *)
(* ===================================================================== *)








Lemma contains_sep_append (a b : string) :
  contains_sep (a +:+ b) = contains_sep a || contains_sep b.
Proof.
  induction a as [| c a IH]; [reflexivity |].
  rewrite append_cons. simpl. rewrite IH. now rewrite orb_assoc.
Qed.

Lemma contains_sep_lower (s : string) : contains_sep (lower s) = contains_sep s.
Proof.
  induction s as [| c s IH]; [reflexivity |].
  change (lower (String c s)) with (String (lower_char c) (lower s)).
  simpl. now rewrite lower_char_not_sep, IH.
Qed.

Lemma contains_sep_upper (s : string) : contains_sep (upper s) = contains_sep s.
Proof.
  induction s as [| c s IH]; [reflexivity |].
  change (upper (String c s)) with (String (upper_char c) (upper s)).
  simpl. now rewrite upper_char_not_sep, IH.
Qed.

Lemma upto_last_sep_join (a b : string) :
  contains_sep b = false -> upto_last_sep (a +:+ "/" +:+ b) = a +:+ "/".
Proof.
  intros Hb. change ("/" +:+ b) with (String "/" b).
  induction a as [| c a IH].
  - change ("" +:+ String "/" b) with (String "/" b).
    cbn [upto_last_sep]. rewrite Hb. reflexivity.
  - rewrite !append_cons. cbn [upto_last_sep].
    rewrite contains_sep_append. cbn [contains_sep].
    replace (is_sep "/") with true by reflexivity.
    rewrite orb_true_r. cbn [orb]. now rewrite IH.
Qed.

Lemma rstrip_sep_join (a : string) :
  a <> "" -> endswith_sep a = false -> rstrip_sep (a +:+ "/") = a.
Proof.
  induction a as [| c a IH]; [congruence |]. intros _ He.
  rewrite append_cons. simpl. destruct a as [| c' a'].
  - simpl in He. change ("" +:+ "/") with "/". simpl. now rewrite He.
  - rewrite IH; [| discriminate | exact He]. simpl. now rewrite andb_false_r.
Qed.

Lemma all_sep_join (a : string) :
  a <> "" -> endswith_sep a = false -> all_sep (a +:+ "/") = false.
Proof.
  induction a as [| c a IH]; [congruence |]. intros _ He.
  rewrite append_cons. simpl. destruct a as [| c' a'].
  - simpl in He. now rewrite He.
  - rewrite IH; [apply andb_false_r | discriminate | exact He].
Qed.

(** [dirname] undoes [join]: the directory of [a/b] is [a] when [b] has no
    separator and [a] is not empty and does not end with one. *)
Lemma dirname_join (a b : string) :
  contains_sep b = false -> a <> "" -> endswith_sep a = false ->
  dirname (join2 a b) = a.
Proof.
  intros Hb Ha He.
  assert (Hs : startswith_sep b = false) by (destruct b; simpl in *; [reflexivity |];
    apply orb_false_iff in Hb; tauto).
  rewrite join2_plain by assumption.
  unfold dirname. rewrite upto_last_sep_join by exact Hb.
  rewrite all_sep_join by assumption.
  replace (String.eqb (a +:+ "/") "") with false.
  - simpl. now apply rstrip_sep_join.
  - symmetry. apply String.eqb_neq. intros E. apply append_empty in E as [_ E].
    discriminate.
Qed.

(** X10. The directory [download_file] creates is the day directory: for a
    valid date and a station code without ["/"], the directory part of every
    candidate's local path is [os.path.join(rinex_root, year, doy)]; it
    differs from the path itself and is not empty, and the directories
    above the path are that day directory followed by the directories above
    it. So the path is writable on every disk where it does not exist and
    none of these directories is a regular file, the empty disk among
    them. *)
Theorem candidate_directory station d rinex_root :
  valid_date d ->
  contains_sep station = false ->
  forall c, c ∈ generate_rinex_url_and_path station d rinex_root ->
    dirname c.2
    = path_join rinex_root [str_of_int (PyDate.year d); fmt_0d 3 (tm_yday d)]
    /\ dirname c.2 = root_prefix rinex_root +:+ str_of_int (PyDate.year d) +:+ "/"
                     +:+ fmt_0d 3 (tm_yday d)
    /\ dirname c.2 <> c.2 /\ dirname c.2 <> ""
    /\ ancestors c.2 = dirname c.2 :: ancestors (dirname c.2)
    /\ (forall f : gmap string node,
          f !! c.2 = None ->
          (forall a, a ∈ ancestors c.2 -> f !! a = None \/ f !! a = Some Dir) ->
          writable f c.2)
    /\ writable ∅ c.2.
Proof.
  intros Hd Hst c Hc.
  pose proof (year_range d Hd) as Hy.
  pose proof (tm_yday_range d Hd) as Hdoy.
  destruct (fmt_0d3_shape (tm_yday d) ltac:(lia)) as [_ Hplain].
  pose proof (str_of_year_shape (PyDate.year d) ltac:(lia)) as Hyplain.
  destruct (base_dir_shape rinex_root _ _ Hyplain Hplain) as (Hbase & Hne & Hend).
  cbv zeta in Hbase, Hne, Hend.
  set (base_dir := path_join rinex_root
                     [str_of_int (PyDate.year d); fmt_0d 3 (tm_yday d)]) in *.
  unfold generate_rinex_url_and_path in Hc. cbv zeta in Hc. fold base_dir in Hc.
  apply list_elem_of_In, in_map_iff in Hc as (fname & <- & Hf). cbn [snd].
  assert (Hfn : contains_sep fname = false).
  { unfold generate_candidate_filenames in Hf. cbv zeta in Hf.
    rewrite dedup_two in Hf.
    assert (H2 : contains_sep (fmt_0d 2 (PyDate.year d mod 100)) = false).
    { apply negb_true_iff.
      apply (range_check (fun n => negb (contains_sep (fmt_0d 2 n))) 0 100
               ltac:(vm_compute; reflexivity)).
      apply Z.mod_pos_bound. lia. }
    assert (H3 : contains_sep (fmt_0d 3 (tm_yday d)) = false).
    { unfold plain_component in Hplain. rewrite !andb_true_iff in Hplain.
      destruct Hplain as [_ H]. now apply negb_true_iff in H. }
    assert (Hname : forall code, contains_sep code = false ->
              contains_sep (code +:+ fmt_0d 3 (tm_yday d) +:+ "00."
                            +:+ fmt_0d 2 (PyDate.year d mod 100) +:+ "d.Z") = false).
    { intros code Hcode. rewrite !contains_sep_append, Hcode, H2, H3. reflexivity. }
    destruct (decide _) in Hf; simpl in Hf.
    - destruct Hf as [<- | []]. apply Hname. now rewrite contains_sep_lower.
    - destruct Hf as [<- | [<- | []]]; apply Hname;
        [now rewrite contains_sep_lower | now rewrite contains_sep_upper]. }
  assert (Hdir : dirname (path_join base_dir [fname]) = base_dir)
    by (apply dirname_join; assumption).
  assert (Hproper : dirname (path_join base_dir [fname]) <> path_join base_dir [fname]).
  { rewrite Hdir. intros E.
    change (path_join base_dir [fname]) with (join2 base_dir fname) in E.
    assert (Hs : startswith_sep fname = false)
      by (destruct fname; simpl in *; [reflexivity |];
          apply orb_false_iff in Hfn; tauto).
    rewrite join2_plain in E by assumption.
    apply (f_equal String.length) in E. rewrite !length_append in E. simpl in E. lia. }
  assert (Hnonempty : dirname (path_join base_dir [fname]) <> "")
    by (rewrite Hdir; exact Hne).
  split; [exact Hdir |]. split; [rewrite Hdir; exact Hbase |].
  split; [exact Hproper |]. split; [exact Hnonempty |].
  split; [now apply ancestors_unfold |]. split.
  - intros f Hp Hanc. unfold writable. rewrite Hp.
    split; [discriminate |]. split; [exact Hproper |]. split; [exact Hnonempty |].
    exact Hanc.
  - unfold writable. rewrite lookup_empty.
    split; [discriminate |]. split; [exact Hproper |]. split; [exact Hnonempty |].
    intros a _. left. apply lookup_empty.
Qed.

Lemma candidate_directory_witness :
  dirname "out/2021/152/y15200.21d.Z" = path_join "out" ["2021"; "152"]
  /\ ancestors "out/2021/152/y15200.21d.Z" = ["out/2021/152"; "out/2021"; "out"]
  /\ writable ∅ "out/2021/152/y15200.21d.Z"
  /\ ~ writable {[ "out" := File 3 ]} "out/2021/152/y15200.21d.Z".
Proof.
  destruct (candidate_directory "Y" (ymd 2021 6 1) "out") with
    (c := (ARCHIVE_URL +:+ "2021/152/y15200.21d.Z", "out/2021/152/y15200.21d.Z"))
    as (H & _ & _ & _ & _ & _ & Hw).
  - unfold valid_date, _MAXORDINAL. vm_compute. split; discriminate.
  - reflexivity.
  - apply list_elem_of_In. vm_compute. left. reflexivity.
  - split; [exact H |]. split; [reflexivity |]. split; [exact Hw |].
    intros (_ & _ & _ & Hanc).
    destruct (Hanc "out") as [E | E].
    + change (ancestors "out/2021/152/y15200.21d.Z")
        with ["out/2021/152"; "out/2021"; "out"].
      apply elem_of_cons. right. apply elem_of_cons. right.
      apply elem_of_cons. now left.
    + rewrite lookup_singleton_eq in E. discriminate.
    + rewrite lookup_singleton_eq in E. discriminate.
Defined.

(* ===================================================================== *)
(** ** Calendar fields and ordinals                                      *)
(* ===================================================================== *)

(** Day [k] (counted from 0) of year [y] lies in year [y]. *)
Lemma year_of_day (y k : Z) :
  1 <= y ->
  0 <= k < 365 + (if _is_leap y then 1 else 0) ->
  PyDate.year (_days_before_year y + k + 1) = y.
Proof.
  intros Hy Hk. unfold PyDate.year, _days_before_year, _is_leap, _DI400Y, _DI100Y, _DI4Y in *.
  remember (y - 1) as z eqn:Ez.
  assert (Hz : y = z + 1) by lia. clear Ez. subst y.
  replace (z * 365 + z / 4 - z / 100 + z / 400 + k + 1 - 1)
    with (z * 365 + z / 4 - z / 100 + z / 400 + k) by lia.
  set (n := z * 365 + z / 4 - z / 100 + z / 400 + k).
  assert (Hz0 : 0 <= z) by lia.
  (* decomposition of z *)
  pose proof (Z.div_mod z 400 ltac:(lia)) as D1.
  pose proof (Z.mod_pos_bound z 400 ltac:(lia)) as B1.
  set (a := z / 400) in *. set (r1 := z mod 400) in *.
  pose proof (Z.div_mod r1 100 ltac:(lia)) as D2.
  pose proof (Z.mod_pos_bound r1 100 ltac:(lia)) as B2.
  set (b := r1 / 100) in *. set (r2 := r1 mod 100) in *.
  pose proof (Z.div_mod r2 4 ltac:(lia)) as D3.
  pose proof (Z.mod_pos_bound r2 4 ltac:(lia)) as B3.
  set (c := r2 / 4) in *. set (e := r2 mod 4) in *.
  assert (Q4 : z / 4 = 100 * a + 25 * b + c)
    by (symmetry; apply (Z.div_unique z 4 _ e); lia).
  assert (Q100 : z / 100 = 4 * a + b)
    by (symmetry; apply (Z.div_unique z 100 _ r2); lia).
  assert (M4 : (z + 1) mod 4 = (e + 1) mod 4).
  { replace (z + 1) with ((e + 1) + (100 * a + 25 * b + c) * 4) by lia.
    apply Z.mod_add. lia. }
  assert (M100 : (z + 1) mod 100 = (r2 + 1) mod 100).
  { replace (z + 1) with ((r2 + 1) + (4 * a + b) * 100) by lia.
    apply Z.mod_add. lia. }
  assert (M400 : (z + 1) mod 400 = (r1 + 1) mod 400).
  { replace (z + 1) with ((r1 + 1) + a * 400) by lia.
    apply Z.mod_add. lia. }
  rewrite M4, M100, M400 in Hk.
  assert (Hn : n = 146097 * a + 36524 * b + 1461 * c + 365 * e + k)
    by (unfold n; lia).
  clearbody n a r1 b r2 c e. 
  assert (Hb : 0 <= b <= 3) by lia.
  assert (Hc : 0 <= c <= 24) by lia.
  assert (He : 0 <= e <= 3) by lia.
  assert (Hk' : 0 <= k <= 365 /\ (k = 365 -> e = 3 /\ (c <> 24 \/ b = 3))).
  { destruct (Z.eqb_spec ((e + 1) mod 4) 0) as [E1 | E1]; simpl in Hk.
    - destruct (Z.eqb_spec ((r2 + 1) mod 100) 0) as [E2 | E2]; simpl in Hk.
      + destruct (Z.eqb_spec ((r1 + 1) mod 400) 0) as [E3 | E3]; simpl in Hk.
        * split; [lia |]. intros _.
          assert (e = 3) by (clear - E1 He; Z.div_mod_to_equations; lia).
          split; [assumption |].
          right.
          assert (r1 = 399) by (clear - E3 B1; Z.div_mod_to_equations; lia).
          lia.
        * split; [lia |]. lia.
      + split; [lia |]. intros _.
        assert (e = 3) by (clear - E1 He; Z.div_mod_to_equations; lia).
        split; [assumption |]. left. intros ->. apply E2. subst e.
        replace r2 with 99 by lia. reflexivity.
    - split; lia. }
  assert (Hzdec : z = 400 * a + 100 * b + 4 * c + e) by lia.
  clear Hk M4 M100 M400 Q4 Q100 D1 D2 D3 B1 B2 B3.
  destruct Hk' as [Hk1 Hk2].
  subst n.
  assert (E400 : (146097 * a + 36524 * b + 1461 * c + 365 * e + k) / 146097 = a)
    by (symmetry; apply (Z.div_unique _ 146097 _ (36524 * b + 1461 * c + 365 * e + k)); lia).
  assert (R400 : (146097 * a + 36524 * b + 1461 * c + 365 * e + k) mod 146097
                 = 36524 * b + 1461 * c + 365 * e + k)
    by (symmetry; apply (Z.mod_unique _ 146097 a); lia).
  rewrite E400, R400.
  destruct (Z.eq_dec (1461 * c + 365 * e + k) 36524) as [Hspecial | Hnormal].
  - (* last day of a 400-year cycle *)
    assert (b = 3 /\ c = 24 /\ e = 3 /\ k = 365) as (-> & -> & -> & ->) by lia.
    vm_compute (36524 * 3 + 1461 * 24 + 365 * 3 + 365).
    change (146096 / 36524) with 4. change (146096 mod 36524) with 0.
    change (0 / 1461) with 0. change (0 mod 1461) with 0. change (0 / 365) with 0.
    simpl. lia.
  - assert (E100 : (36524 * b + 1461 * c + 365 * e + k) / 36524 = b)
      by (symmetry; apply (Z.div_unique _ 36524 _ (1461 * c + 365 * e + k)); lia).
    assert (R100 : (36524 * b + 1461 * c + 365 * e + k) mod 36524
                   = 1461 * c + 365 * e + k)
      by (symmetry; apply (Z.mod_unique _ 36524 b); lia).
    rewrite E100, R100.
    assert (E4 : (1461 * c + 365 * e + k) / 1461 = c)
      by (symmetry; apply (Z.div_unique _ 1461 _ (365 * e + k)); lia).
    assert (R4 : (1461 * c + 365 * e + k) mod 1461 = 365 * e + k)
      by (symmetry; apply (Z.mod_unique _ 1461 c); lia).
    rewrite E4, R4.
    destruct (Z.eq_dec k 365) as [-> | Hk365].
    + destruct (Hk2 eq_refl) as [-> _].
      change ((365 * 3 + 365) / 365) with 4. simpl.
      replace (b =? 4) with false by (symmetry; apply Z.eqb_neq; lia).
      lia.
    + assert (E1 : (365 * e + k) / 365 = e)
        by (symmetry; apply (Z.div_unique _ 365 _ k); lia).
      rewrite E1.
      replace (e =? 4) with false by (symmetry; apply Z.eqb_neq; lia).
      replace (b =? 4) with false by (symmetry; apply Z.eqb_neq; lia).
      simpl. lia.
Qed.

Lemma days_in_year_bound (y m d : Z) :
  1 <= m <= 12 -> 1 <= d <= _days_in_month y m ->
  0 <= _days_before_month y m + d - 1 < 365 + (if _is_leap y then 1 else 0).
Proof.
  intros Hm Hd. unfold _days_in_month, _days_before_month in *.
  assert (Hcases : m = 1 \/ m = 2 \/ m = 3 \/ m = 4 \/ m = 5 \/ m = 6 \/ m = 7
                   \/ m = 8 \/ m = 9 \/ m = 10 \/ m = 11 \/ m = 12) by lia.
  destruct (_is_leap y);
    repeat (destruct Hcases as [-> | Hcases]); try subst m; simpl in *; lia.
Qed.

Lemma mkdate_fields (y m d : Z) (n : date) :
  mkdate y m d = Some n ->
  1 <= y <= 9999 /\ 1 <= m <= 12 /\ 1 <= d <= _days_in_month y m
  /\ n = _days_before_year y + _days_before_month y m + d.
Proof.
  unfold mkdate, MINYEAR, MAXYEAR, _ymd2ord.
  destruct (_ && _) eqn:E; [| discriminate]. intros H. injection H as <-.
  rewrite !andb_true_iff in E. rewrite !Z.leb_le in E. lia.
Qed.

Lemma mkdate_round_trip (y m d : Z) (n : date) :
  mkdate y m d = Some n ->
  valid_date n /\ PyDate.year n = y /\ tm_yday n = _days_before_month y m + d.
Proof.
  intros H. apply mkdate_fields in H as (Hy & Hm & Hd & ->).
  pose proof (days_in_year_bound y m d Hm Hd) as Hk.
  assert (Hyear : PyDate.year (_days_before_year y + _days_before_month y m + d) = y).
  { replace (_days_before_year y + _days_before_month y m + d)
      with (_days_before_year y + (_days_before_month y m + d - 1) + 1) by lia.
    apply year_of_day; [lia | exact Hk]. }
  split; [| split; [exact Hyear |]].
  - unfold valid_date, _MAXORDINAL.
    assert (Hlast : y = 9999 -> _is_leap y = false) by (intros ->; reflexivity).
    assert (Hdby : 0 <= _days_before_year y
                   /\ (y <= 9998 -> _days_before_year y + 366 <= 3652059)
                   /\ (y = 9999 -> _days_before_year y + 365 = 3652059)).
    { unfold _days_before_year. split; [| split].
      - Z.div_mod_to_equations. lia.
      - intros Hle. Z.div_mod_to_equations. lia.
      - intros ->. reflexivity. }
    destruct (Z.eq_dec y 9999) as [E | E].
    + rewrite (Hlast E) in Hk. lia.
    + destruct (_is_leap y); lia.
  - unfold tm_yday. rewrite Hyear. lia.
Qed.


(** X11. Calendar fields survive the trip through the date type: for the
    date [date(y, m, d)], [.year] is [y] and [tm_yday] is the number of days
    before month [m] in year [y] plus [d]; so every candidate of that date
    has its URL and its local path under the directories named [y] and that
    day number padded to three digits. *)
Theorem candidates_of_calendar_date (y m d : Z) (n : date) station rinex_root :
  mkdate y m d = Some n ->
  let doy := _days_before_month y m + d in
  valid_date n /\ PyDate.year n = y /\ tm_yday n = doy
  /\ 1 <= doy <= 366
  /\ forall c, c ∈ generate_rinex_url_and_path station n rinex_root ->
       exists fname,
         fname ∈ generate_candidate_filenames station n
         /\ c.1 = ARCHIVE_URL +:+ str_of_int y +:+ "/" +:+ fmt_0d 3 doy +:+ "/" +:+ fname
         /\ c.2 = path_join (path_join rinex_root [str_of_int y; fmt_0d 3 doy]) [fname].
Proof.
  intros H doy. subst doy.
  destruct (mkdate_round_trip y m d n H) as (Hv & Hy & Hd).
  split; [exact Hv |]. split; [exact Hy |]. split; [exact Hd |].
  split; [rewrite <- Hd; now apply tm_yday_range |].
  intros c Hc. unfold generate_rinex_url_and_path in Hc. cbv zeta in Hc.
  rewrite Hy, Hd in Hc.
  apply list_elem_of_In, in_map_iff in Hc as (fname & <- & Hf).
  exists fname. split; [now apply list_elem_of_In |]. split; reflexivity.
Qed.

Lemma candidates_of_calendar_date_witness :
  valid_date 737942 /\ PyDate.year 737942 = 2021 /\ tm_yday 737942 = 151 + 1.
Proof.
  destruct (candidates_of_calendar_date 2021 6 1 737942 "Y" "out") as (H1 & H2 & H3 & _).
  - reflexivity.
  - split; [exact H1 |]. split; [exact H2 | exact H3].
Defined.

(** X12. [daterange] yields the days from [start_date] to [end_date] in
    chronological order, one day apart: its [i]-th element is
    [start_date + i] days, it has [end_date - start_date + 1] elements when
    the range is not inverted, and none when [end_date] is before
    [start_date]. *)
Theorem daterange_chronological (start_date end_date : date) :
  length (daterange start_date end_date) = Z.to_nat (end_date - start_date + 1)
  /\ (forall i : nat,
        (i < length (daterange start_date end_date))%nat ->
        daterange start_date end_date !! i = Some (add_days start_date (Z.of_nat i)))
  /\ (end_date < start_date -> daterange start_date end_date = [])
  /\ (start_date <= end_date ->
      head (daterange start_date end_date) = Some start_date
      /\ last (daterange start_date end_date) = Some end_date).
Proof.
  pose proof (daterange_length start_date end_date) as Hlen.
  assert (Hlookup : forall i : nat,
             (i < length (daterange start_date end_date))%nat ->
             daterange start_date end_date !! i = Some (add_days start_date (Z.of_nat i))).
  { intros i Hi. rewrite daterange_seqZ. unfold add_days.
    apply lookup_seqZ_lt. lia. }
  split; [exact Hlen |]. split; [exact Hlookup |]. split.
  - intros Hlt. apply length_zero_iff_nil. lia.
  - intros Hle. split.
    + rewrite head_lookup, Hlookup by lia. unfold add_days. f_equal. lia.
    + rewrite last_lookup, Hlookup by lia. unfold add_days. f_equal. lia.
Qed.

Lemma daterange_chronological_witness :
  head (daterange (ymd 2020 2 28) (ymd 2020 3 1)) = Some (ymd 2020 2 28)
  /\ last (daterange (ymd 2020 2 28) (ymd 2020 3 1)) = Some (ymd 2020 3 1).
Proof.
  apply (daterange_chronological (ymd 2020 2 28) (ymd 2020 3 1)).
  vm_compute. discriminate.
Defined.


(* ===================================================================== *)
(** ** The station list file                                             *)
(* ===================================================================== *)

Lemma lstrip_chars_split p s :
  exists l, s = l +:+ lstrip_chars p s /\ all_chars p l = true.
Proof.
  induction s as [| c r IH]; simpl.
  - exists "". split; reflexivity.
  - destruct (p c) eqn:E.
    + destruct IH as (l & Hl & Ha). exists (String c l). split.
      * rewrite append_cons. now f_equal.
      * simpl. now rewrite E.
    + exists "". split; reflexivity.
Qed.

Lemma rstrip_chars_split p s :
  exists r, s = rstrip_chars p s +:+ r /\ all_chars p r = true.
Proof.
  induction s as [| c s IH]; simpl.
  - exists "". split; reflexivity.
  - destruct IH as (r & Hr & Ha).
    destruct (p c) eqn:E; simpl.
    + destruct (String.eqb_spec (rstrip_chars p s) "") as [E0 | E0].
      * exists (String c r). split.
        -- rewrite E0 in Hr. unfold String.append in Hr |- *. simpl in *.
           now f_equal.
        -- simpl. now rewrite E.
      * exists r. split; [| exact Ha]. rewrite append_cons. now f_equal.
    + exists r. split; [| exact Ha]. rewrite append_cons. now f_equal.
Qed.

Lemma lstrip_chars_head p s : starts_with p (lstrip_chars p s) = false.
Proof.
  induction s as [| c r IH]; simpl; [reflexivity |].
  destruct (p c) eqn:E; [exact IH | simpl; exact E].
Qed.

Lemma rstrip_chars_empty p s :
  rstrip_chars p s = "" <-> all_chars p s = true.
Proof.
  induction s as [| c r IH]; simpl; [tauto |].
  destruct (p c); simpl.
  - destruct (String.eqb_spec (rstrip_chars p r) "") as [E0 | E0].
    + tauto.
    + split; [discriminate |]. intros H. apply IH in H. contradiction.
  - split; discriminate.
Qed.

Lemma rstrip_chars_last p s : ends_with p (rstrip_chars p s) = false.
Proof.
  induction s as [| c r IH]; simpl; [reflexivity |].
  destruct (p c) eqn:E; simpl.
  - destruct (String.eqb_spec (rstrip_chars p r) "") as [E0 | E0];
      [reflexivity |].
    simpl. destruct (rstrip_chars p r); [contradiction | exact IH].
  - simpl. destruct (rstrip_chars p r) eqn:R; [exact E | exact IH].
Qed.

Lemma rstrip_chars_keeps_head p s :
  starts_with p s = false -> starts_with p (rstrip_chars p s) = false.
Proof.
  destruct s as [| c r]; simpl; [reflexivity |].
  intros E. rewrite E. simpl. exact E.
Qed.

Lemma lstrip_chars_fixed p s : starts_with p s = false -> lstrip_chars p s = s.
Proof. destruct s as [| c r]; simpl; [reflexivity |]. now intros ->. Qed.

Lemma rstrip_chars_fixed p s : ends_with p s = false -> rstrip_chars p s = s.
Proof.
  induction s as [| c r IH]; simpl; [reflexivity |].
  destruct r as [| c' r'].
  - intros ->. reflexivity.
  - intros H. rewrite (IH H).
    destruct (p c); reflexivity.
Qed.

Lemma all_chars_append p a b :
  all_chars p (a +:+ b) = all_chars p a && all_chars p b.
Proof.
  induction a as [| c r IH]; [reflexivity |].
  rewrite append_cons. simpl. rewrite IH. now rewrite andb_assoc.
Qed.

Lemma lstrip_chars_all p s : all_chars p s = true -> lstrip_chars p s = "".
Proof.
  induction s as [| c r IH]; simpl; [reflexivity |].
  destruct (p c); simpl; [exact IH | discriminate].
Qed.

Lemma strip_empty s : strip s = "" <-> all_chars is_space s = true.
Proof.
  unfold strip. rewrite rstrip_chars_empty.
  destruct (lstrip_chars_split is_space s) as (l & Hl & Ha).
  split.
  - intros H. rewrite Hl, all_chars_append, Ha, H. reflexivity.
  - intros H. now rewrite (lstrip_chars_all _ _ H).
Qed.

Lemma strip_ends s :
  starts_with is_space (strip s) = false /\ ends_with is_space (strip s) = false.
Proof.
  unfold strip. split.
  - apply rstrip_chars_keeps_head, lstrip_chars_head.
  - apply rstrip_chars_last.
Qed.

Lemma strip_idempotent s : strip (strip s) = strip s.
Proof.
  destruct (strip_ends s) as [Hh Ht].
  unfold strip at 1. rewrite (lstrip_chars_fixed _ _ Hh).
  now apply rstrip_chars_fixed.
Qed.

Lemma strip_split s :
  exists l r, s = l +:+ strip s +:+ r
              /\ all_chars is_space l = true /\ all_chars is_space r = true.
Proof.
  destruct (lstrip_chars_split is_space s) as (l & Hl & Ha).
  destruct (rstrip_chars_split is_space (lstrip_chars is_space s)) as (r & Hr & Hb).
  exists l, r. split; [| split; assumption].
  unfold strip. rewrite <- Hr. exact Hl.
Qed.

Lemma filter_nonblank lines :
  List.filter (fun line => negb (String.eqb (strip line) "")) lines
  = List.filter nonblank lines.
Proof.
  induction lines as [| x r IH]; simpl; [reflexivity |].
  rewrite IH. change (nonblank x) with (negb (all_chars is_space x)).
  destruct (String.eqb_spec (strip x) "") as [E | E].
  - apply strip_empty in E. now rewrite E.
  - destruct (all_chars is_space x) eqn:A; [| reflexivity].
    apply strip_empty in A. contradiction.
Qed.

(** X13. [load_station_list] exits with status 1 when the path is no file
    or every line is whitespace, and is left by the exception when the file
    cannot be opened or decoded; otherwise it returns, in the file's order
    and with repetitions kept, each line that is not whitespace only with
    the whitespace at its two ends removed: the list is not empty, and no
    identifier in it is empty or begins or ends with whitespace.
    Whitespace is what [str.isspace] accepts among the code points below
    256, which are the characters of the model: the ASCII whitespace, NEL
    and the no-break space. *)
Theorem load_station_list_spec (h : host) (file_path : string) :
  match load_station_list h file_path with
  | Proceed stations =>
      exists lines,
        file_lines h file_path = TextLines lines
        /\ stations = map strip (List.filter nonblank lines)
        /\ stations <> []
        /\ Forall (fun st => st <> ""
                             /\ starts_with is_space st = false
                             /\ ends_with is_space st = false
                             /\ strip st = st) stations
        /\ Forall (fun line =>
                     exists l r, line = l +:+ strip line +:+ r
                                 /\ all_chars is_space l = true
                                 /\ all_chars is_space r = true) lines
  | SysExit code why =>
      code = 1
      /\ match file_lines h file_path with
         | NotAFile => why = StationsFileNotFound file_path
         | Unreadable _ => False
         | TextLines lines =>
             why = NoStationIdsInFile
             /\ Forall (fun line => all_chars is_space line = true) lines
         end
  | Uncaught e => file_lines h file_path = Unreadable e
  end.
Proof.
  unfold load_station_list.
  destruct (file_lines h file_path) as [| e | lines];
    [split; reflexivity | reflexivity |].
  rewrite filter_nonblank.
  destruct (map strip (List.filter nonblank lines)) as [| st sts] eqn:E.
  - split; [reflexivity |]. split; [reflexivity |].
    apply map_eq_nil in E.
    apply Forall_forall. intros x Hx.
    destruct (all_chars is_space x) eqn:A; [reflexivity |].
    assert (Hin : In x (List.filter nonblank lines)).
    { apply List.filter_In. split; [now apply list_elem_of_In |].
      unfold nonblank. now rewrite A. }
    rewrite E in Hin. destruct Hin.
  - exists lines. split; [reflexivity |]. split; [now rewrite E |].
    split; [discriminate |]. split.
    + rewrite <- E. apply Forall_forall. intros x Hx.
      apply list_elem_of_In, List.in_map_iff in Hx as (y & <- & Hy).
      apply List.filter_In in Hy as [_ Hy].
      destruct (strip_ends y) as [Hh Ht].
      split; [| split; [exact Hh | split; [exact Ht | apply strip_idempotent]]].
      intros E0. apply strip_empty in E0. unfold nonblank in Hy.
      now rewrite E0 in Hy.
    + apply Forall_forall. intros x _. apply strip_split.
Qed.

Lemma load_station_list_spec_witness :
  load_station_list stations_host "stations.txt" = Proceed ["p123"]
  /\ load_station_list stations_host "binary.dat" = Uncaught ValueError
  /\ file_lines stations_host "binary.dat" = Unreadable ValueError
  /\ exists lines,
       file_lines stations_host "stations.txt" = TextLines lines
       /\ ["p123"] = map strip (List.filter nonblank lines).
Proof.
  split; [reflexivity |]. split; [reflexivity |]. split.
  - exact (load_station_list_spec stations_host "binary.dat").
  - destruct (load_station_list_spec stations_host "stations.txt")
      as (lines & E & Hst & _).
    exists lines. split; [exact E | exact Hst].
Defined.

(* ===================================================================== *)
(** ** Session periods                                                   *)
(* ===================================================================== *)

Lemma dict_get_set_same {V} (d : list (string * V)) k v :
  dict_get (dict_set d k v) k = Some v.
Proof.
  induction d as [| [k' v'] r IH]; simpl.
  - now rewrite String.eqb_refl.
  - destruct (String.eqb k' k) eqn:E; simpl; rewrite E; [reflexivity | exact IH].
Qed.

Lemma dict_get_set_other {V} (d : list (string * V)) k v k0 :
  k0 <> k -> dict_get (dict_set d k v) k0 = dict_get d k0.
Proof.
  intros Hne. induction d as [| [k' v'] r IH]; simpl.
  - destruct (String.eqb_spec k k0); [congruence | reflexivity].
  - destruct (String.eqb_spec k' k) as [-> | E]; simpl.
    + destruct (String.eqb_spec k k0); [congruence | reflexivity].
    + destruct (String.eqb_spec k' k0); [reflexivity | exact IH].
Qed.

Lemma dict_keys_set {V} (d : list (string * V)) k v :
  dict_keys (dict_set d k v)
  = if dict_mem d k then dict_keys d else (dict_keys d ++ [k])%list.
Proof.
  unfold dict_keys, dict_mem. induction d as [| [k' v'] r IH]; simpl.
  - reflexivity.
  - rewrite (String.eqb_sym k k').
    destruct (String.eqb k' k) eqn:E; simpl; [reflexivity |].
    rewrite IH. destruct (existsb _ _); reflexivity.
Qed.

Lemma dict_mem_elem {V} (d : list (string * V)) k :
  dict_mem d k = true <-> k ∈ dict_keys d.
Proof.
  unfold dict_mem, dict_keys. rewrite existsb_exists, list_elem_of_In. split.
  - intros (x & Hx & E). apply String.eqb_eq in E. now subst.
  - intros H. exists k. split; [exact H | apply String.eqb_refl].
Qed.

Lemma dict_keys_set_NoDup {V} (d : list (string * V)) k v :
  NoDup (dict_keys d) -> NoDup (dict_keys (dict_set d k v)).
Proof.
  intros H. rewrite dict_keys_set. destruct (dict_mem d k) eqn:E; [exact H |].
  apply NoDup_app. split; [exact H |]. split; [| apply NoDup_singleton].
  intros x Hx Hk. apply list_elem_of_singleton in Hk. subst x.
  apply dict_mem_elem in Hx. congruence.
Qed.

Lemma dict_get_list_to_map {V} (d : list (string * V)) k :
  (list_to_map d : gmap string V) !! k = dict_get d k.
Proof.
  induction d as [| [k' v'] r IH]; simpl.
  - apply lookup_empty.
  - destruct (String.eqb_spec k' k) as [-> | E].
    + apply lookup_insert_eq.
    + rewrite lookup_insert_ne by exact E. exact IH.
Qed.

Lemma dict_get_mem {V} (d : list (string * V)) k :
  dict_mem d k = true <-> exists v, dict_get d k = Some v.
Proof.
  unfold dict_mem. induction d as [| [k' v'] r IH]; simpl.
  - split; [discriminate | intros [v H]; discriminate].
  - rewrite (String.eqb_sym k k'). destruct (String.eqb k' k); simpl.
    + split; [eauto | reflexivity].
    + exact IH.
Qed.

Lemma parse_session_periods_snoc h rows row :
  parse_session_periods h (rows ++ [row])
  = dict_set (parse_session_periods h rows) (row_id row) (row_period h row).
Proof. unfold parse_session_periods. now rewrite fold_left_app. Qed.

Lemma parse_session_periods_keys h rows :
  NoDup (dict_keys (parse_session_periods h rows))
  /\ forall sid, sid ∈ dict_keys (parse_session_periods h rows)
                 <-> sid ∈ map row_id rows.
Proof.
  induction rows as [| row rows [IHn IHk]] using rev_ind.
  - split; [apply NoDup_nil_2 |]. intros sid. reflexivity.
  - rewrite parse_session_periods_snoc. split.
    + now apply dict_keys_set_NoDup.
    + intros sid. rewrite dict_keys_set, map_app, elem_of_app. simpl.
      rewrite list_elem_of_singleton, <- IHk.
      destruct (dict_mem _ _) eqn:E.
      * apply dict_mem_elem in E. split; [tauto |].
        intros [H | ->]; assumption.
      * rewrite elem_of_app, list_elem_of_singleton. reflexivity.
Qed.

Lemma parse_session_periods_last h pre row post :
  row_id row ∉ map row_id post ->
  dict_get (parse_session_periods h (pre ++ row :: post)) (row_id row)
  = Some (row_period h row).
Proof.
  induction post as [| r post IH] using rev_ind; intros Hn.
  - rewrite parse_session_periods_snoc. apply dict_get_set_same.
  - rewrite map_app, elem_of_app in Hn. simpl in Hn.
    rewrite list_elem_of_singleton in Hn.
    replace (pre ++ row :: post ++ [r])%list with ((pre ++ row :: post) ++ [r])%list
      by (rewrite <- app_assoc; reflexivity).
    rewrite parse_session_periods_snoc, dict_get_set_other by tauto.
    apply IH. tauto.
Qed.

(** X14. [parse_session_periods] builds a dictionary with exactly one entry
    per station identifier of the table. The entry holds the bounds of the
    LAST row of that identifier (a later row overwrites an earlier one),
    and a bound is [None] whenever its cell is not a string or
    [fromisoformat] rejects it; looking a station up in the map the
    orchestrator receives gives that entry. *)
Theorem parse_session_periods_last_row_wins (h : host) (df_metadata : list meta_row) :
  let station_periods := parse_session_periods h df_metadata in
  NoDup (dict_keys station_periods)
  /\ (forall sid, sid ∈ dict_keys station_periods <-> sid ∈ map row_id df_metadata)
  /\ (forall sid, dict_mem station_periods sid = true
                  <-> sid ∈ map row_id df_metadata)
  /\ (forall sid, periods_map station_periods !! sid = dict_get station_periods sid)
  /\ (forall pre row post,
        df_metadata = (pre ++ row :: post)%list ->
        row_id row ∉ map row_id post ->
        periods_map station_periods !! row_id row
        = Some (parse_bound h (session_start_time row),
                parse_bound h (session_stop_time row)))
  /\ (forall sid, sid ∉ map row_id df_metadata ->
                  periods_map station_periods !! sid = None).
Proof.
  intros station_periods. subst station_periods.
  destruct (parse_session_periods_keys h df_metadata) as [Hn Hk].
  split; [exact Hn |]. split; [exact Hk |]. split.
  { intros sid. rewrite dict_mem_elem. apply Hk. }
  split. { intros sid. apply dict_get_list_to_map. }
  split.
  - intros pre row post -> Hlast. unfold periods_map.
    rewrite dict_get_list_to_map. now apply parse_session_periods_last.
  - intros sid Hsid. unfold periods_map. rewrite dict_get_list_to_map.
    destruct (dict_get _ sid) as [v |] eqn:E; [| reflexivity].
    exfalso. apply Hsid, Hk, dict_mem_elem, dict_get_mem. eauto.
Qed.


(* ===================================================================== *)
(** ** The main program                                                  *)
(* ===================================================================== *)

Lemma split_dash_nonempty s : split_dash s <> [].
Proof.
  destruct s as [| c r]; simpl; [discriminate |].
  destruct (Ascii.eqb c "-"); [discriminate |].
  destruct (split_dash r); discriminate.
Qed.

Lemma split_dash_join s : join_dash (split_dash s) = s.
Proof.
  induction s as [| c r IH]; [reflexivity |].
  simpl. destruct (Ascii.eqb_spec c "-") as [-> | Hc].
  - pose proof (split_dash_nonempty r) as Hne.
    destruct (split_dash r) as [| p ps] eqn:E; [contradiction |].
    change (join_dash ("" :: p :: ps)) with ("" +:+ "-" +:+ join_dash (p :: ps)).
    rewrite IH. reflexivity.
  - pose proof (split_dash_nonempty r) as Hne.
    destruct (split_dash r) as [| p ps] eqn:E; [contradiction |].
    destruct ps as [| q qs].
    + simpl in IH |- *. now rewrite IH.
    + change (join_dash (String c p :: q :: qs))
        with (String c p +:+ "-" +:+ join_dash (q :: qs)).
      change (join_dash (p :: q :: qs))
        with (p +:+ "-" +:+ join_dash (q :: qs)) in IH.
      rewrite append_cons. now rewrite IH.
Qed.

Lemma split_dash_no_dash s : Forall (fun p => no_dash p = true) (split_dash s).
Proof.
  induction s as [| c r IH]; simpl.
  - constructor; [reflexivity | constructor].
  - destruct (Ascii.eqb c "-") eqn:Ec.
    + constructor; [reflexivity | exact IH].
    + destruct (split_dash r) as [| p ps].
      * apply Forall_cons. split; [| apply Forall_nil_2].
        unfold no_dash. simpl. now rewrite Ec.
      * apply Forall_cons in IH as [Hp Hps]. apply Forall_cons. split; [| exact Hps].
        unfold no_dash in *. simpl. now rewrite Ec, Hp.
Qed.

(** X15. A start or end argument is accepted only when it is three fields
    separated by exactly two ["-"], each field is an integer for [int],
    and the three integers are a calendar date of the years 1 to 9999; the
    date the program then works with has that year and that day of the
    year. *)
Theorem parse_ymd_accepts (h : host) (s : string) (n : date) :
  parse_ymd h s = Some n ->
  exists a b c y m d,
    s = a +:+ "-" +:+ b +:+ "-" +:+ c
    /\ no_dash a = true /\ no_dash b = true /\ no_dash c = true
    /\ py_int h a = Some y /\ py_int h b = Some m /\ py_int h c = Some d
    /\ 1 <= y <= 9999 /\ 1 <= m <= 12 /\ 1 <= d <= _days_in_month y m
    /\ valid_date n /\ PyDate.year n = y
    /\ tm_yday n = _days_before_month y m + d.
Proof.
  unfold parse_ymd. intros H.
  pose proof (split_dash_join s) as Hj. pose proof (split_dash_no_dash s) as Hd.
  destruct (split_dash s) as [| a [| b [| c [| x xs]]]]; try discriminate.
  destruct (py_int h a) as [y |] eqn:Ea; [| discriminate].
  destruct (py_int h b) as [m |] eqn:Eb; [| discriminate].
  destruct (py_int h c) as [d |] eqn:Ec; [| discriminate].
  apply Forall_cons in Hd as [Ha Hd]. apply Forall_cons in Hd as [Hb Hd].
  apply Forall_cons in Hd as [Hc _].
  destruct (mkdate_fields _ _ _ _ H) as (Hy & Hm & Hdd & _).
  destruct (mkdate_round_trip _ _ _ _ H) as (Hv & Hyr & Hdoy).
  exists a, b, c, y, m, d. simpl in Hj. rewrite <- Hj.
  repeat (split; [first [reflexivity | assumption | lia] |]). exact Hdoy.
Qed.

Lemma parse_ymd_accepts_witness :
  parse_ymd demo_host "2021-06-01" = Some (ymd 2021 6 1)
  /\ exists a b c y m d,
    "2021-06-01" = a +:+ "-" +:+ b +:+ "-" +:+ c
    /\ no_dash a = true /\ no_dash b = true /\ no_dash c = true
    /\ py_int demo_host a = Some y /\ py_int demo_host b = Some m
    /\ py_int demo_host c = Some d
    /\ 1 <= y <= 9999 /\ 1 <= m <= 12 /\ 1 <= d <= _days_in_month y m
    /\ valid_date (ymd 2021 6 1) /\ PyDate.year (ymd 2021 6 1) = y
    /\ tm_yday (ymd 2021 6 1) = _days_before_month y m + d.
Proof.
  split; [reflexivity |].
  apply (parse_ymd_accepts demo_host "2021-06-01" (ymd 2021 6 1)). reflexivity.
Defined.

Lemma parse_ymd_valid h s n : parse_ymd h s = Some n -> valid_date n.
Proof.
  unfold parse_ymd.
  destruct (split_dash s) as [| a [| b [| c [| x xs]]]]; try discriminate.
  destruct (py_int h a) as [y |]; [| discriminate].
  destruct (py_int h b) as [m |]; [| discriminate].
  destruct (py_int h c) as [d |]; [| discriminate].
  intros H. now destruct (mkdate_round_trip _ _ _ _ H).
Qed.

Lemma filter_dict_mem {V} (d : list (string * V)) (l : list string) :
  Forall (fun st => st ∈ dict_keys d) (List.filter (dict_mem d) l)
  /\ Forall (fun st => st ∉ dict_keys d)
            (List.filter (fun st => negb (dict_mem d st)) l)
  /\ (forall st, st ∈ l ->
        st ∈ List.filter (dict_mem d) l
        \/ st ∈ List.filter (fun st => negb (dict_mem d st)) l).
Proof.
  split; [| split].
  - apply Forall_forall. intros x Hx.
    apply list_elem_of_In, List.filter_In in Hx as [_ Hx]. now apply dict_mem_elem.
  - apply Forall_forall. intros x Hx.
    apply list_elem_of_In, List.filter_In in Hx as [_ Hx].
    intros Hk. apply dict_mem_elem in Hk. now rewrite Hk in Hx.
  - intros st Hst. apply list_elem_of_In in Hst.
    destruct (dict_mem d st) eqn:E.
    + left. apply list_elem_of_In, List.filter_In. now split.
    + right. apply list_elem_of_In, List.filter_In. split; [exact Hst |].
      now rewrite E.
Qed.

Lemma main_plan_proceeds h args df_meta call :
  main_plan h args df_meta = Proceed call ->
  parse_ymd h (arg_start_date args) = Some (call_start call)
  /\ parse_ymd h (arg_end_date args) = Some (call_end call)
  /\ call_start call <= call_end call
  /\ df_meta <> []
  /\ call_periods call = parse_session_periods h df_meta
  /\ call_stations call <> []
  /\ match stations_file_given args with
     | None =>
         call_stations call = dict_keys (parse_session_periods h df_meta)
         /\ call_missing call = []
     | Some file_path =>
         exists stations_requested,
           load_station_list h file_path = Proceed stations_requested
           /\ call_stations call
              = List.filter (dict_mem (parse_session_periods h df_meta))
                            stations_requested
           /\ call_missing call
              = List.filter (fun st => negb (dict_mem (parse_session_periods h df_meta) st))
                            stations_requested
     end.
Proof.
  unfold main_plan, stations_file_given.
  destruct (parse_ymd h (arg_start_date args)) as [s |]; [| discriminate].
  destruct (parse_ymd h (arg_end_date args)) as [e |]; [| discriminate].
  destruct (Z.ltb_spec e s) as [Hlt | Hle]; [discriminate |].
  destruct df_meta as [| row rows] eqn:Edf; [discriminate |].
  rewrite <- Edf.
  assert (Hkeys : dict_keys (parse_session_periods h df_meta) <> []).
  { intros E0.
    destruct (parse_session_periods_keys h df_meta) as [_ Hk].
    specialize (Hk (row_id row)). rewrite E0, Edf in Hk.
    assert (Hin : row_id row ∈ map row_id (row :: rows)) by (simpl; left).
    apply Hk in Hin. inversion Hin. }
  assert (Hne : df_meta <> []) by (rewrite Edf; discriminate).
  destruct (arg_stations_file args) as [file_path |].
  - destruct (String.eqb file_path "").
    + intros H. injection H as <-. simpl. auto 10.
    + destruct (load_station_list h file_path) as [req | code why | err];
        [| discriminate | discriminate].
      destruct (List.filter (dict_mem _) req) as [| st sts] eqn:Ef; [discriminate |].
      intros H. injection H as <-. simpl.
      repeat (split; [first [reflexivity | assumption | discriminate] |]).
      exists req. rewrite Ef. auto.
  - intros H. injection H as <-. simpl. auto 10.
Qed.

(** X16. When the main program reaches the batch, the range is a pair of
    calendar dates with start on or before end, the metadata table is not
    empty, and the station list is not empty and holds only stations that
    have a metadata row. Without a stations file the list is every station
    of the table once; with one, it is the file's identifiers that have a
    row, in the file's order, and every identifier of the file is either
    in the list or among the ones warned about, never both. *)
Theorem main_plan_call_well_formed (h : host) (args : cli_args)
    (df_meta : list meta_row) (call : batch_call) :
  main_plan h args df_meta = Proceed call ->
  valid_date (call_start call) /\ valid_date (call_end call)
  /\ call_start call <= call_end call
  /\ daterange (call_start call) (call_end call) <> []
  /\ call_stations call <> []
  /\ Forall (fun st => st ∈ map row_id df_meta) (call_stations call)
  /\ Forall (fun st => st ∉ map row_id df_meta) (call_missing call)
  /\ match stations_file_given args with
     | None =>
         NoDup (call_stations call)
         /\ (forall st, st ∈ call_stations call <-> st ∈ map row_id df_meta)
         /\ call_missing call = []
     | Some file_path =>
         exists stations_requested,
           load_station_list h file_path = Proceed stations_requested
           /\ sublist (call_stations call) stations_requested
           /\ forall st, st ∈ stations_requested ->
                         st ∈ call_stations call \/ st ∈ call_missing call
     end.
Proof.
  intros H.
  destruct (main_plan_proceeds h args df_meta call H)
    as (Hs & He & Hle & Hdf & Hp & Hst & Hfile).
  destruct (parse_session_periods_keys h df_meta) as [Hn Hk].
  pose proof (parse_ymd_valid h _ _ Hs) as Hvs.
  pose proof (parse_ymd_valid h _ _ He) as Hve.
  split; [exact Hvs |]. split; [exact Hve |]. split; [exact Hle |].
  split.
  { intros E0. pose proof (daterange_length (call_start call) (call_end call)) as L.
    rewrite E0 in L. simpl in L. lia. }
  split; [exact Hst |].
  destruct (stations_file_given args) as [file_path |].
  - destruct Hfile as (req & Hload & -> & ->).
    destruct (filter_dict_mem (parse_session_periods h df_meta) req) as (F1 & F2 & F3).
    split. { eapply Forall_impl; [exact F1 |]. intros x Hx. now apply Hk. }
    split. { eapply Forall_impl; [exact F2 |]. intros x Hx Hin. now apply Hx, Hk. }
    exists req. split; [exact Hload |]. split; [| exact F3].
    clear. induction req as [| x r IH]; simpl; [constructor |].
    destruct (dict_mem _ x); [now apply sublist_skip | now apply sublist_cons].
  - destruct Hfile as [-> ->].
    split. { apply Forall_forall. intros x Hx. now apply Hk. }
    split; [constructor |].
    split; [exact Hn |]. split; [exact Hk | reflexivity].
Qed.


Lemma main_plan_call_well_formed_witness :
  main_plan demo_host demo_args demo_meta
  = Proceed (BatchCall ["p123"; "P456"] (ymd 2021 6 1) (ymd 2021 6 2)
               (parse_session_periods demo_host demo_meta) ["zz99"])
  /\ valid_date (ymd 2021 6 1) /\ ymd 2021 6 1 <= ymd 2021 6 2.
Proof.
  split; [reflexivity |].
  destruct (main_plan_call_well_formed demo_host demo_args demo_meta
              (BatchCall ["p123"; "P456"] (ymd 2021 6 1) (ymd 2021 6 2)
                 (parse_session_periods demo_host demo_meta) ["zz99"]) eq_refl)
    as (Hv & _ & Hle & _).
  split; [exact Hv | exact Hle].
Defined.

Lemma last_row_exists (rows : list meta_row) (st : string) :
  st ∈ map row_id rows -> exists row, last_row_of rows st row.
Proof.
  induction rows as [| r rs IH]; simpl; intros H.
  - inversion H.
  - destruct (decide (st ∈ map row_id rs)) as [Hin | Hnot].
    + destruct (IH Hin) as (row & pre & post & -> & Hid & Hn).
      exists row, (r :: pre), post. auto.
    + apply elem_of_cons in H as [-> | H]; [| contradiction].
      exists r, [], rs. auto.
Qed.

Lemma last_row_period h rows st row :
  last_row_of rows st row ->
  periods_map (parse_session_periods h rows) !! st = Some (row_period h row)
  /\ st ∈ map row_id rows.
Proof.
  intros (pre & post & -> & <- & Hn). split.
  - unfold periods_map. rewrite dict_get_list_to_map.
    now apply parse_session_periods_last.
  - rewrite map_app, elem_of_app. right. simpl. left.
Qed.

Lemma main_plan_stations h args df_meta call st :
  main_plan h args df_meta = Proceed call ->
  st ∈ call_stations call <-> requested h args st /\ st ∈ map row_id df_meta.
Proof.
  intros H.
  destruct (main_plan_proceeds h args df_meta call H)
    as (_ & _ & _ & _ & _ & _ & Hfile).
  destruct (parse_session_periods_keys h df_meta) as [_ Hk].
  unfold requested. destruct (stations_file_given args) as [file_path |].
  - destruct Hfile as (req & Hload & -> & _).
    rewrite list_elem_of_In, List.filter_In, <- list_elem_of_In, dict_mem_elem, Hk.
    split.
    + intros [H1 H2]. split; [| exact H2]. exists req. auto.
    + intros [(req' & E & H1) H2]. rewrite Hload in E. injection E as <-. auto.
  - destruct Hfile as [-> _]. rewrite Hk. tauto.
Qed.

(** X17. What a whole run works on. With a token, a positive worker count
    and a pool that completes every unit, the rows the main program's batch
    returns are exactly the pairs (station, day) such that the station has
    a row in the metadata table and, when a stations file is given, is
    listed in it; the day lies between the parsed start and end arguments;
    and the day is not before the start bound nor after the stop bound
    parsed from the station's LAST metadata row, where a bound that is not
    a string or that [fromisoformat] rejects restricts nothing. *)
Theorem main_works_on_requested_units (h : host) (env : environment)
    (args : cli_args) (df_meta : list meta_row) (w w' : world)
    (token : string) (results : list result_row) :
  token_var env = Some token -> token <> "" -> 0 < arg_workers args ->
  (forall tasks, Permutation (completion env tasks) tasks) ->
  main h env args df_meta w = Proceed (Ok results, w') ->
  exists start_dt end_dt,
    parse_ymd h (arg_start_date args) = Some start_dt
    /\ parse_ymd h (arg_end_date args) = Some end_dt
    /\ forall st d,
         (exists r, r ∈ results /\ row_task r = (st, d))
         <-> requested h args st
             /\ start_dt <= d <= end_dt
             /\ exists row,
                  last_row_of df_meta st row
                  /\ (forall s, parse_bound h (session_start_time row) = Some s -> s <= d)
                  /\ (forall e, parse_bound h (session_stop_time row) = Some e -> d <= e).
Proof.
  intros Htok Hne Hw Hperm Hmain. unfold main in Hmain.
  destruct (main_plan h args df_meta) as [call | code why | e] eqn:Ep;
    [| discriminate | discriminate].
  injection Hmain as Hrun.
  destruct (main_plan_proceeds h args df_meta call Ep)
    as (Hs & He & _ & _ & Hp & _ & _).
  exists (call_start call), (call_end call). split; [exact Hs |]. split; [exact He |].
  destruct (download_rinex_batch_unfold env (call_stations call) (call_start call)
              (call_end call) (arg_out_root args) (periods_map (call_periods call))
              (arg_workers args) (arg_dry_run args) w token Htok Hne Hw)
    as (results0 & w2 & _ & Hmap & E).
  rewrite E in Hrun. injection Hrun as <- _.
  intros st d.
  assert (Hrows : (exists r, r ∈ results0 /\ row_task r = (st, d))
                  <-> (st, d) ∈ scheduled_units (call_stations call) (call_start call)
                                  (call_end call) (periods_map (call_periods call))).
  { rewrite !list_elem_of_In. split.
    - intros (r & Hr & Er). apply (Permutation_in _ (Hperm _)). rewrite <- Hmap.
      apply in_map_iff. exists r. split; [exact Er | now apply list_elem_of_In].
    - intros Hu. apply (Permutation_in _ (Permutation_sym (Hperm _))) in Hu.
      rewrite <- Hmap in Hu. apply in_map_iff in Hu as (r & Er & Hr).
      exists r. split; [now apply list_elem_of_In | exact Er]. }
  rewrite Hrows, scheduled_units_elem. cbn [fst snd].
  rewrite effective_range_max_min, (main_plan_stations h args df_meta call st Ep), Hp.
  cbn [fst snd]. split.
  - intros ((Hreq & Hin) & Hd). split; [exact Hreq |].
    destruct (last_row_exists df_meta st Hin) as (row & Hrow).
    destruct (last_row_period h df_meta st row Hrow) as [Eperiod _].
    rewrite Eperiod in Hd. unfold row_period in Hd. cbn [default fst snd] in Hd.
    unfold id in Hd.
    destruct (parse_bound h (session_start_time row)) as [s |] eqn:E1,
             (parse_bound h (session_stop_time row)) as [e |] eqn:E2;
      cbv beta iota delta [from_option fst snd id] in Hd.
    all: split; [lia |]; exists row; split; [exact Hrow |].
    all: rewrite E1, E2; split; intros x Hx; simplify_eq; lia.
  - intros (Hreq & Hd & row & Hrow & Hlo & Hhi).
    destruct (last_row_period h df_meta st row Hrow) as [Eperiod Hin].
    split; [split; assumption |].
    rewrite Eperiod. unfold row_period. cbn [default fst snd]. unfold id.
    destruct (parse_bound h (session_start_time row)) as [s |],
             (parse_bound h (session_stop_time row)) as [e |];
      cbv beta iota delta [from_option fst snd id];
      try specialize (Hlo _ eq_refl); try specialize (Hhi _ eq_refl); lia.
Qed.

Lemma main_works_on_requested_units_witness :
  exists results w',
    main demo_host
         (Environment (fun _ _ => AttemptEnv None 0 false false None)
                      (fun _ => false) (Some "tok") (fun l => l))
         demo_args demo_meta empty_world = Proceed (Ok results, w')
    /\ exists start_dt end_dt,
         parse_ymd demo_host (arg_start_date demo_args) = Some start_dt
         /\ parse_ymd demo_host (arg_end_date demo_args) = Some end_dt
         /\ forall st d,
              (exists r, r ∈ results /\ row_task r = (st, d))
              <-> requested demo_host demo_args st
                  /\ start_dt <= d <= end_dt
                  /\ exists row,
                       last_row_of demo_meta st row
                       /\ (forall s, parse_bound demo_host (session_start_time row) = Some s
                                     -> s <= d)
                       /\ (forall e, parse_bound demo_host (session_stop_time row) = Some e
                                     -> d <= e).
Proof.
  eexists. eexists. split; [vm_compute; reflexivity |].
  eapply (main_works_on_requested_units demo_host
            (Environment (fun _ _ => AttemptEnv None 0 false false None)
                         (fun _ => false) (Some "tok") (fun l => l))
            demo_args demo_meta empty_world _ "tok").
  - reflexivity.
  - discriminate.
  - reflexivity.
  - intros tasks. apply Permutation_refl.
  - vm_compute. reflexivity.
Defined.


Lemma rstrip_chars_append_all p s z :
  all_chars p z = true -> rstrip_chars p (s +:+ z) = rstrip_chars p s.
Proof.
  intros Hz. induction s as [| c r IH].
  - change ("" +:+ z) with z. simpl. now apply rstrip_chars_empty.
  - rewrite append_cons. simpl. now rewrite IH.
Qed.

(** X18. Only the part of a timestamp before its trailing ["Z"]s reaches
    [fromisoformat]: appending any number of ["Z"] to a cell's string does
    not change the bound parsed from it, and the string handed to the
    parser never ends with ["Z"]. *)
Theorem parse_bound_ignores_trailing_Z (h : host) (s z : string) :
  all_chars (Ascii.eqb "Z") z = true ->
  parse_bound h (CellStr (s +:+ z)) = parse_bound h (CellStr s)
  /\ ends_with (Ascii.eqb "Z") (rstrip_chars (Ascii.eqb "Z") (s +:+ z)) = false
  /\ exists r, s +:+ z = rstrip_chars (Ascii.eqb "Z") (s +:+ z) +:+ r
               /\ all_chars (Ascii.eqb "Z") r = true.
Proof.
  intros Hz. split; [| split].
  - unfold parse_bound. now rewrite rstrip_chars_append_all.
  - apply rstrip_chars_last.
  - apply rstrip_chars_split.
Qed.

Lemma parse_bound_ignores_trailing_Z_witness :
  parse_bound demo_host (CellStr ("2020-01-01T00:00:00" +:+ "ZZ"))
  = parse_bound demo_host (CellStr "2020-01-01T00:00:00")
  /\ parse_bound demo_host (CellStr "2020-01-01T00:00:00") = Some (ymd 2020 1 1).
Proof.
  split; [| reflexivity].
  apply (parse_bound_ignores_trailing_Z demo_host "2020-01-01T00:00:00" "ZZ").
  reflexivity.
Defined.
